(** * Clash.Premium: rule dispatch and DNS resolution, verified against the Go source

    Shallow embedding of
    - package dns, the resolver: [Resolver.ResolveIP], [shouldIPFallback],
      [ExchangeContext], [exchangeWithoutCache], [matchPolicy],
      [shouldOnlyQueryFallback], [ipExchange], [resolveIP], [msgToDomain],
      [HasProxyServer], [NewProxyServerHostResolver];
    - package dns, util.go: [putMsgToCache], [setMsgTTL], [isIPRequest],
      [msgToIP];
    - package dns, the DoH client: [dohClient.ExchangeContext], [newRequest],
      [doRequest]; client.go: [client.ExchangeContext];
    - package trie, domain.go: [ValidAndSplitDomain], [Insert], [Search], [New];
    - package resolver, resolver.go: [ResolveIPv4WithResolver],
      [ResolveIPv6WithResolver], [ResolveIPWithResolver] and the entry points
      built on them;
    - package tunnel, tunnel.go: [needLookupIP], [preHandleMetadata],
      [shouldResolveIP], [match], [handleUDPConn].

    Go pointers to messages are addresses into an explicit store, goroutines
    and network round trips are explicit effects, and every clock reading is
    an explicit argument. *)

From Stdlib Require Import ZArith Lia Ascii String.
From stdpp Require Import base option list strings gmap.

(** ** Values shared by both subsystems *)

(** A valid [netip.Addr].  The zero value [netip.Addr{}] (the only address for
    which [IsValid()] is false) is [None] of type [Addr]. *)
Inductive IP : Type :=
| IP4 (a : N)
| IP6 (a : N).

#[global] Instance IP_eq_dec : EqDecision IP.
Proof. solve_decision. Defined.

Definition Addr : Type := option IP.

Definition IsValid (a : Addr) : bool :=
  match a with Some _ => true | None => false end.

(** Go [error] values are compared by their message. *)
Definition error : Type := string.

(** [trie.DomainTrie[T]]: only [Search] is used by the code below, so a trie
    is represented by its search function ([None] is the nil node). *)
Definition DomainTrie (T : Type) : Type := string -> option T.

Definition Search {T : Type} (t : DomainTrie T) (domain : string) : option T :=
  t domain.

(** [strings.TrimRight(s, cutset)] for a one-character cutset. *)
Fixpoint TrimRight (s : string) (c : ascii) : string :=
  match s with
  | EmptyString => EmptyString
  | String a rest =>
      let rest' := TrimRight rest c in
      if bool_decide (rest' = EmptyString) && bool_decide (a = c)
      then EmptyString
      else String a rest'
  end.

Module Dns.

(** ** DNS messages (github.com/miekg/dns, the fields the resolver reads) *)

Definition ClassINET : Z := 1.
Definition TypeA : Z := 1.
Definition TypeAAAA : Z := 28.

Record Question : Type := mkQuestion {
  Name : string;
  Qtype : Z;
  Qclass : Z
}.

(** The dynamic type of a resource record.  For [*D.A] and [*D.AAAA] the
    payload is the address as converted by [nnip.IpToAddr]. *)
Inductive RData : Type :=
| RA (a : Addr)
| RAAAA (a : Addr)
| ROther (rrtype : Z).

(** A resource record: [Header().Name], [Header().Ttl] (uint32) and the data. *)
Record RR : Type := mkRR {
  Hdr_Name : string;
  Ttl : Z;
  Data : RData
}.

Record Msg : Type := mkMsg {
  Id : Z;
  Rcode : Z;
  Questions : list Question;
  Answer : list RR;
  Ns : list RR;
  Extra : list RR
}.

(** The three transport kinds built by [transform]. *)
Inductive dnsClient : Type :=
| client (net host port : string)
| dohClient (url : string)
| dhcpClient (iface : string).

(** What [batchExchange] hands back: [(msg, nil)] or [(nil, err)]. *)
Inductive result : Type :=
| Ok (msg : Msg)
| Err (e : error).

Record Resolver : Type := mkResolver {
  ipv6 : bool;
  hosts : DomainTrie IP;
  main : list dnsClient;
  (** [None] is the nil slice, tested by [r.fallback == nil]. *)
  fallback : option (list dnsClient);
  (** [fallbackDomainFilter.Match(domain)] of each filter. *)
  fallbackDomainFilters : list (string -> bool);
  (** [fallbackIPFilter.Match(ip)] of each filter. *)
  fallbackIPFilters : list (Addr -> bool);
  (** [None] is the nil trie; a found record yields [record.Data.GetData()]. *)
  policy : option (DomainTrie (list dnsClient));
  proxyServer : list dnsClient
}.

(** A nil or non-nil slice read as a list. *)
Definition slice {A : Type} (s : option (list A)) : list A :=
  match s with Some l => l | None => [] end.

(** ** dns/util.go *)

Definition isIPRequest (q : Question) : bool :=
  (Qclass q =? ClassINET)%Z && ((Qtype q =? TypeA)%Z || (Qtype q =? TypeAAAA)%Z).

Fixpoint msgToIP_rrs (rrs : list RR) : list Addr :=
  match rrs with
  | [] => []
  | rr :: rest =>
      match Data rr with
      | RAAAA a => a :: msgToIP_rrs rest
      | RA a => a :: msgToIP_rrs rest
      | ROther _ => msgToIP_rrs rest
      end
  end.

Definition msgToIP (msg : Msg) : list Addr := msgToIP_rrs (Answer msg).

(** ** dns/resolver.go: upstream selection *)

Fixpoint shouldIPFallback_loop (filters : list (Addr -> bool)) (ip : Addr) : bool :=
  match filters with
  | [] => false
  | filter :: rest => if filter ip then true else shouldIPFallback_loop rest ip
  end.

Definition shouldIPFallback (r : Resolver) (ip : Addr) : bool :=
  shouldIPFallback_loop (fallbackIPFilters r) ip.

Definition msgToDomain (msg : Msg) : string :=
  match Questions msg with
  | q :: _ => TrimRight (Name q) "."%char
  | [] => EmptyString
  end.

Definition matchPolicy (r : Resolver) (m : Msg) : list dnsClient :=
  match policy r with
  | None => []
  | Some t =>
      let domain := msgToDomain m in
      if bool_decide (domain = EmptyString) then []
      else match Search t domain with
           | None => []
           | Some p => p
           end
  end.

Fixpoint domainFilters_loop (filters : list (string -> bool)) (domain : string) : bool :=
  match filters with
  | [] => false
  | df :: rest => if df domain then true else domainFilters_loop rest domain
  end.

Definition shouldOnlyQueryFallback (r : Resolver) (m : Msg) : bool :=
  if bool_decide (fallback r = None) || (length (fallbackDomainFilters r) =? 0)%nat
  then false
  else
    let domain := msgToDomain m in
    if bool_decide (domain = EmptyString) then false
    else domainFilters_loop (fallbackDomainFilters r) domain.

(** *** Upstream round trips as an effect

    [batchExchange(ctx, clients, m)] races the transports of one group and
    yields one result; the continuation receives it.  It is the only effect
    of the upstream phase. *)
Inductive exch (A : Type) : Type :=
| Ret (a : A)
| batchExchange (clients : list dnsClient) (m : Msg) (k : result -> exch A).

Arguments Ret {A} a.
Arguments batchExchange {A} clients m k.

(** [<-r.asyncExchange(ctx, clients, m)]: [batchExchange] runs in a goroutine
    of its own and the caller blocks on the channel until its result is in. *)
Definition asyncExchange {A : Type} (clients : list dnsClient) (m : Msg)
  (k : result -> exch A) : exch A :=
  batchExchange clients m k.

(** The network: what the [n]-th group query of a run answers. *)
Definition Upstream : Type := nat -> list dnsClient -> Msg -> result.

(** One group query as recorded in a run. *)
Definition query : Type := (list dnsClient * Msg)%type.

Fixpoint run_from {A : Type} (net : Upstream) (n : nat) (p : exch A)
  : A * list query :=
  match p with
  | Ret a => (a, [])
  | batchExchange clients m k =>
      let '(a, log) := run_from net (S n) (k (net n clients m)) in
      (a, (clients, m) :: log)
  end.

Definition run {A : Type} (net : Upstream) (p : exch A) : A * list query :=
  run_from net 0 p.

Definition ipExchange (r : Resolver) (m : Msg) : exch result :=
  let matched := matchPolicy r m in
  if negb (length matched =? 0)%nat then
    asyncExchange matched m Ret
  else if shouldOnlyQueryFallback r m then
    asyncExchange (slice (fallback r)) m Ret
  else
    asyncExchange (main r) m (fun res =>
      if bool_decide (fallback r = None) || (length (slice (fallback r)) =? 0)%nat
      then Ret res
      else
        let queryFallback := asyncExchange (slice (fallback r)) m Ret in
        match res with
        | Ok msg =>
            match msgToIP msg with
            | ip0 :: _ =>
                if negb (shouldIPFallback r ip0) then Ret res else queryFallback
            | [] => queryFallback
            end
        | Err _ => queryFallback
        end).

(** *** Message objects

    A [*D.Msg] is an address into the store of message objects.  [Msg.Copy]
    is a deep copy (a new object owning copies of all its records), so an
    object is a cell holding a whole message value, and two addresses never
    share records. *)
Abbreviation ptr := nat.

Abbreviation store := (list Msg).

(** A newly created object lives at the first unused address. *)
Definition alloc (s : store) (v : Msg) : store * ptr :=
  (s ++ [v], length s).

(** [p.Copy()]; [None] is the dereference of a pointer to no object. *)
Definition Copy (s : store) (p : ptr) : option (store * ptr) :=
  v ← s !! p; Some (alloc s v).

Definition withTtl (ttl : Z) (rr : RR) : RR :=
  mkRR (Hdr_Name rr) ttl (Data rr).

(** The three loops of [setMsgTTL] on the value held by the object. *)
Definition withMsgTTL (v : Msg) (ttl : Z) : Msg :=
  mkMsg (Id v) (Rcode v) (Questions v)
        (map (withTtl ttl) (Answer v))
        (map (withTtl ttl) (Ns v))
        (map (withTtl ttl) (Extra v)).

Definition setMsgTTL (s : store) (msg : ptr) (ttl : Z) : option store :=
  v ← s !! msg; Some (<[msg := withMsgTTL v ttl]> s).

(** Times are nanoseconds since the epoch, durations nanoseconds
    ([time.Duration]). *)
Definition Second : Z := 1000000000.

(** [uint32(d.Seconds())].  [Seconds] is a float64; for [0 <= d] below
    [2^23] seconds it is computed without rounding and the conversion
    truncates to whole seconds.  Outside the uint32 range Go leaves the
    conversion implementation-defined. *)
Definition secondsU32 (d : Z) : Z := ((d ÷ Second) mod 4294967296)%Z.

(** Modelled from the spec: [cache.LruCache] (common/cache) is not part of the
    sources at hand.  A cache entry is keyed by the exact question string and
    holds the last response object and its absolute expiry; stale entries are
    still returned ([cache.WithStale(true)]). *)
Abbreviation LruCache := (gmap string (ptr * Z)).

Definition GetWithExpire (c : LruCache) (key : string) : option (ptr * Z) :=
  c !! key.

Definition SetWithExpire (c : LruCache) (key : string) (value : ptr) (expires : Z)
  : LruCache :=
  <[key := (value, expires)]> c.

(** The resolver's mutable surroundings: message objects and [r.lruCache]. *)
Record World : Type := mkWorld {
  objs : store;
  lruCache : LruCache
}.

(** [putMsgToCache(c, key, msg)] with [time.Now() = now]. *)
Definition putMsgToCache (w : World) (key : string) (msg : ptr) (now : Z)
  : option World :=
  v ← objs w !! msg;
  let ttl :=
    match Answer v with
    | rr :: _ => Some (Ttl rr)
    | [] =>
        match Ns v with
        | rr :: _ => Some (Ttl rr)
        | [] =>
            match Extra v with
            | rr :: _ => Some (Ttl rr)
            | [] => None
            end
        end
    end in
  match ttl with
  | None => Some w
  | Some ttl =>
      '(s', cp) ← Copy (objs w) msg;
      Some (mkWorld s' (SetWithExpire (lruCache w) key cp (now + Second * ttl)%Z))
  end.

(** A message pointer with its error, as returned by the exchange functions:
    [(msg, nil)] or [(nil, err)]. *)
Inductive presult : Type :=
| POk (msg : ptr)
| PErr (e : error).

(** What one call did: the surroundings it leaves, what it returned, the
    group queries it waited for, and the goroutines it started (each runs
    [r.exchangeWithoutCache(ctx, m)] for the recorded [m]). *)
Record outcome : Type := mkOutcome {
  world : World;
  ret : presult;
  queries : list query;
  spawned : list Msg
}.

(** [singleflight.Group.Do(key, fn)]: the caller either executes [fn] itself
    and learns whether other callers were given the same value, or joins an
    execution in flight and is given its value with [shared = true]. *)
Inductive flight : Type :=
| Executes (shared : bool)
| Joins (val : presult).

(** The upstream phase of the function handed to [r.group.Do]. *)
Definition exchange_upstream (r : Resolver) (m : Msg) (q : Question) : exch result :=
  if isIPRequest q then ipExchange r m
  else
    let matched := matchPolicy r m in
    if negb (length matched =? 0)%nat then batchExchange matched m Ret
    else batchExchange (main r) m Ret.

Section Resolver.

(** [q.String()] of miekg/dns, the cache and de-duplication key. *)
Variable QuestionString : Question -> string.

(** The function handed to [r.group.Do], its deferred cache write included.
    A successful upstream answer is a message object the transport has just
    created.  [clock 0] is the [time.Now()] of [putMsgToCache]. *)
Definition exchange_fn (w : World) (r : Resolver) (m : Msg) (q : Question)
  (net : Upstream) (clock : nat -> Z) : option (World * presult * list query) :=
  let '(res, log) := run net (exchange_upstream r m q) in
  match res with
  | Err e => Some (w, PErr e, log)
  | Ok v =>
      let '(s', msg) := alloc (objs w) v in
      w' ← putMsgToCache (mkWorld s' (lruCache w)) (QuestionString q) msg (clock 0);
      Some (w', POk msg, log)
  end.

(** The statements after [r.group.Do] returns. *)
Definition exchange_tail (w : World) (val : presult) (shared : bool)
  : option (World * presult) :=
  match val with
  | PErr e => Some (w, PErr e)
  | POk p =>
      if shared then
        '(s', msg) ← Copy (objs w) p;
        Some (mkWorld s' (lruCache w), POk msg)
      else Some (w, POk p)
  end.

(** [None] is the panic of [m.Question[0]] on an empty question list, or a
    dereference of a pointer to no object. *)
Definition exchangeWithoutCache (w : World) (r : Resolver) (m : Msg)
  (role : flight) (net : Upstream) (clock : nat -> Z) : option outcome :=
  match Questions m with
  | [] => None
  | q :: _ =>
      match role with
      | Executes shared =>
          '(w1, val, log) ← exchange_fn w r m q net clock;
          '(w2, out) ← exchange_tail w1 val shared;
          Some (mkOutcome w2 out log [])
      | Joins val =>
          '(w2, out) ← exchange_tail w val true;
          Some (mkOutcome w2 out [] [])
      end
  end.

(** [clock 0] is [time.Now()] and [clock 1] the clock read by [time.Until]
    on the hit path; on the miss path [clock 0] is read by the cache write. *)
Definition ExchangeContext (w : World) (r : Resolver) (m : Msg)
  (role : flight) (net : Upstream) (clock : nat -> Z) : option outcome :=
  match Questions m with
  | [] => Some (mkOutcome w (PErr "should have one question at least") [] [])
  | q :: _ =>
      match GetWithExpire (lruCache w) (QuestionString q) with
      | Some (cacheM, expireTime) =>
          let now := clock 0 in
          '(s1, msg) ← Copy (objs w) cacheM;
          if (expireTime <? now)%Z then
            s2 ← setMsgTTL s1 msg 1;
            Some (mkOutcome (mkWorld s2 (lruCache w)) (POk msg) [] [m])
          else
            s2 ← setMsgTTL s1 msg (secondsU32 (expireTime - clock 1));
            Some (mkOutcome (mkWorld s2 (lruCache w)) (POk msg) [] [])
      | None => exchangeWithoutCache w r m role net clock
      end
  end.

End Resolver.

(** ** The resolver of proxy server hosts *)

(** [r.HasProxyServer()] *)
Definition HasProxyServer (r : Resolver) : bool := (0 <? length (main r))%nat.

(** [NewProxyServerHostResolver(old)]: the fields not set are nil.  The new
    resolver shares [old.lruCache], which is part of the same [World]. *)
Definition NewProxyServerHostResolver (old : Resolver) : Resolver :=
  mkResolver (ipv6 old) (hosts old) (proxyServer old) None [] [] (policy old) [].

(** ** Resolver.ResolveIP (dual-stack lookup) *)

Definition ErrIPNotFound : error := "couldn't find ip".

(** What one [ResolveIP] call did: the pair it returned, the goroutines it
    started and the lookups it ran itself (each a [r.resolveIP(ctx, host,
    dnsType)]), and whether it blocked on [<-ch]. *)
Record resolved : Type := mkResolved {
  r_ip : Addr;
  r_err : option error;
  r_go : list (string * Z);
  r_calls : list (string * Z);
  r_recv : bool
}.

Section ResolveIP.

(** [r.resolveIP(ctx, host, dnsType)]: [inl ip] when [err == nil]. *)
Variable resolveIP : string -> Z -> Addr + error.

Definition ResolveIP (host : string) : resolved :=
  (* What the goroutine leaves in [ch] before closing it: the address it
     sent, or nothing when its lookup failed. *)
  let ch : option Addr :=
    match resolveIP host TypeAAAA with
    | inl ip => Some ip
    | inr _ => None
    end in
  match resolveIP host TypeA with
  | inl ip => mkResolved ip None [(host, TypeAAAA)] [(host, TypeA)] false
  | inr _ =>
      match ch with
      | None => mkResolved None (Some ErrIPNotFound) [(host, TypeAAAA)] [(host, TypeA)] true
      | Some ip => mkResolved ip None [(host, TypeAAAA)] [(host, TypeA)] true
      end
  end.

End ResolveIP.

(** ** Resolver.resolveIP (one lookup of one record type) *)

Definition ErrIPVersion : error := "ip version error".

(** [ip.Unmap()]: an IPv4-mapped IPv6 address ([::ffff:a.b.c.d]) becomes the
    IPv4 address [a.b.c.d]; any other address is unchanged. *)
Definition Unmap (ip : IP) : IP :=
  match ip with
  | IP4 a => IP4 a
  | IP6 a => if (N.shiftr a 32 =? 65535)%N then IP4 (N.land a 4294967295) else IP6 a
  end.

Definition Is4 (ip : IP) : bool :=
  match ip with IP4 _ => true | IP6 _ => false end.

Section resolveIP.

(** [netip.ParseAddr(host)]; [None] is [err != nil]. *)
Variable ParseAddr : string -> option IP.
(** [D.Fqdn(host)] *)
Variable Fqdn : string -> string.
(** [r.ExchangeContext(ctx, query)] on the message built here, with the
    response as the value of the object returned. *)
Variable exchange : Msg -> Msg + error.
(** The [dns.Id()] drawn by [SetQuestion]. *)
Variable newId : Z.
(** [resolver.ShouldRandomIP(ctx)] *)
Variable random : bool.
(** [rand.Intn(n)] is [seed mod n] for some [seed]: any number below [n]. *)
Variable seed : nat.

(** [query.SetQuestion(D.Fqdn(host), dnsType)] on [&D.Msg{}] *)
Definition SetQuestion (host : string) (dnsType : Z) : Msg :=
  mkMsg newId 0 [mkQuestion (Fqdn host) dnsType ClassINET] [] [] [].

(** The index read from [ips]. *)
Definition pickIndex (ipLength : nat) : nat :=
  if (1 <? ipLength)%nat && random then (seed mod ipLength)%nat else 0%nat.

(** [r.resolveIP(ctx, host, dnsType)]: [inl ip] when [err == nil], with
    the messages handed to [r.ExchangeContext].  [ips[index]] panics when
    the index is out of range; [None] stands for the value never read. *)
Definition resolveIP (host : string) (dnsType : Z) : (Addr + error) * list Msg :=
  match ParseAddr host with
  | Some ip =>
      let ip := Unmap ip in
      let isIPv4 := Is4 ip in
      if (dnsType =? TypeAAAA)%Z && negb isIPv4 then (inl (Some ip), [])
      else if (dnsType =? TypeA)%Z && isIPv4 then (inl (Some ip), [])
      else (inr ErrIPVersion, [])
  | None =>
      let query := SetQuestion host dnsType in
      match exchange query with
      | inr err => (inr err, [query])
      | inl msg =>
          let ips := msgToIP msg in
          let ipLength := length ips in
          if (ipLength =? 0)%nat then (inr ErrIPNotFound, [query])
          else (inl (default None (ips !! pickIndex ipLength)), [query])
      end
  end.

(** [r.ResolveIPv4(ctx, host)] and [r.ResolveIPv6(ctx, host)] *)
Definition ResolveIPv4 (host : string) : (Addr + error) * list Msg :=
  resolveIP host TypeA.

Definition ResolveIPv6 (host : string) : (Addr + error) * list Msg :=
  resolveIP host TypeAAAA.

End resolveIP.

(** ** dohClient (DNS over HTTPS) *)

Definition withId (v : Msg) (id : Z) : Msg :=
  mkMsg id (Rcode v) (Questions v) (Answer v) (Ns v) (Extra v).

(** [&D.Msg{}] *)
Definition zeroMsg : Msg := mkMsg 0 0 [] [] [] [].

(** What one DoH exchange did: the store it leaves, the pair it returned and
    the request bodies it posted to [dc.url]. *)
Record dohOutcome : Type := mkDohOutcome {
  d_store : store;
  d_msg : option ptr;
  d_err : option error;
  d_posted : list (list Z)
}.

Section DoH.

(** [m.Pack()] of miekg/dns, as a function of the message packed. *)
Variable Pack : Msg -> list Z + error.
(** [http.NewRequest(http.MethodPost, dc.url, body)]: its error, if any. *)
Variable NewRequest : list Z -> option error.
(** [client.Do(req)] followed by [io.ReadAll(resp.Body)]. *)
Variable Do : list Z -> list Z + error.
(** [msg.Unpack(buf)] on a zero message: the fields it filled in and its error. *)
Variable Unpack : list Z -> Msg * option error.

(** [dc.doRequest(req)] for a request with the given body. *)
Definition doRequest (s : store) (body : list Z) : store * option ptr * option error :=
  match Do body with
  | inr err => (s, None, Some err)
  | inl buf =>
      let '(s1, msg) := alloc s zeroMsg in
      let '(v, err) := Unpack buf in
      (<[msg := v]> s1, Some msg, err)
  end.

(** [dc.ExchangeContext(ctx, m)] of the DoH client. *)
Definition doh_ExchangeContext (s : store) (m : ptr) : option dohOutcome :=
  v ← s !! m;
  (* newM := *m *)
  let '(s1, newM) := alloc s v in
  (* newM.Id = 0 *)
  nv ← s1 !! newM;
  let s2 := <[newM := withId nv 0]> s1 in
  (* req, err := dc.newRequest(&newM) *)
  packed ← s2 !! newM;
  match Pack packed with
  | inr err => Some (mkDohOutcome s2 None (Some err) [])
  | inl buf =>
      match NewRequest buf with
      | Some err => Some (mkDohOutcome s2 None (Some err) [])
      | None =>
          let '(s3, msg, err) := doRequest s2 buf in
          match err with
          | Some e => Some (mkDohOutcome s3 msg (Some e) [buf])
          | None =>
              (* msg.Id = m.Id *)
              p ← msg;
              mv ← s3 !! m;
              rv ← s3 !! p;
              Some (mkDohOutcome (<[p := withId rv (Id mv)]> s3) msg None [buf])
          end
      end
  end.

End DoH.

End Dns.

Module Tunnel.

(** ** Flow metadata, rules and outbounds (package constant) *)

Inductive NetWork : Type := TCP | UDP.

Definition NetWork_String (n : NetWork) : string :=
  match n with TCP => "tcp" | UDP => "udp" end.

(** [n == C.UDP] *)
Definition isUDP (n : NetWork) : bool :=
  match n with UDP => true | TCP => false end.

Inductive DNSMode : Type := DNSNormal | DNSFakeIP | DNSMapping.

(** Modelled from the spec: the declaration of [constant.Metadata] is not
    part of the sources at hand; these are the fields of the spec's flow
    metadata that tunnel.go reads and writes. *)
Record Metadata : Type := mkMetadata {
  MNetWork : NetWork;
  SrcIP : Addr;
  DstIP : Addr;
  SrcPort : string;
  DstPort : string;
  Host : string;
  MDNSMode : DNSMode;
  Process : string;
  ProcessPath : string
}.

Definition set_DstIP (md : Metadata) (ip : Addr) : Metadata :=
  mkMetadata (MNetWork md) (SrcIP md) ip (SrcPort md) (DstPort md) (Host md)
             (MDNSMode md) (Process md) (ProcessPath md).

Definition set_Host (md : Metadata) (host : string) : Metadata :=
  mkMetadata (MNetWork md) (SrcIP md) (DstIP md) (SrcPort md) (DstPort md) host
             (MDNSMode md) (Process md) (ProcessPath md).

Definition set_DNSMode (md : Metadata) (mode : DNSMode) : Metadata :=
  mkMetadata (MNetWork md) (SrcIP md) (DstIP md) (SrcPort md) (DstPort md) (Host md)
             mode (Process md) (ProcessPath md).

Definition set_Process (md : Metadata) (name path : string) : Metadata :=
  mkMetadata (MNetWork md) (SrcIP md) (DstIP md) (SrcPort md) (DstPort md) (Host md)
             (MDNSMode md) name path.

(** The [constant.Rule] interface; rules are immutable, so the methods
    without arguments are fields. *)
Record Rule : Type := mkRule {
  RuleType : Z;
  Match : Metadata -> bool;
  Adapter : string;
  Payload : string;
  ShouldResolveIP : bool;
  ShouldFindProcess : bool
}.

(** The part of the [constant.Proxy] interface that dispatch uses. *)
Record Proxy : Type := mkProxy {
  Name : string;
  SupportUDP : bool
}.

(** ** strconv.ParseUint(s, 10, 16) *)

Definition digit (c : ascii) : option Z :=
  let n := Z.of_N (N_of_ascii c) in
  if (48 <=? n)%Z && (n <=? 57)%Z then Some (n - 48)%Z else None.

Fixpoint parseDigits (s : string) (acc : Z) : option Z :=
  match s with
  | EmptyString => Some acc
  | String c rest =>
      match digit c with
      | Some d => parseDigits rest (acc * 10 + d)%Z
      | None => None
      end
  end.

(** [None] is any error: empty input, a non-digit, or a value above 65535. *)
Definition ParseUint16 (s : string) : option Z :=
  match s with
  | EmptyString => None
  | _ =>
      match parseDigits s 0 with
      | Some n => if (n <=? 65535)%Z then Some n else None
      | None => None
      end
  end.

(** ** Metadata preprocessing *)

Section PreHandle.

(** [netip.ParseAddr]: [Some ip] when [err == nil]. *)
Variable ParseAddr : string -> option IP.
(** [netip.Addr.String], used in the error text. *)
Variable AddrString : Addr -> string.
(** The host-mapping enhancer of package resolver. *)
Variable MappingEnabled : bool.
Variable FakeIPEnabled : bool.
Variable FindHostByIP : Addr -> option string.
Variable IsFakeIP : Addr -> bool.
(** [resolver.DefaultHosts]. *)
Variable DefaultHosts : DomainTrie Addr.

Definition needLookupIP (metadata : Metadata) : bool :=
  MappingEnabled && bool_decide (Host metadata = EmptyString)
  && IsValid (DstIP metadata).

(** The literal-IP step of [preHandleMetadata]. *)
Definition hostLiteral (metadata : Metadata) : Metadata :=
  match ParseAddr (Host metadata) with
  | Some ip => set_Host (set_DstIP metadata (Some ip)) EmptyString
  | None => metadata
  end.

(** Returns the metadata as left behind and the error. *)
Definition preHandleMetadata (metadata : Metadata) : Metadata * option error :=
  let metadata := hostLiteral metadata in
  if needLookupIP metadata then
    match FindHostByIP (DstIP metadata) with
    | Some host =>
        let metadata := set_DNSMode (set_Host metadata host) DNSMapping in
        if FakeIPEnabled then
          (set_DNSMode (set_DstIP metadata None) DNSFakeIP, None)
        else
          match Search DefaultHosts host with
          | Some data => (set_DstIP metadata data, None)
          | None => (metadata, None)
          end
    | None =>
        if IsFakeIP (DstIP metadata) then
          (metadata,
           Some ("fake DNS record " +:+ AddrString (DstIP metadata) +:+ " missing"))
        else (metadata, None)
    end
  else (metadata, None).

End PreHandle.

(** ** Rule matching *)

(** The effects of one pass of [match], in program order.  [EvMatch] records
    the metadata a rule was matched against and the answer of [rule.Match]. *)
Inductive event : Type :=
| EvResolveIP (rule : Rule) (host : string) (res : Addr + error)
| EvFindProcess (rule : Rule) (network : string) (srcIP : Addr) (srcPort : Z)
    (res : string + error)
| EvMatch (rule : Rule) (metadata : Metadata) (matched : bool).

(** The local state of the loop in [match]. *)
Record pass : Type := mkPass {
  p_metadata : Metadata;
  p_resolved : bool;
  p_processFound : bool;
  p_trace : list event
}.

Definition shouldResolveIP (rule : Rule) (metadata : Metadata) : bool :=
  ShouldResolveIP rule && negb (bool_decide (Host metadata = EmptyString))
  && negb (IsValid (DstIP metadata)).

Section Match.

Variable rules : list Rule.
Variable proxies : gmap string Proxy.
(** [resolver.DefaultHosts]. *)
Variable DefaultHosts : DomainTrie Addr.
(** [resolver.ResolveIP(host)]: [inl ip] when [err == nil]. *)
Variable ResolveIP : string -> Addr + error.
(** [P.FindProcessName(network, srcIP, srcPort)]. *)
Variable FindProcessName : string -> Addr -> Z -> string + error.
(** [filepath.Base]. *)
Variable Base : string -> string.

(** First block of the loop body: rule-triggered resolution. *)
Definition resolveStep (rule : Rule) (st : pass) : pass :=
  if negb (p_resolved st) && shouldResolveIP rule (p_metadata st) then
    let host := Host (p_metadata st) in
    let res := ResolveIP host in
    let metadata :=
      match res with
      | inr _ => p_metadata st
      | inl ip => set_DstIP (p_metadata st) ip
      end in
    mkPass metadata true (p_processFound st)
           (p_trace st ++ [EvResolveIP rule host res])
  else st.

(** Second block of the loop body: process lookup. *)
Definition processStep (rule : Rule) (st : pass) : pass :=
  if negb (p_processFound st) && ShouldFindProcess rule then
    let metadata := p_metadata st in
    match ParseUint16 (SrcPort metadata) with
    | None => mkPass metadata (p_resolved st) true (p_trace st)
    | Some srcPort =>
        let network := NetWork_String (MNetWork metadata) in
        let res := FindProcessName network (SrcIP metadata) srcPort in
        let metadata' :=
          match res with
          | inr _ => metadata
          | inl path => set_Process metadata (Base path) path
          end in
        mkPass metadata' (p_resolved st) true
               (p_trace st ++ [EvFindProcess rule network (SrcIP metadata) srcPort res])
    end
  else st.

Fixpoint match_loop (rs : list Rule) (st : pass)
  : (option Proxy * option Rule * option error) * pass :=
  match rs with
  | [] => ((proxies !! "REJECT", None, None), st)
  | rule :: rest =>
      let st := processStep rule (resolveStep rule st) in
      let hit := Match rule (p_metadata st) in
      let st := mkPass (p_metadata st) (p_resolved st) (p_processFound st)
                       (p_trace st ++ [EvMatch rule (p_metadata st) hit]) in
      if hit then
        match proxies !! Adapter rule with
        | None => match_loop rest st
        | Some adapter =>
            if isUDP (MNetWork (p_metadata st)) && negb (SupportUDP adapter)
            then match_loop rest st
            else ((Some adapter, Some rule, None), st)
        end
      else match_loop rest st
  end.

(** [match(metadata)]: the triple it returns, and the final loop state with
    the metadata as left behind. *)
Definition match_ (metadata : Metadata)
  : (option Proxy * option Rule * option error) * pass :=
  let st :=
    match Search DefaultHosts (Host metadata) with
    | Some data => mkPass (set_DstIP metadata data) true false []
    | None => mkPass metadata false false []
    end in
  match_loop rules st.

End Match.

End Tunnel.

(** ** The UDP session table under concurrent arrivals

    [handleUDPConn] for the packets of one flow (one [key]) that passed the
    metadata checks, from the first [handle()] on.  Each packet is a thread; a
    thread is where its handler, or the goroutine the handler starts, stands
    in the code.  A step runs one thread up to its next access of shared
    state, so a schedule (the list of thread numbers to run) is an
    interleaving of the handlers. *)
Module Udp.

(** An outbound session ([C.PacketConn]) and a condition variable are named
    after the thread that created them. *)
Abbreviation session := nat.
Abbreviation cond := nat.

(** Modelled from the spec: [nat.Table] (component/nat) is not part of the
    sources at hand.  It is one concurrent map holding, for a flow, the
    session under [key] and the in-progress marker, a condition variable,
    under [key + "-lock"]; [Get] and [Set] read and write the session,
    [GetOrCreateLock] atomically returns the marker present or installs a new
    one, and [Delete] removes an entry.  Here it is restricted to the two
    entries of the flow at hand. *)
Record Table : Type := mkTable {
  t_session : option session;
  t_lock : option cond
}.

Definition Get (t : Table) : option session := t_session t.

Definition Set_ (t : Table) (s : session) : Table := mkTable (Some s) (t_lock t).

(** The marker in the table afterwards, the one returned, and [loaded]. *)
Definition GetOrCreateLock (t : Table) (fresh : cond) : Table * cond * bool :=
  match t_lock t with
  | Some c => (t, c, true)
  | None => (mkTable (t_session t) (Some fresh), fresh, false)
  end.

Definition DeleteLock (t : Table) : Table := mkTable (t_session t) None.

(** Where a thread stands.  [sent] is the session its packet was written to
    by [handle()], if any. *)
Inductive point : Type :=
| AtHandle                                    (* if handle() { return } *)
| AtGetOrCreateLock                           (* natTable.GetOrCreateLock(lockKey) *)
| WaiterLock (c : cond)                       (* cond.L.Lock() *)
| WaiterWait (c : cond)                       (* cond.Wait(): unlock and sleep *)
| Sleeping (c : cond)                         (* asleep inside cond.Wait() *)
| Woken (c : cond)                            (* cond.Wait(): lock again *)
| WaiterHandle (c : cond)                     (* handle() *)
| WaiterUnlock (c : cond) (sent : option session)   (* cond.L.Unlock() *)
| Creating (c : cond)                         (* resolveMetadata, ListenPacketContext *)
| AtSet (c : cond) (s : session)              (* natTable.Set(key, pc) *)
| CreatorHandle (c : cond)                    (* handle() *)
| AtDelete (c : cond) (sent : option session) (* deferred natTable.Delete(lockKey) *)
| AtBroadcast (c : cond) (sent : option session)    (* deferred cond.Broadcast() *)
| Done (sent : option session).

Record State : Type := mkState {
  table : Table;
  threads : list point;
  (** The condition variables whose mutex [L] is held. *)
  held : gset cond;
  (** The threads that entered the creation path, latest first. *)
  creations : list nat;
  (** The sessions [ListenPacketContext] returned, latest first. *)
  created : list session
}.

Definition setThread (st : State) (t : nat) (p : point) : State :=
  mkState (table st) (<[t := p]> (threads st)) (held st) (creations st) (created st).

Definition wake (c : cond) (p : point) : point :=
  match p with
  | Sleeping c' => if bool_decide (c' = c) then Woken c else p
  | _ => p
  end.

(** One step of thread [t]; [None] when [t] is blocked, finished or absent.
    [createOk t] tells whether the creation attempt of thread [t]
    ([resolveMetadata] and [ListenPacketContext]) succeeds. *)
Definition step (createOk : nat -> bool) (t : nat) (st : State) : option State :=
  p ← threads st !! t;
  match p with
  | AtHandle =>
      match Get (table st) with
      | Some s => Some (setThread st t (Done (Some s)))
      | None => Some (setThread st t AtGetOrCreateLock)
      end
  | AtGetOrCreateLock =>
      let '(tbl, c, loaded) := GetOrCreateLock (table st) t in
      if loaded then
        Some (mkState tbl (<[t := WaiterLock c]> (threads st)) (held st)
                      (creations st) (created st))
      else
        Some (mkState tbl (<[t := Creating c]> (threads st)) (held st)
                      (t :: creations st) (created st))
  | WaiterLock c =>
      if bool_decide (c ∈ held st) then None
      else Some (mkState (table st) (<[t := WaiterWait c]> (threads st))
                         ({[c]} ∪ held st) (creations st) (created st))
  | WaiterWait c =>
      Some (mkState (table st) (<[t := Sleeping c]> (threads st))
                    (held st ∖ {[c]}) (creations st) (created st))
  | Sleeping _ => None
  | Woken c =>
      if bool_decide (c ∈ held st) then None
      else Some (mkState (table st) (<[t := WaiterHandle c]> (threads st))
                         ({[c]} ∪ held st) (creations st) (created st))
  | WaiterHandle c => Some (setThread st t (WaiterUnlock c (Get (table st))))
  | WaiterUnlock c sent =>
      Some (mkState (table st) (<[t := Done sent]> (threads st))
                    (held st ∖ {[c]}) (creations st) (created st))
  | Creating c =>
      if createOk t then
        Some (mkState (table st) (<[t := AtSet c t]> (threads st)) (held st)
                      (creations st) (t :: created st))
      else Some (setThread st t (AtDelete c None))
  | AtSet c s =>
      Some (mkState (Set_ (table st) s) (<[t := CreatorHandle c]> (threads st))
                    (held st) (creations st) (created st))
  | CreatorHandle c => Some (setThread st t (AtDelete c (Get (table st))))
  | AtDelete c sent =>
      Some (mkState (DeleteLock (table st)) (<[t := AtBroadcast c sent]> (threads st))
                    (held st) (creations st) (created st))
  | AtBroadcast c sent =>
      Some (mkState (table st) (<[t := Done sent]> (wake c <$> threads st))
                    (held st) (creations st) (created st))
  | Done _ => None
  end.

(** Runs a schedule; [None] if it asks a thread to step that cannot. *)
Fixpoint run (createOk : nat -> bool) (schedule : list nat) (st : State)
  : option State :=
  match schedule with
  | [] => Some st
  | t :: rest => st' ← step createOk t st; run createOk rest st'
  end.

(** [n] packets of the flow have been taken off the queue; the table is empty. *)
Definition initial (n : nat) : State :=
  mkState (mkTable None None) (replicate n AtHandle) ∅ [] [].

(** A creation attempt is in flight from the claim of the marker until the
    marker is deleted. *)
Definition inFlight (p : point) : bool :=
  match p with
  | Creating _ | AtSet _ _ | CreatorHandle _ | AtDelete _ _ => true
  | _ => false
  end.

End Udp.

(** ** The domain trie (component/trie/domain.go) *)
Module Trie.

Definition wildcard : string := "*".
Definition dotWildcard : string := "".
Definition complexWildcard : string := "+".

Definition ErrInvalidDomain : error := "invalid domain".

(** [strings.Split(s, ".")] as its first element and the rest: the result of
    [Split] is never empty. *)
Fixpoint SplitDot (s : string) : string * list string :=
  match s with
  | EmptyString => (EmptyString, [])
  | String c rest =>
      let '(h, t) := SplitDot rest in
      if bool_decide (c = "."%char) then (EmptyString, h :: t)
      else (String c h, t)
  end.

Definition Split (s : string) : list string :=
  let '(h, t) := SplitDot s in h :: t.

(** [s[len(s)-1]] *)
Fixpoint lastByte (s : string) : option ascii :=
  match s with
  | EmptyString => None
  | String c EmptyString => Some c
  | String _ rest => lastByte rest
  end.

(** [None] is [(nil, false)]. *)
Definition ValidAndSplitDomain (domain : string) : option (list string) :=
  if bool_decide (domain <> EmptyString) && bool_decide (lastByte domain = Some "."%char)
  then None
  else
    match Split domain with
    | [] => None
    | [part] => if bool_decide (part = EmptyString) then None else Some [part]
    | first :: rest =>
        if existsb (fun part => bool_decide (part = EmptyString)) rest then None
        else Some (first :: rest)
    end.

Section WithData.

(** The type parameter of [DomainTrie[T]], its zero value [getZero[T]()] and
    its comparison. *)
Context {T : Type} (zero : T) `{EqDecision T}.

(** Modelled from the spec: the node type (trie/node.go) is not among the
    sources; as domain.go uses it through [newNode], [hasChild], [addChild],
    [getChild] and [Data], a node holds its data and a map from label to
    child node. *)
#[warnings="-register-all"]
Inductive Node : Type := mkNode {
  Data : T;
  children : gmap string Node
}.

Definition newNode (data : T) : Node := mkNode data ∅.

Definition getChild (node : Node) (s : string) : option Node := children node !! s.

(** [t.insert(parts, data)] from the node reached so far; [rparts] are the
    parts still to walk, last part of the domain first, as the loop of
    [insert] visits them. *)
Fixpoint insert_from (rparts : list string) (data : T) (node : Node) : Node :=
  match rparts with
  | [] => mkNode data (children node)
  | part :: rest =>
      let child :=
        match getChild node part with
        | Some c => c
        | None => newNode zero
        end in
      mkNode (Data node) (<[part := insert_from rest data child]> (children node))
  end.

(** A trie is its root node. *)
Definition insert (root : Node) (parts : list string) (data : T) : Node :=
  insert_from (rev parts) data root.

(** [t.Insert(domain, data)]: the trie afterwards and the error. *)
Definition Insert (root : Node) (domain : string) (data : T) : Node * option error :=
  match ValidAndSplitDomain domain with
  | None => (root, Some ErrInvalidDomain)
  | Some [] => (root, None)
  | Some (first :: rest) =>
      if bool_decide (first = complexWildcard) then
        (insert (insert root rest data) (dotWildcard :: rest) data, None)
      else (insert root (first :: rest) data, None)
  end.

(** A search result that counts: non-nil with data other than the zero value. *)
Definition found (n : option Node) : option Node :=
  match n with
  | Some n => if bool_decide (Data n <> zero) then Some n else None
  | None => None
  end.

(** [t.search(node, parts)], the parts given last part first. *)
Fixpoint search_from (rparts : list string) (node : Node) : option Node :=
  match rparts with
  | [] => Some node
  | part :: rest =>
      match found (c ← getChild node part; search_from rest c) with
      | Some n => Some n
      | None =>
          match found (c ← getChild node wildcard; search_from rest c) with
          | Some n => Some n
          | None => getChild node dotWildcard
          end
      end
  end.

Definition search (node : Node) (parts : list string) : option Node :=
  search_from (rev parts) node.

(** [t.Search(domain)]; [None] is nil. *)
Definition Search (root : Node) (domain : string) : option Node :=
  match ValidAndSplitDomain domain with
  | None => None
  | Some [] => None
  | Some (first :: rest) =>
      if bool_decide (first = EmptyString) then None
      else found (search root (first :: rest))
  end.

(** [trie.New[T]()] *)
Definition New : Node := newNode zero.

End WithData.

End Trie.

(** ** Package resolver (component/resolver/resolver.go) *)
Module HostResolver.

Definition ErrIPNotFound : error := "couldn't find ip".
Definition ErrIPVersion : error := "ip version error".
Definition ErrIPv6Disabled : error := "ipv6 disabled".

(** A returned [(netip.Addr, error)] pair; [None] is [netip.Addr{}] and nil. *)
Definition answer : Type := (Addr * option error)%type.

(** What the functions below read of a [context.Context]: whether it
    carries [firstIPKey].  Deadlines only bound the time a lookup may take. *)
Definition Context : Type := bool.

(** [context.Background()] and [context.WithValue(ctx, firstIPKey, struct{}{})] *)
Definition Background : Context := false.
Definition WithFirstIP : Context := true.

Definition ShouldRandomIP (ctx : Context) : bool := negb ctx.

(** The [Resolver] interface. *)
Record Resolver : Type := mkResolver {
  ResolveIP : Context -> string -> answer;
  ResolveIPv4 : Context -> string -> answer;
  ResolveIPv6 : Context -> string -> answer
}.

(** The package variables; [None] is a nil resolver. *)
Record Globals : Type := mkGlobals {
  DefaultResolver : option Resolver;
  ProxyServerHostResolver : option Resolver;
  DisableIPv6 : bool;
  DefaultHosts : @Trie.Node Addr
}.

(** [ip.Is4()] and [ip.Is6()] of [netip.Addr]; both are false of the zero
    address. *)
Definition Is4 (a : Addr) : bool :=
  match a with Some (IP4 _) => true | _ => false end.

Definition Is6 (a : Addr) : bool :=
  match a with Some (IP6 _) => true | _ => false end.

(** [DefaultHosts.Search(host)], then [node.Data] of a node found. *)
Definition hostsData (g : Globals) (host : string) : option Addr :=
  node ← Trie.Search None (DefaultHosts g) host; Some (Trie.Data node).

Section System.

(** [netip.ParseAddr(host)]; [None] is [err != nil]. *)
Variable ParseAddr : string -> option IP.
(** A [net.IP] and [net.DefaultResolver.LookupIP(ctx, network, host)]. *)
Variable netIP : Type.
Variable LookupIP : string -> string -> list netIP * option error.
(** [ip.To4()]: the four bytes as a number, or nil. *)
Variable To4 : netIP -> option N.
(** [nnip.IpToAddr(ip)] *)
Variable IpToAddr : netIP -> Addr.
(** [rand.Intn(n)] is [seed mod n] for some [seed]: any number below [n]. *)
Variable seed : nat.

Definition pickIndex (ctx : Context) (length : nat) : nat :=
  if (1 <? length)%nat && ShouldRandomIP ctx then (seed mod length)%nat else 0%nat.

(** The lookup through the operating system that the three functions end
    with: the address picked from a non-empty list is handed to [convert].
    [ipAddrs[index]] panics when the index is out of range; the last case
    stands for the value never read. *)
Definition systemLookup (ctx : Context) (network host : string)
  (convert : netIP -> answer) : answer :=
  let '(ipAddrs, err) := LookupIP network host in
  match err with
  | Some err => (None, Some err)
  | None =>
      if (length ipAddrs =? 0)%nat then (None, Some ErrIPNotFound)
      else match ipAddrs !! pickIndex ctx (length ipAddrs) with
           | Some ip => convert ip
           | None => (None, None)
           end
  end.

Definition ResolveIPv4WithResolver (g : Globals) (ctx : Context) (host : string)
  (r : option Resolver) : answer :=
  match (ip ← hostsData g host; if Is4 ip then Some ip else None) with
  | Some ip => (ip, None)
  | None =>
      match ParseAddr host with
      | Some ip =>
          let ip := Dns.Unmap ip in
          if Is4 (Some ip) then (Some ip, None) else (None, Some ErrIPVersion)
      | None =>
          match r with
          | Some r => ResolveIPv4 r ctx host
          | None =>
              match DefaultResolver g with
              | None =>
                  systemLookup ctx "ip4" host (fun ip =>
                    match To4 ip with
                    | None => (None, Some ErrIPVersion)
                    | Some b => (Some (IP4 b), None)
                    end)
              | Some _ => (None, Some ErrIPNotFound)
              end
          end
      end
  end.

Definition ResolveIPv6WithResolver (g : Globals) (ctx : Context) (host : string)
  (r : option Resolver) : answer :=
  if DisableIPv6 g then (None, Some ErrIPv6Disabled)
  else
    match (ip ← hostsData g host; if Is6 ip then Some ip else None) with
    | Some ip => (ip, None)
    | None =>
        match ParseAddr host with
        | Some ip =>
            if Is6 (Some ip) then (Some ip, None) else (None, Some ErrIPVersion)
        | None =>
            match r with
            | Some r => ResolveIPv6 r ctx host
            | None =>
                match DefaultResolver g with
                | None =>
                    systemLookup ctx "ip6" host (fun ip =>
                      let ip := IpToAddr ip in
                      if negb (IsValid ip) then (None, Some ErrIPNotFound)
                      else (ip, None))
                | Some _ => (None, Some ErrIPNotFound)
                end
            end
        end
    end.

Definition resolveIPv4 (g : Globals) (ctx : Context) (host : string) : answer :=
  ResolveIPv4WithResolver g ctx host (DefaultResolver g).

Definition ResolveIPWithResolver (g : Globals) (ctx : Context) (host : string)
  (r : option Resolver) : answer :=
  match hostsData g host with
  | Some ip => (ip, None)
  | None =>
      match r with
      | Some r =>
          if DisableIPv6 g then ResolveIPv4 r ctx host else ResolveIP r ctx host
      | None =>
          if DisableIPv6 g then resolveIPv4 g ctx host
          else
            match ParseAddr host with
            | Some ip => (Some ip, None)
            | None =>
                match DefaultResolver g with
                | None =>
                    systemLookup ctx "ip" host (fun ip =>
                      let ip := IpToAddr ip in
                      if negb (IsValid ip) then (None, Some ErrIPNotFound)
                      else (ip, None))
                | Some _ => (None, Some ErrIPNotFound)
                end
            end
      end
  end.

Definition resolveIP (g : Globals) (ctx : Context) (host : string) : answer :=
  ResolveIPWithResolver g ctx host (DefaultResolver g).

(** The exported entry points. *)
Definition ResolveIPv4_ (g : Globals) (host : string) : answer :=
  resolveIPv4 g Background host.

Definition ResolveIPv6_ (g : Globals) (host : string) : answer :=
  ResolveIPv6WithResolver g Background host (DefaultResolver g).

Definition ResolveIP_ (g : Globals) (host : string) : answer :=
  resolveIP g Background host.

Definition ResolveFirstIP (g : Globals) (host : string) : answer :=
  resolveIP g WithFirstIP host.

Definition ResolveIPv4ProxyServerHost (g : Globals) (host : string) : answer :=
  match ProxyServerHostResolver g with
  | Some r => ResolveIPv4WithResolver g Background host (Some r)
  | None => ResolveIPv4_ g host
  end.

Definition ResolveIPv6ProxyServerHost (g : Globals) (host : string) : answer :=
  match ProxyServerHostResolver g with
  | Some r => ResolveIPv6WithResolver g Background host (Some r)
  | None => ResolveIPv6_ g host
  end.

Definition ResolveProxyServerHost (g : Globals) (host : string) : answer :=
  match ProxyServerHostResolver g with
  | Some r => ResolveIPWithResolver g Background host (Some r)
  | None => ResolveIP_ g host
  end.

End System.

End HostResolver.

(** ** The plain DNS client (dns/client.go) *)
Module DnsClient.
Import HostResolver.

Definition errProxyNotFound : error := "proxy adapter not found".

(** The [dialer.Option] values built here. *)
Inductive dialOption : Type :=
| WithInterface (name : string)
| WithRoutingMark (mark : Z).

(** The [client] struct; [Net] is [c.Client.Net] and [None] a nil [c.r]. *)
Record client : Type := mkClient {
  Net : string;
  r : option Resolver;
  port : string;
  host : string;
  iface : string;
  proxyAdapter : string
}.

Definition set_host (c : client) (h : string) : client :=
  mkClient (Net c) (r c) (port c) h (iface c) (proxyAdapter c).

(** One call that opens a connection. *)
Inductive dial : Type :=
| DialProxy (adapterName network : string) (dstIP : Addr) (dstPort : string)
    (opts : list dialOption)
| DialDirect (network address : string) (opts : list dialOption).

(** [strings.HasSuffix] *)
Fixpoint HasSuffix (s suffix : string) : bool :=
  bool_decide (s = suffix) ||
  match s with
  | EmptyString => false
  | String _ rest => HasSuffix rest suffix
  end.

Section Exchange.

Variable ParseAddr : string -> option IP.
Variable netIP : Type.
Variable LookupIP : string -> string -> list netIP * option error.
Variable To4 : netIP -> option N.
Variable IpToAddr : netIP -> Addr.
Variable seed : nat.
(** [ip.String()] and [net.JoinHostPort] *)
Variable AddrString : Addr -> string.
Variable JoinHostPort : string -> string -> string.
(** A [net.Conn], [dialer.DialContext] and [dialContextWithProxyAdapter]. *)
Variable Conn : Type.
Variable DialContext : string -> string -> list dialOption -> Conn + error.
Variable dialContextWithProxyAdapter :
  string -> string -> Addr -> string -> list dialOption -> Conn + error.
(** [c.Client.ExchangeWithConn(m, conn)], the connection wrapped by
    [tls.Client] first when the flag is set: the message and error it
    returns. *)
Variable ExchangeWithConn : Dns.Msg -> Conn -> bool -> option Dns.Msg * option error.
(** Whether the [select] takes [<-ctx.Done()], and [ctx.Err()]. *)
Variable cancelled : bool.
Variable ctxErr : error.

(** What one exchange did: the client as left behind, the pair returned,
    the dials in order and the connections closed on return. *)
Record outcome : Type := mkOutcome {
  o_client : client;
  o_msg : option Dns.Msg;
  o_err : option error;
  o_dials : list dial;
  o_closed : list Conn
}.

(** The first block: the address of the server, with the client as left
    behind, or the error returned. *)
Definition serverIP (g : Globals) (ctx : Context) (c : client) : client * Addr + error :=
  match ParseAddr (host c) with
  | Some ip => inl (c, Some ip)
  | None =>
      match r c with
      | None => inr ("dns " +:+ host c +:+ " not a valid ip")%string
      | Some rs =>
          let '(ip, err) :=
            ResolveIPWithResolver ParseAddr netIP LookupIP To4 IpToAddr seed
              g ctx (host c) (Some rs) in
          match err with
          | Some err => inr ("use default dns resolve failed: " +:+ err)%string
          | None => inl (set_host c (AddrString ip), ip)
          end
      end
  end.

(** The dials made for a server address, and the connection or error they
    end with. *)
Definition connect (c : client) (ip : Addr) : (Conn + error) * list dial :=
  let network := if String.prefix "tcp" (Net c) then "tcp" else "udp" in
  let options :=
    if bool_decide (iface c <> EmptyString) then [WithInterface (iface c)] else [] in
  let address := JoinHostPort (AddrString ip) (port c) in
  if bool_decide (proxyAdapter c <> EmptyString) then
    let first := DialProxy (proxyAdapter c) network ip (port c) options in
    match dialContextWithProxyAdapter (proxyAdapter c) network ip (port c) options with
    | inr err =>
        if bool_decide (err = errProxyNotFound) then
          let options := [WithInterface (proxyAdapter c); WithRoutingMark 0] in
          (DialContext network address options,
           [first; DialDirect network address options])
        else (inr err, [first])
    | inl conn => (inl conn, [first])
    end
  else (DialContext network address options, [DialDirect network address options]).

(** [c.ExchangeContext(ctx, m)] *)
Definition ExchangeContext (g : Globals) (ctx : Context) (c : client) (m : Dns.Msg)
  : outcome :=
  match serverIP g ctx c with
  | inr err => mkOutcome c None (Some err) [] []
  | inl (c, ip) =>
      let '(conn, dials) := connect c ip in
      match conn with
      | inr err => mkOutcome c None (Some err) dials []
      | inl conn =>
          if cancelled then mkOutcome c None (Some ctxErr) dials [conn]
          else
            let '(msg, err) := ExchangeWithConn m conn (HasSuffix (Net c) "tls") in
            mkOutcome c msg err dials [conn]
      end
  end.

End Exchange.

Arguments mkOutcome {Conn} _ _ _ _ _.
Arguments o_client {Conn} _.
Arguments o_msg {Conn} _.
Arguments o_err {Conn} _.
Arguments o_dials {Conn} _.
Arguments o_closed {Conn} _.

End DnsClient.

(** * Vocabulary of the statements *)

Module DnsSpec.
Import Dns.

(** The first record of the first non-empty section among answer, authority
    and additional. *)
Definition firstRecord (v : Msg) : option RR :=
  head (Answer v ++ Ns v ++ Extra v).

(** The smallest TTL among the records of a section list. *)
Definition minTTL (rrs : list RR) : option Z :=
  match rrs with
  | [] => None
  | rr :: rest => Some (fold_right (fun x acc => Z.min (Ttl x) acc) (Ttl rr) rest)
  end.

(** [rrs'] is [rrs] with every TTL replaced by [ttl] and nothing else changed. *)
Definition sectionTTL (ttl : Z) (rrs rrs' : list RR) : Prop :=
  Forall2 (fun rr rr' =>
             Hdr_Name rr' = Hdr_Name rr /\ Data rr' = Data rr /\ Ttl rr' = ttl)
          rrs rrs'.

(** [v'] is a message equal to [v] except that every record of its three
    sections carries the TTL [ttl]. *)
Definition rewrittenTTL (ttl : Z) (v v' : Msg) : Prop :=
  Id v' = Id v /\ Rcode v' = Rcode v /\ Questions v' = Questions v /\
  sectionTTL ttl (Answer v) (Answer v') /\
  sectionTTL ttl (Ns v) (Ns v') /\
  sectionTTL ttl (Extra v) (Extra v').

(** *** The resolver in use

    A state of the running resolver: its world, the responses handed to
    callers so far ([s_handed], the message pointers callers hold and may
    mutate), and the results of shared flights ([s_flying], the values
    [singleflight] gives to the callers that join an execution). *)
Record sys : Type := mkSys {
  s_world : World;
  s_handed : list ptr;
  s_flying : list presult
}.

(** The message pointer a caller receives. *)
Definition handed (res : presult) : list ptr :=
  match res with POk p => [p] | PErr _ => [] end.

(** A caller can only join an execution that is shared. *)
Definition admissible (flying : list presult) (role : flight) : Prop :=
  match role with
  | Executes _ => True
  | Joins val => val ∈ flying
  end.

(** The value that the execution of a shared flight makes available to the
    callers joining it. *)
Definition published (QS : Question -> string) (w : World) (r : Resolver)
  (m : Msg) (role : flight) (net : Upstream) (clock : nat -> Z) : list presult :=
  match role, Questions m with
  | Executes true, q :: _ =>
      match exchange_fn QS w r m q net clock with
      | Some (_, val, _) => [val]
      | None => []
      end
  | _, _ => []
  end.

(** What can happen next: a call of [ExchangeContext] that hits the cache, a
    call that misses it (executing or joining a flight), a background refresh
    started by a stale hit (its result is dropped), and a caller overwriting
    a response it was handed. *)
Inductive step (QS : Question -> string) : sys -> sys -> Prop :=
| step_hit w H F r m q qs role net clock entry out :
    Questions m = q :: qs ->
    GetWithExpire (lruCache w) (QS q) = Some entry ->
    ExchangeContext QS w r m role net clock = Some out ->
    step QS (mkSys w H F) (mkSys (world out) (handed (ret out) ++ H) F)
| step_miss w H F r m q qs role net clock out :
    Questions m = q :: qs ->
    GetWithExpire (lruCache w) (QS q) = None ->
    admissible F role ->
    ExchangeContext QS w r m role net clock = Some out ->
    step QS (mkSys w H F)
         (mkSys (world out) (handed (ret out) ++ H)
                (published QS w r m role net clock ++ F))
| step_refresh w H F r m role net clock out :
    admissible F role ->
    exchangeWithoutCache QS w r m role net clock = Some out ->
    step QS (mkSys w H F)
         (mkSys (world out) H (published QS w r m role net clock ++ F))
| step_mutate w H F p v :
    p ∈ H ->
    step QS (mkSys w H F) (mkSys (mkWorld (<[p := v]> (objs w)) (lruCache w)) H F).

Inductive reachable (QS : Question -> string) : sys -> Prop :=
| reach_init : reachable QS (mkSys (mkWorld [] ∅) [] [])
| reach_step s s' : reachable QS s -> step QS s s' -> reachable QS s'.

(** What the invariant needs to know about one call: the store grew, the
    returned pointer is a new object, every cache entry is an old one or a
    new object that is not the returned one, and so is a published flight
    value. *)
Definition effect (w : World) (out : outcome) (pub : list presult) : Prop :=
  let n := length (objs w) in
  let n' := length (objs (world out)) in
  (n <= n')%nat /\
  (forall p, ret out = POk p -> (n <= p < n')%nat) /\
  (forall k cp e, lruCache (world out) !! k = Some (cp, e) ->
     lruCache w !! k = Some (cp, e) \/ ((n <= cp < n')%nat /\ ret out <> POk cp)) /\
  (forall pv, POk pv ∈ pub -> (n <= pv < n')%nat /\ ret out <> POk pv).

(** The invariant: handed-out pointers are live and pairwise distinct, and
    neither a cache entry nor a shared flight value is among them. *)
Definition Inv (s : sys) : Prop :=
  let n := length (objs (s_world s)) in
  (forall p, p ∈ s_handed s -> (p < n)%nat) /\
  NoDup (s_handed s) /\
  (forall k cp e, lruCache (s_world s) !! k = Some (cp, e) ->
     (cp < n)%nat /\ cp ∉ s_handed s) /\
  (forall p, POk p ∈ s_flying s -> (p < n)%nat /\ p ∉ s_handed s).

(** The character [c], [k] times in a row. *)
Fixpoint runOf (c : ascii) (k : nat) : string :=
  match k with
  | O => EmptyString
  | S k => String c (runOf c k)
  end.

#[global] Instance dnsClient_eq_dec : EqDecision dnsClient.
Proof. solve_decision. Defined.

(** [r.policy] held as a trie of [*Policy] values ([None] is the nil
    pointer, [Some servers] a policy whose [GetData()] is [servers]): the
    search that [matchPolicy] runs on it, [record.Data.GetData()] for the
    record found. *)
Definition policyOf (root : @Trie.Node (option (list dnsClient)))
  : DomainTrie (list dnsClient) :=
  fun domain => n ← Trie.Search None root domain; Trie.Data n.

End DnsSpec.

Module TunnelSpec.
Import Tunnel.

(** A rule yields a usable outbound for the metadata it is matched against:
    it matches, its outbound is in the proxy set, and for a UDP flow the
    outbound supports UDP. *)
Definition usable (proxies : gmap string Proxy) (rule : Rule) (md : Metadata) : Prop :=
  Match rule md = true /\
  exists adapter, proxies !! Adapter rule = Some adapter /\
                  (MNetWork md = UDP -> SupportUDP adapter = true).

(** The rules evaluated in a trace, each with the metadata it was matched
    against. *)
Fixpoint seenOf (tr : list event) : list (Rule * Metadata) :=
  match tr with
  | [] => []
  | EvMatch rule md _ :: rest => (rule, md) :: seenOf rest
  | _ :: rest => seenOf rest
  end.

Definition isResolve (e : event) : bool :=
  match e with EvResolveIP _ _ _ => true | _ => false end.

Definition isFindProcess (e : event) : bool :=
  match e with EvFindProcess _ _ _ _ _ => true | _ => false end.

(** No IP resolution occurs in the trace. *)
Definition noResolve (tr : list event) : Prop :=
  Forall (fun e => isResolve e = false) tr.

(** No process lookup occurs in the trace. *)
Definition noFindProcess (tr : list event) : Prop :=
  Forall (fun e => isFindProcess e = false) tr.

(** Every rule evaluation of the trace satisfies [P]. *)
Definition allMatches (P : Rule -> Metadata -> Prop) (tr : list event) : Prop :=
  Forall (fun rm => P (fst rm) (snd rm)) (seenOf tr).

(** The destination a resolution leaves behind: the address on success, the
    unset address on failure. *)
Definition resolvedIP (res : Addr + error) : Addr :=
  match res with inl ip => ip | inr _ => None end.

(** The next rule evaluated in the trace is [rule]. *)
Definition nextMatchIs (rule : Rule) (tr : list event) : Prop :=
  exists md rest, seenOf tr = (rule, md) :: rest.


(** The process fields a lookup leaves behind: the found process on success,
    those of [md0] on failure. *)
Definition processLeft (Base : string -> string) (md0 : Metadata)
  (res : string + error) (md : Metadata) : Prop :=
  match res with
  | inl path => Process md = Base path /\ ProcessPath md = path
  | inr _ => Process md = Process md0 /\ ProcessPath md = ProcessPath md0
  end.

(** Traces of a pass that has not resolved yet: rules evaluated before the
    resolution do not ask for one, and the resolution, if it comes, is the
    only one, precedes the evaluation of the rule that asked for it and
    fixes the destination seen from then on. *)
Fixpoint resolvePhase (ResolveIP : string -> Addr + error) (h0 : string)
  (d0 : Addr) (tr : list event) : Prop :=
  match tr with
  | [] => True
  | EvResolveIP rule host res :: t2 =>
      ShouldResolveIP rule = true /\ host = h0 /\ host <> EmptyString /\
      d0 = None /\ res = ResolveIP host /\
      noResolve t2 /\ nextMatchIs rule t2 /\
      allMatches (fun _ md => DstIP md = resolvedIP res) t2
  | EvMatch r md _ :: t =>
      shouldResolveIP r md = false /\ resolvePhase ResolveIP h0 d0 t
  | EvFindProcess _ _ _ _ _ :: t => resolvePhase ResolveIP h0 d0 t
  end.

(** Traces of a pass that has not looked for the process yet. *)
Fixpoint processPhase (FindProcessName : string -> Addr -> Z -> string + error)
  (Base : string -> string) (md0 : Metadata) (tr : list event) : Prop :=
  match tr with
  | [] => True
  | EvFindProcess rule network srcIP srcPort res :: t2 =>
      ShouldFindProcess rule = true /\
      network = NetWork_String (MNetWork md0) /\ srcIP = SrcIP md0 /\
      ParseUint16 (SrcPort md0) = Some srcPort /\
      res = FindProcessName network srcIP srcPort /\
      noFindProcess t2 /\ nextMatchIs rule t2 /\
      allMatches (fun _ md => processLeft Base md0 res md) t2
  | EvMatch r md _ :: t =>
      ShouldFindProcess r = false /\ processPhase FindProcessName Base md0 t
  | EvResolveIP _ _ _ :: t => processPhase FindProcessName Base md0 t
  end.

(** The trace holds process lookups only. *)
Definition onlyFinds (tr : list event) : Prop :=
  Forall (fun e => isFindProcess e = true) tr.

(** The trace holds resolutions only. *)
Definition onlyResolves (tr : list event) : Prop :=
  Forall (fun e => isResolve e = true) tr.

(** The fields a process lookup reads are those of [md0]. *)
Definition sameSource (md0 md : Metadata) : Prop :=
  MNetWork md = MNetWork md0 /\ SrcIP md = SrcIP md0 /\ SrcPort md = SrcPort md0.

(** The process fields are those of [md0]. *)
Definition sameProcess (md0 md : Metadata) : Prop :=
  Process md = Process md0 /\ ProcessPath md = ProcessPath md0.

(** The fields of a flow that identify it and that [match] only reads. *)
Definition sameFlow (md0 md : Metadata) : Prop :=
  MNetWork md = MNetWork md0 /\ SrcIP md = SrcIP md0 /\ SrcPort md = SrcPort md0 /\
  DstPort md = DstPort md0 /\ Host md = Host md0 /\ MDNSMode md = MDNSMode md0.

(** A pass in which no rule can ask for a resolution any more, its
    destination being [d0]. *)
Definition settled (d0 : Addr) (st : pass) : Prop :=
  (p_resolved st = true \/ IsValid (DstIP (p_metadata st)) = true \/
   Host (p_metadata st) = EmptyString) /\
  DstIP (p_metadata st) = d0.

(** The metadata that a pass of [match] on [md0] holds once the lazy steps
    of the rules [pre] have run, told from the flow and those rules alone.
    The destination IP is the address of the hosts entry of the host if
    there is one; otherwise, if one of the rules asks for the IP while the
    host is set and the flow has no valid destination IP, it is what
    resolving the host gave; otherwise it is the flow's own.  The process
    fields are those found for the source of the flow if one of the rules
    asks for the process and the lookup succeeds, and otherwise the flow's
    own.  No other field changes. *)
Definition mdAfter (hosts : DomainTrie Addr) (ResolveIP : string -> Addr + error)
  (FindProcessName : string -> Addr -> Z -> string + error) (Base : string -> string)
  (pre : list Rule) (md0 : Metadata) : Metadata :=
  let dst :=
    match Search hosts (Host md0) with
    | Some data => data
    | None =>
        if existsb ShouldResolveIP pre
           && negb (bool_decide (Host md0 = EmptyString))
           && negb (IsValid (DstIP md0))
        then resolvedIP (ResolveIP (Host md0))
        else DstIP md0
    end in
  let found : option string :=
    if existsb ShouldFindProcess pre then
      match ParseUint16 (SrcPort md0) with
      | Some srcPort =>
          match FindProcessName (NetWork_String (MNetWork md0)) (SrcIP md0) srcPort with
          | inl path => Some path
          | inr _ => None
          end
      | None => None
      end
    else None in
  mkMetadata (MNetWork md0) (SrcIP md0) dst (SrcPort md0) (DstPort md0) (Host md0)
             (MDNSMode md0)
             (match found with Some path => Base path | None => Process md0 end)
             (match found with Some path => path | None => ProcessPath md0 end).

(** The loop state of a pass of [match] on [md0] that has run the lazy steps
    of the rules [pre]; the trace is left open. *)
Definition passAfter (hosts : DomainTrie Addr) (ResolveIP : string -> Addr + error)
  (FindProcessName : string -> Addr -> Z -> string + error) (Base : string -> string)
  (md0 : Metadata) (pre : list Rule) (st : pass) : Prop :=
  p_metadata st = mdAfter hosts ResolveIP FindProcessName Base pre md0 /\
  p_resolved st
  = (bool_decide (is_Some (Search hosts (Host md0)))
     || existsb ShouldResolveIP pre
        && negb (bool_decide (Host md0 = EmptyString))
        && negb (IsValid (DstIP md0))) /\
  p_processFound st = existsb ShouldFindProcess pre.

(** The fields that the mapping step of [preHandleMetadata] leaves alone:
    all but the host, the destination IP and the DNS mode. *)
Definition sameButTarget (md0 md : Metadata) : Prop :=
  MNetWork md = MNetWork md0 /\ SrcIP md = SrcIP md0 /\ SrcPort md = SrcPort md0 /\
  DstPort md = DstPort md0 /\ Process md = Process md0 /\
  ProcessPath md = ProcessPath md0.

End TunnelSpec.

Module UdpSpec.
Import Udp.

(** Two packets of one flow, both creation attempts succeeding. *)
Definition bothOk (t : nat) : bool := true.

(** Packet 1 looks the session up before packet 0 has installed it, and
    asks for the marker after packet 0 has deleted it. *)
Definition scheduleTwoCreations : list nat :=
  [0; 1; 0; 0; 0; 0; 0; 0; 1; 1; 1; 1; 1; 1]%nat.

(** Packet 1 finds the marker claimed, but its goroutine reaches
    [cond.Wait()] only after packet 0 has broadcast. *)
Definition scheduleLostWakeup : list nat :=
  [0; 1; 0; 1; 0; 0; 0; 0; 0; 1; 1]%nat.

(** What holds on every interleaving: a thread whose creation attempt is in
    flight owns the marker in the table. *)
Definition markerOwned (st : State) : Prop :=
  forall t p, threads st !! t = Some p -> inFlight p = true ->
              t_lock (table st) = Some t.

(** The session a thread holds at its place in the code, if any: the one
    it is about to install, or the one its packet was written to. *)
Definition sessionOf (p : point) : option session :=
  match p with
  | AtSet _ s => Some s
  | WaiterUnlock _ sent | AtDelete _ sent | AtBroadcast _ sent | Done sent => sent
  | _ => None
  end.

(** Every session in the table or held by a thread is one that a creation
    attempt returned. *)
Definition sessionsCreated (st : State) : Prop :=
  (forall s, t_session (table st) = Some s -> s ∈ created st) /\
  (forall t p s, threads st !! t = Some p -> sessionOf p = Some s -> s ∈ created st).

(** The packets handled one after the other: packet 0 runs its handler and
    its goroutine to the end (seven steps when the creation succeeds), then
    each of the next [n] packets runs its handler. *)
Definition scheduleInTurn (n : nat) : list nat :=
  replicate 7 0%nat ++ seq 1 n.

(** Packet 0 up to the end of its goroutine when its creation attempt fails
    (five steps), then packet 1 to the end of its own (seven steps). *)
Definition scheduleRetry : list nat :=
  replicate 5 0%nat ++ replicate 7 1%nat.

(** The creation attempt of packet 0 fails, every other one succeeds. *)
Definition firstFails (t : nat) : bool := negb (t =? 0)%nat.

End UdpSpec.

Module TrieSpec.
Import Trie.

Section WithData.

Context {T : Type} (zero : T) `{EqDecision T}.

(** The node under the exact labels, if that path exists. *)
Fixpoint at_path (rparts : list string) (node : @Node T) : option (@Node T) :=
  match rparts with
  | [] => Some node
  | part :: rest => c ← getChild node part; at_path rest c
  end.

(** A run of [Insert] calls, in order; the errors are dropped as
    [NewResolver] drops them. *)
Definition Inserts (root : @Node T) (entries : list (string * T)) : @Node T :=
  fold_left (fun t e => (Insert zero t e.1 e.2).1) entries root.

(** A label that stands for itself in a pattern. *)
Definition plain (label : string) : Prop :=
  label <> dotWildcard /\ label <> wildcard.

End WithData.

End TrieSpec.

Module HostResolverSpec.
Import HostResolver.

(** A [(netip.Addr, error)] pair from a result that is one or the other. *)
Definition answerOf (x : Addr + error) : answer :=
  match x with
  | inl ip => (ip, None)
  | inr err => (None, Some err)
  end.

Section Impl.

Variable ParseAddr : string -> option IP.
Variable Fqdn : string -> string.
Variable exchange : Dns.Msg -> Dns.Msg + error.
(** The [dns.Id()] and the [rand.Intn] seed of the lookup of each record
    type. *)
Variable newId : Z -> Z.
Variable seed : Z -> nat.

(** One lookup of [*dns.Resolver] under a context. *)
Definition lookup (ctx : Context) (host : string) (dnsType : Z) : Addr + error :=
  (Dns.resolveIP ParseAddr Fqdn exchange (newId dnsType) (ShouldRandomIP ctx)
     (seed dnsType) host dnsType).1.

(** [*dns.Resolver] as the [resolver.Resolver] it is declared to be. *)
Definition dnsResolver : Resolver :=
  mkResolver
    (fun ctx host =>
       let res := Dns.ResolveIP (lookup ctx) host in (Dns.r_ip res, Dns.r_err res))
    (fun ctx host => answerOf (lookup ctx host Dns.TypeA))
    (fun ctx host => answerOf (lookup ctx host Dns.TypeAAAA)).

End Impl.

End HostResolverSpec.

Module DnsClientSpec.
Import DnsClient.

(** The dial is for the server address [ip] and port [dstPort]. *)
Definition dialsTo (AddrString : Addr -> string) (JoinHostPort : string -> string -> string)
  (ip : Addr) (dstPort : string) (d : dial) : Prop :=
  match d with
  | DialProxy _ _ dst p _ => dst = ip /\ p = dstPort
  | DialDirect _ address _ => address = JoinHostPort (AddrString ip) dstPort
  end.

End DnsClientSpec.

(** * Concrete inputs used by the examples *)

Module DnsExamples.
Import Dns DnsSpec.

Definition exQuestion : Question := mkQuestion "example.com." TypeA ClassINET.

Definition exQuery : Msg := mkMsg 7 0 [exQuestion] [] [] [].

Definition exMain : dnsClient := client "udp" "223.5.5.5" "53".

Definition exFallback : dnsClient := client "tls" "8.8.8.8" "853".

(** A fallback-IP filter flagging the single address 10.0.0.1. *)
Definition exFilter (a : Addr) : bool := bool_decide (a = Some (IP4 167772161)).

Definition exResolver : Resolver :=
  mkResolver false (fun _ => None) [exMain] (Some [exFallback]) [] [exFilter] None [].

Definition exAnswer (ip : N) (ttl : Z) : Msg :=
  mkMsg 0 0 [exQuestion] [mkRR "example.com." ttl (RA (Some (IP4 ip)))] [] [].

(** The main group answers with a clean address. *)
Definition netClean : Upstream :=
  fun n _ _ =>
    match n with
    | O => Ok (exAnswer 16843009 300)
    | _ => Ok (exAnswer 134744072 60)
    end.

(** The main group fails; the fallback group answers. *)
Definition netMainFails : Upstream :=
  fun n _ _ =>
    match n with
    | O => Err "i/o timeout"
    | _ => Ok (exAnswer 134744072 60)
    end.


(** A stand-in for [q.String()]. *)
Definition exQS (q : Question) : string := Name q.

Definition emptyWorld : World := mkWorld [] ∅.

(** A clock that advances by a second at each reading. *)
Definition exClock (n : nat) : Z := (1700000000 * Second + Z.of_nat n * Second)%Z.

(** An answer whose two records carry different TTLs: 300 then 60. *)
Definition exAnswerTwoTTL : Msg :=
  mkMsg 0 0 [exQuestion]
        [mkRR "example.com." 300 (RA (Some (IP4 16843009)));
         mkRR "example.com." 60 (RA (Some (IP4 16843010)))] [] [].

Definition netTwoTTL : Upstream := fun _ _ _ => Ok exAnswerTwoTTL.

(** A world whose cache holds one answer for [exQuestion], expiring 300 s
    after [exClock 0]. *)
Definition cachedWorld : World :=
  mkWorld [exAnswer 16843009 300]
          {[ exQS exQuestion := (0%nat, (exClock 0 + 300 * Second)%Z) ]}.

(** Readings taken 100 s and 101 s after [exClock 0]. *)
Definition hitClock (n : nat) : Z := exClock (100 + n).

(** A toy wire format: the ID followed by the response code. *)
Definition exPack (v : Msg) : list Z + error := inl [Id v; Rcode v].

Definition exUnpack (buf : list Z) : Msg * option error :=
  match buf with
  | [id; rcode] => (mkMsg id rcode [exQuestion] [] [] [], None)
  | _ => (zeroMsg, Some "dns: overflow unpacking uint16")
  end.

(** A server that answers every request with the bytes it received. *)
Definition exDo (body : list Z) : list Z + error := inl body.

(** The state of the resolver after one caller's exchange missed the cache. *)
Definition exSys : sys :=
  match ExchangeContext exQS emptyWorld exResolver exQuery (Executes false)
          netClean exClock with
  | Some out =>
      mkSys (world out) (handed (ret out) ++ [])
            (published exQS emptyWorld exResolver exQuery (Executes false)
               netClean exClock ++ [])
  | None => mkSys emptyWorld [] []
  end.
(** A resolver with a name-server policy for [example.com] and a fallback
    domain filter flagging [blocked.test]. *)
Definition exPolicyServer : dnsClient := dohClient "https://doh.example/dns-query".

Definition exFilteredResolver : Resolver :=
  mkResolver false (fun _ => None) [exMain] (Some [exFallback])
             [fun domain => bool_decide (domain = "blocked.test")] [exFilter]
             (Some (fun domain =>
                      if bool_decide (domain = "example.com") then Some [exPolicyServer]
                      else None))
             [].

Definition exBlockedQuery (qtype : Z) : Msg :=
  mkMsg 9 0 [mkQuestion "blocked.test." qtype ClassINET] [] [] [].

End DnsExamples.

Module TunnelExamples.
Import Tunnel.

Definition exMetadata (network : NetWork) (host : string) : Metadata :=
  mkMetadata network (Some (IP4 3232235777)) None "50000" "443" host
             DNSNormal EmptyString EmptyString.

(** DOMAIN,example.com,P1 *)
Definition ruleDomain : Rule :=
  mkRule 0 (fun md => bool_decide (Host md = "example.com")) "P1" "example.com"
         false false.

(** IP-CIDR,10.0.0.1/32,P2 : needs the destination IP. *)
Definition ruleIPCIDR : Rule :=
  mkRule 5 (fun md => bool_decide (DstIP md = Some (IP4 167772161))) "P2"
         "10.0.0.1/32" true false.

(** PROCESS-NAME,curl,P1 : needs the process. *)
Definition ruleProcess : Rule :=
  mkRule 9 (fun md => bool_decide (Process md = "curl")) "P1" "curl" false true.

(** MATCH,DIRECT *)
Definition ruleMatch : Rule :=
  mkRule 13 (fun _ => true) "DIRECT" EmptyString false false.

Definition exProxies : gmap string Proxy :=
  {[ "P1" := mkProxy "P1" false;
     "P2" := mkProxy "P2" true;
     "DIRECT" := mkProxy "DIRECT" true;
     "REJECT" := mkProxy "REJECT" true ]}.

(** The proxy set of [exProxies] without P1. *)
Definition exProxiesNoP1 : gmap string Proxy :=
  {[ "P2" := mkProxy "P2" true;
     "DIRECT" := mkProxy "DIRECT" true;
     "REJECT" := mkProxy "REJECT" true ]}.

Definition noHosts : DomainTrie Addr := fun _ => None.

(** A resolver that knows one name. *)
Definition exResolveIP (host : string) : Addr + error :=
  if bool_decide (host = "ten.example") then inl (Some (IP4 167772161))
  else inr "couldn't find ip".

Definition exFindProcessName (network : string) (srcIP : Addr) (srcPort : Z)
  : string + error :=
  if (srcPort =? 50000)%Z then inl "/usr/bin/curl" else inr "process not found".

(** [filepath.Base] on the paths of the examples. *)
Definition exBase (path : string) : string :=
  if bool_decide (path = "/usr/bin/curl") then "curl" else path.

Definition exMatch (rules : list Rule) (proxies : gmap string Proxy)
  (md : Metadata) :=
  match_ rules proxies noHosts exResolveIP exFindProcessName exBase md.

(** A hosts table with one entry: ten.example is 10.0.0.2. *)
Definition exHosts : DomainTrie Addr :=
  fun host => if bool_decide (host = "ten.example") then Some (Some (IP4 167772162))
              else None.

End TunnelExamples.

Module ResolveExamples.
Import HostResolver.

(** A parser knowing three literals: 1.2.3.4, ::1 and ::ffff:1.2.3.4. *)
Definition exParseAddr (host : string) : option IP :=
  if bool_decide (host = "1.2.3.4") then Some (IP4 16909060)
  else if bool_decide (host = "::1") then Some (IP6 1)
  else if bool_decide (host = "::ffff:1.2.3.4") then Some (IP6 281470698652420)
  else None.

Definition exFqdn (host : string) : string := (host +:+ ".")%string.

(** An exchange that answers every query with 1.1.1.1 and 1.1.1.2. *)
Definition exExchange (query : Dns.Msg) : Dns.Msg + error :=
  inl (Dns.mkMsg (Dns.Id query) 0 (Dns.Questions query)
         [Dns.mkRR "example.com." 300 (Dns.RA (Some (IP4 16843009)));
          Dns.mkRR "example.com." 300 (Dns.RA (Some (IP4 16843010)))] [] []).

(** A system resolver that finds nothing; its addresses are numbers. *)
Definition exLookupIP (network host : string) : list N * option error := ([], None).

Definition exTo4 (ip : N) : option N := Some ip.

Definition exIpToAddr (ip : N) : Addr := Some (IP4 ip).

(** No resolver, IPv6 disabled (the default), and one hosts entry. *)
Definition exGlobals : Globals :=
  mkGlobals None None true
    (Trie.Insert None (Trie.New None) "router.lan" (Some (IP4 3232235777))).1.

(** The same with two names inserted after the entry of router.lan. *)
Definition exGlobalsLater : Globals :=
  mkGlobals None None true
    (TrieSpec.Inserts None
       (Trie.Insert None (Trie.New None) "router.lan" (Some (IP4 3232235777))).1
       [("*.lan", Some (IP4 167772161)); ("+.example.org", Some (IP4 16843009))]).

End ResolveExamples.

Module DnsClientExamples.
Import HostResolver DnsClient ResolveExamples.

Definition exAddrString (a : Addr) : string :=
  match a with
  | Some (IP4 16909060) => "1.2.3.4"
  | Some (IP4 3232235777) => "192.168.0.1"
  | _ => "invalid IP"
  end.

Definition exJoinHostPort (h p : string) : string := (h +:+ ":" +:+ p)%string.

(** Connections are numbered; every direct dial succeeds, and no proxy is
    known. *)
Definition exDialContext (network address : string) (opts : list dialOption)
  : nat + error := inl 1%nat.

Definition exDialProxy (adapterName network : string) (ip : Addr) (dstPort : string)
  (opts : list dialOption) : nat + error := inr errProxyNotFound.

Definition exExchangeWithConn (m : Dns.Msg) (conn : nat) (tls : bool)
  : option Dns.Msg * option error := (Some m, None).

(** A resolver that is never the one to answer in the examples. *)
Definition exNoResolver : Resolver :=
  mkResolver (fun _ _ => (None, Some ErrIPNotFound))
             (fun _ _ => (None, Some ErrIPNotFound))
             (fun _ _ => (None, Some ErrIPNotFound)).

(** A name server given by name, reached over TCP with TLS. *)
Definition exClientByName : client :=
  mkClient "tcp-tls" (Some exNoResolver) "853" "router.lan" "eth0" EmptyString.

(** A name server given by address, to be reached through "wg0". *)
Definition exClientByProxy : client :=
  mkClient "udp" None "53" "1.2.3.4" "eth0" "wg0".

End DnsClientExamples.

(** * Theorems *)

Module DnsProofs.
Import Dns DnsSpec DnsExamples.

Lemma shouldIPFallback_loop_false (filters : list (Addr -> bool)) (ip : Addr) :
  shouldIPFallback_loop filters ip = false <->
  Forall (fun f => f ip = false) filters.
Proof.
  induction filters as [|f fs IH]; simpl.
  - split; [constructor | reflexivity].
  - destruct (f ip) eqn:Hf.
    + split; [discriminate | inversion 1; congruence].
    + rewrite IH. split; [by constructor | by inversion 1].
Qed.

Lemma shouldIPFallback_loop_true (filters : list (Addr -> bool)) (ip : Addr) :
  shouldIPFallback_loop filters ip = true <->
  Exists (fun f => f ip = true) filters.
Proof.
  induction filters as [|f fs IH]; simpl.
  - split; [discriminate | inversion 1].
  - destruct (f ip) eqn:Hf.
    + split; [by left | reflexivity].
    + rewrite IH. split; [by right | inversion 1; [congruence | done]].
Qed.

(** The shape of [ipExchange] once policy and fallback-only routing are out
    of the way and a fallback group exists. *)
Lemma ipExchange_racing (r : Resolver) (m : Msg) (fb : list dnsClient) :
  matchPolicy r m = [] ->
  shouldOnlyQueryFallback r m = false ->
  fallback r = Some fb -> fb <> [] ->
  ipExchange r m =
    asyncExchange (main r) m (fun res =>
      match res with
      | Ok msg =>
          match msgToIP msg with
          | ip0 :: _ =>
              if negb (shouldIPFallback r ip0) then Ret res
              else asyncExchange fb m Ret
          | [] => asyncExchange fb m Ret
          end
      | Err _ => asyncExchange fb m Ret
      end).
Proof.
  intros Hpol Honly Hfb Hne. unfold ipExchange.
  rewrite Hpol, Honly, Hfb. simpl.
  destruct fb as [|c fb']; [done|]. reflexivity.
Qed.

(** C1 (amended): with a fallback group configured and neither a policy nor a
    fallback-only domain filter matching, the main group is queried first.
    If it answers and its first resolved IP matches no fallback-IP filter,
    that answer is returned and the fallback group is not queried.  If it
    answers with a first resolved IP that matches a fallback-IP filter, or
    answers without any address record, or fails, the fallback group is
    queried next and its result is returned in place of the main one. *)
Theorem ipExchange_fallback_decision
  (r : Resolver) (m : Msg) (net : Upstream) (fb : list dnsClient) :
  matchPolicy r m = [] ->
  shouldOnlyQueryFallback r m = false ->
  fallback r = Some fb -> fb <> [] ->
  let res := net 0%nat (main r) m in
  let both := (net 1%nat fb m, [(main r, m); (fb, m)]) in
  (forall msg ip ips,
     res = Ok msg -> msgToIP msg = ip :: ips ->
     Forall (fun f => f ip = false) (fallbackIPFilters r) ->
     run net (ipExchange r m) = (res, [(main r, m)])) /\
  (forall msg ip ips,
     res = Ok msg -> msgToIP msg = ip :: ips ->
     Exists (fun f => f ip = true) (fallbackIPFilters r) ->
     run net (ipExchange r m) = both) /\
  (forall msg,
     res = Ok msg -> msgToIP msg = [] ->
     run net (ipExchange r m) = both) /\
  (forall e,
     res = Err e ->
     run net (ipExchange r m) = both).
Proof.
  intros Hpol Honly Hfb Hne res both.
  rewrite (ipExchange_racing r m fb Hpol Honly Hfb Hne).
  unfold run, asyncExchange. cbn [run_from]. fold res.
  repeat split.
  - intros msg ip ips Hres Hips Hall. rewrite Hres, Hips.
    apply shouldIPFallback_loop_false in Hall.
    unfold shouldIPFallback. rewrite Hall. simpl. by rewrite <- Hres.
  - intros msg ip ips Hres Hips Hex. rewrite Hres, Hips.
    apply shouldIPFallback_loop_true in Hex.
    unfold shouldIPFallback. rewrite Hex. reflexivity.
  - intros msg Hres Hips. rewrite Hres, Hips. reflexivity.
  - intros e Hres. rewrite Hres. reflexivity.
Qed.


Lemma ipExchange_fallback_decision_witness :
  run netClean (ipExchange exResolver exQuery)
  = (Ok (exAnswer 16843009 300), [([exMain], exQuery)]).
Proof.
  eapply (proj1 (ipExchange_fallback_decision exResolver exQuery netClean
                   [exFallback] eq_refl eq_refl eq_refl _)).
  - reflexivity.
  - reflexivity.
  - repeat constructor.
  Unshelve. discriminate.
Defined.

(** C1 as stated fails: when the main group errors, its error is not returned
    "immediately without consulting the fallback group"; the fallback group
    is queried and its answer is what the caller gets. *)
Lemma ipExchange_main_error_counterexample :
  matchPolicy exResolver exQuery = [] /\
  shouldOnlyQueryFallback exResolver exQuery = false /\
  fallback exResolver = Some [exFallback] /\
  netMainFails 0%nat (main exResolver) exQuery = Err "i/o timeout" /\
  run netMainFails (ipExchange exResolver exQuery)
  = (Ok (exAnswer 134744072 60), [([exMain], exQuery); ([exFallback], exQuery)]) /\
  run netMainFails (ipExchange exResolver exQuery)
  <> (Err "i/o timeout", [([exMain], exQuery)]).
Proof. repeat split; try reflexivity. discriminate. Qed.

(** ** Message objects *)

Lemma alloc_lookup_new (s : store) (v : Msg) :
  (s ++ [v]) !! length s = Some v.
Proof. by apply list_lookup_middle. Qed.

Lemma alloc_lookup_old (s : store) (v : Msg) (p : ptr) (x : Msg) :
  s !! p = Some x -> (s ++ [v]) !! p = Some x.
Proof. intros H. by apply lookup_app_l_Some. Qed.

Lemma sectionTTL_map (ttl : Z) (rrs : list RR) :
  sectionTTL ttl rrs (map (withTtl ttl) rrs).
Proof.
  unfold sectionTTL. induction rrs as [|rr rrs IH]; simpl; constructor; auto.
Qed.

Lemma rewrittenTTL_withMsgTTL (ttl : Z) (v : Msg) :
  rewrittenTTL ttl v (withMsgTTL v ttl).
Proof.
  unfold rewrittenTTL, withMsgTTL; simpl.
  repeat split; apply sectionTTL_map.
Qed.

(** [putMsgToCache] on an existing object, in terms of [firstRecord]. *)
Lemma putMsgToCache_spec (w : World) (key : string) (msg : ptr) (now : Z) (v : Msg) :
  objs w !! msg = Some v ->
  putMsgToCache w key msg now =
    match firstRecord v with
    | Some rr =>
        Some (mkWorld (objs w ++ [v])
                (<[key := (length (objs w), (now + Second * Ttl rr)%Z)]> (lruCache w)))
    | None => Some w
    end.
Proof.
  intros Hv. unfold putMsgToCache, firstRecord, Copy, alloc, SetWithExpire.
  rewrite Hv. simpl.
  destruct (Answer v) as [|a ?]; simpl; [|done].
  destruct (Ns v) as [|n ?]; simpl; [|done].
  destruct (Extra v) as [|e ?]; simpl; done.
Qed.

(** C2 (amended): when a successful exchange result is written to the DNS
    cache, the entry holds a new copy of the response and its absolute expiry
    is the write time plus the TTL of the first record of the first non-empty
    section among answer/authority/additional; if all three sections are
    empty nothing is cached and the cache is left unchanged. *)
Theorem exchangeWithoutCache_cache_write
  (QS : Question -> string) (w : World) (r : Resolver) (m : Msg)
  (q : Question) (qs : list Question) (shared : bool)
  (net : Upstream) (clock : nat -> Z) (v : Msg) (log : list query) :
  Questions m = q :: qs ->
  run net (exchange_upstream r m q) = (Ok v, log) ->
  exists out,
    exchangeWithoutCache QS w r m (Executes shared) net clock = Some out /\
    match firstRecord v with
    | Some rr =>
        exists cp,
          lruCache (world out)
          = <[QS q := (cp, (clock 0%nat + Second * Ttl rr)%Z)]> (lruCache w) /\
          objs (world out) !! cp = Some v /\
          (length (objs w) <= cp)%nat /\
          ret out <> POk cp
    | None => lruCache (world out) = lruCache w
    end.
Proof.
  intros Hq Hrun. unfold exchangeWithoutCache, exchange_fn. rewrite Hq, Hrun.
  unfold alloc.
  rewrite (putMsgToCache_spec _ _ _ _ v) by apply alloc_lookup_new.
  cbn [objs lruCache].
  destruct (firstRecord v) as [rr|]; simpl.
  - destruct shared; simpl; unfold Copy, alloc; simpl.
    + rewrite (alloc_lookup_old _ _ _ v) by apply alloc_lookup_new. simpl.
      eexists; split; [reflexivity|]. simpl.
      exists (length (objs w ++ [v])). repeat split.
      * apply alloc_lookup_old, alloc_lookup_new.
      * rewrite length_app; simpl; lia.
      * rewrite !length_app; simpl. intros [=]. lia.
    + eexists; split; [reflexivity|]. simpl.
      exists (length (objs w ++ [v])). repeat split.
      * apply alloc_lookup_new.
      * rewrite length_app; simpl; lia.
      * rewrite !length_app; simpl. intros [=]. lia.
  - destruct shared; simpl; unfold Copy, alloc; simpl.
    + rewrite alloc_lookup_new. simpl.
      eexists; split; reflexivity.
    + eexists; split; reflexivity.
Qed.

Lemma exchangeWithoutCache_cache_write_witness :
  exists out,
    exchangeWithoutCache exQS emptyWorld exResolver exQuery (Executes false)
      netClean exClock = Some out /\
    match firstRecord (exAnswer 16843009 300) with
    | Some rr =>
        exists cp,
          lruCache (world out)
          = <[exQS exQuestion := (cp, (exClock 0%nat + Second * Ttl rr)%Z)]>
              (lruCache emptyWorld) /\
          objs (world out) !! cp = Some (exAnswer 16843009 300) /\
          (length (objs emptyWorld) <= cp)%nat /\
          ret out <> POk cp
    | None => lruCache (world out) = lruCache emptyWorld
    end.
Proof.
  exact (exchangeWithoutCache_cache_write exQS emptyWorld exResolver exQuery
           exQuestion [] false netClean exClock (exAnswer 16843009 300)
           [([exMain], exQuery)] eq_refl eq_refl).
Defined.

(** C2 as stated fails: for a response whose first answer record has TTL 300
    and whose second has TTL 60, the entry expires 300 seconds after the
    write, not after the minimum TTL of 60. *)
Lemma cache_expiry_minimum_ttl_counterexample :
  minTTL (Answer exAnswerTwoTTL ++ Ns exAnswerTwoTTL ++ Extra exAnswerTwoTTL)
  = Some 60%Z /\
  exists out,
    exchangeWithoutCache exQS emptyWorld exResolver exQuery (Executes false)
      netTwoTTL exClock = Some out /\
    lruCache (world out) !! exQS exQuestion
    = Some (1%nat, (exClock 0%nat + Second * 300)%Z) /\
    (exClock 0%nat + Second * 300 <> exClock 0%nat + Second * 60)%Z.
Proof.
  split; [reflexivity|].
  eexists; split; [reflexivity|]. split.
  - cbn [world lruCache objs]. unfold SetWithExpire.
    rewrite lookup_insert_eq. reflexivity.
  - unfold Second. lia.
Qed.

Lemma secondsU32_whole (d : Z) :
  (0 <= d < 8388608 * Second)%Z -> secondsU32 d = (d / Second)%Z.
Proof.
  intros [Hlo Hhi]. unfold secondsU32.
  rewrite Z.quot_div_nonneg by (unfold Second; lia).
  apply Z.mod_small. split.
  - apply Z.div_pos; unfold Second; lia.
  - apply Z.div_lt_upper_bound; unfold Second in *; lia.
Qed.

(** C3: for a cached question, an exchange that hits the cache before expiry
    returns a new copy of the cached response with every record's TTL set to
    the whole seconds remaining until expiry; one that hits it past expiry
    returns a new copy with every record's TTL set to 1 and starts exactly
    one background [exchangeWithoutCache]; in both cases the caller waits for
    no group query, and the cached object and the cache are left as they
    were. *)
Theorem ExchangeContext_cache_hit
  (QS : Question -> string) (w : World) (r : Resolver) (m : Msg)
  (q : Question) (qs : list Question) (role : flight)
  (net : Upstream) (clock : nat -> Z)
  (cacheM : ptr) (expireTime : Z) (cached : Msg) :
  Questions m = q :: qs ->
  lruCache w !! QS q = Some (cacheM, expireTime) ->
  objs w !! cacheM = Some cached ->
  exists out msg v',
    ExchangeContext QS w r m role net clock = Some out /\
    ret out = POk msg /\
    msg = length (objs w) /\
    objs (world out) !! msg = Some v' /\
    objs (world out) !! cacheM = Some cached /\
    lruCache (world out) = lruCache w /\
    queries out = [] /\
    ((expireTime < clock 0%nat)%Z ->
       rewrittenTTL 1 cached v' /\ spawned out = [m]) /\
    ((clock 0%nat <= expireTime)%Z ->
     (0 <= expireTime - clock 1%nat < 8388608 * Second)%Z ->
       rewrittenTTL ((expireTime - clock 1%nat) / Second) cached v' /\
       spawned out = []).
Proof.
  intros Hq Hhit Hobj.
  assert (Hlt : (cacheM < length (objs w))%nat) by (by eapply lookup_lt_Some).
  unfold ExchangeContext, GetWithExpire. rewrite Hq, Hhit.
  unfold Copy, alloc. rewrite Hobj. simpl.
  unfold setMsgTTL. rewrite alloc_lookup_new. simpl.
  assert (Hnew : forall v', <[length (objs w) := v']> (objs w ++ [cached])
                            !! length (objs w) = Some v').
  { intros v'. rewrite list_lookup_insert_eq; [done|].
    rewrite length_app; simpl; lia. }
  assert (Hold : forall v', <[length (objs w) := v']> (objs w ++ [cached])
                            !! cacheM = Some cached).
  { intros v'. rewrite list_lookup_insert_ne by lia. by apply alloc_lookup_old. }
  destruct (expireTime <? clock 0%nat)%Z eqn:Hexp.
  - apply Z.ltb_lt in Hexp.
    eexists _, (length (objs w)), (withMsgTTL cached 1).
    split; [reflexivity|]. simpl.
    split; [done|]. split; [done|]. split; [apply Hnew|].
    split; [apply Hold|]. split; [done|]. split; [done|]. split.
    + intros _. split; [apply rewrittenTTL_withMsgTTL | done].
    + intros Hge. lia.
  - apply Z.ltb_ge in Hexp.
    eexists _, (length (objs w)),
      (withMsgTTL cached (secondsU32 (expireTime - clock 1%nat))).
    split; [reflexivity|]. simpl.
    split; [done|]. split; [done|]. split; [apply Hnew|].
    split; [apply Hold|]. split; [done|]. split; [done|]. split.
    + intros Hlt'. lia.
    + intros _ Hrange. split; [|done].
      rewrite <- (secondsU32_whole _ Hrange). apply rewrittenTTL_withMsgTTL.
Qed.

Lemma ExchangeContext_cache_hit_witness :
  exists out msg v',
    ExchangeContext exQS cachedWorld exResolver exQuery (Executes false)
      netClean hitClock = Some out /\
    ret out = POk msg /\
    msg = length (objs cachedWorld) /\
    objs (world out) !! msg = Some v' /\
    objs (world out) !! 0%nat = Some (exAnswer 16843009 300) /\
    lruCache (world out) = lruCache cachedWorld /\
    queries out = [] /\
    ((exClock 0 + 300 * Second < hitClock 0%nat)%Z ->
       rewrittenTTL 1 (exAnswer 16843009 300) v' /\ spawned out = [exQuery]) /\
    ((hitClock 0%nat <= exClock 0 + 300 * Second)%Z ->
     (0 <= exClock 0 + 300 * Second - hitClock 1%nat < 8388608 * Second)%Z ->
       rewrittenTTL ((exClock 0 + 300 * Second - hitClock 1%nat) / Second)
         (exAnswer 16843009 300) v' /\
       spawned out = []).
Proof.
  exact (ExchangeContext_cache_hit exQS cachedWorld exResolver exQuery
           exQuestion [] (Executes false) netClean hitClock 0%nat
           (exClock 0 + 300 * Second)%Z (exAnswer 16843009 300)
           eq_refl (lookup_singleton_eq _ _) eq_refl).
Defined.

(** C7: [ResolveIP] starts the AAAA lookup in a goroutine and runs the A
    lookup itself; when the A lookup succeeds its address is returned without
    receiving from the AAAA channel; only when it fails is the channel
    awaited, and then the AAAA address is returned, or the not-found error
    when the AAAA lookup failed too. *)
Theorem ResolveIP_prefers_A (resolveIP : string -> Z -> Addr + error) (host : string) :
  let out := ResolveIP resolveIP host in
  r_go out = [(host, TypeAAAA)] /\
  r_calls out = [(host, TypeA)] /\
  (forall ip, resolveIP host TypeA = inl ip ->
     r_ip out = ip /\ r_err out = None /\ r_recv out = false) /\
  (forall e ip6, resolveIP host TypeA = inr e ->
     resolveIP host TypeAAAA = inl ip6 ->
     r_ip out = ip6 /\ r_err out = None /\ r_recv out = true) /\
  (forall e e6, resolveIP host TypeA = inr e ->
     resolveIP host TypeAAAA = inr e6 ->
     r_ip out = None /\ r_err out = Some ErrIPNotFound /\ r_recv out = true).
Proof.
  unfold ResolveIP.
  destruct (resolveIP host TypeA) as [ip4|e4] eqn:H4;
    destruct (resolveIP host TypeAAAA) as [ip6|e6] eqn:H6; simpl;
    repeat split; intros; simplify_eq; done.
Qed.

(** ** DNS over HTTPS *)

(** Membership in a one-request log. *)
Ltac posted_singleton :=
  let body := fresh "body" in
  let Hin := fresh "Hin" in
  intros body Hin; apply list_elem_of_singleton in Hin; by subst.

(** C8: the DoH exchange leaves the caller's message object as it was, every
    request it posts is the packing of the caller's message with the ID set
    to zero, and on success the returned response carries the caller's ID.
    Whenever the zero-ID message packs and the request can be built, that
    one request is posted; the exchange succeeds exactly when the request
    and the unpacking of its response do, and the message returned is then
    the unpacked response with the caller's ID in place of its own. *)
Theorem doh_ExchangeContext_id
  (Pack : Msg -> list Z + error) (NewRequest : list Z -> option error)
  (Do : list Z -> list Z + error) (Unpack : list Z -> Msg * option error)
  (s : store) (m : ptr) (v : Msg) :
  s !! m = Some v ->
  exists out,
    doh_ExchangeContext Pack NewRequest Do Unpack s m = Some out /\
    d_store out !! m = Some v /\
    (forall body, body ∈ d_posted out ->
       Pack (withId v 0) = inl body /\ Id (withId v 0) = 0%Z) /\
    (d_err out = None ->
       exists p rv, d_msg out = Some p /\ p <> m /\
                    d_store out !! p = Some rv /\ Id rv = Id v) /\
    match Pack (withId v 0) with
    | inr err => d_posted out = [] /\ d_msg out = None /\ d_err out = Some err
    | inl buf =>
        match NewRequest buf with
        | Some err => d_posted out = [] /\ d_msg out = None /\ d_err out = Some err
        | None =>
            d_posted out = [buf] /\
            match Do buf with
            | inr err => d_msg out = None /\ d_err out = Some err
            | inl resp =>
                d_err out = (Unpack resp).2 /\
                ((Unpack resp).2 = None ->
                   exists p, d_msg out = Some p /\
                     d_store out !! p = Some (withId (Unpack resp).1 (Id v)))
            end
        end
    end.
Proof.
  intros Hm.
  assert (Hlt : (m < length s)%nat) by (by eapply lookup_lt_Some).
  unfold doh_ExchangeContext, alloc. rewrite Hm. simpl.
  rewrite alloc_lookup_new. simpl.
  rewrite list_lookup_insert_eq by (rewrite length_app; simpl; lia). simpl.
  set (s2 := <[length s := withId v 0]> (s ++ [v])).
  assert (Hlen2 : length s2 = S (length s)).
  { unfold s2. rewrite length_insert, length_app. simpl. lia. }
  assert (Hm2 : s2 !! m = Some v).
  { unfold s2. rewrite list_lookup_insert_ne by lia. by apply alloc_lookup_old. }
  destruct (Pack (withId v 0)) as [buf|e] eqn:Hpack.
  2:{ eexists; split; [reflexivity|]. simpl. split; [done|].
      split; [intros body Hin; inversion Hin | done]. }
  destruct (NewRequest buf) as [e|].
  { eexists; split; [reflexivity|]. simpl. split; [done|].
    split; [intros body Hin; inversion Hin | done]. }
  unfold doRequest, alloc.
  destruct (Do buf) as [resp|e].
  2:{ eexists; split; [reflexivity|]. simpl. split; [done|].
      split; [posted_singleton | done]. }
  destruct (Unpack resp) as [uv [e|]].
  { eexists; split; [reflexivity|]. simpl.
    split; [|split; [posted_singleton | done]].
    rewrite list_lookup_insert_ne by lia. by apply alloc_lookup_old. }
  simpl.
  rewrite (list_lookup_insert_ne _ (length s2) m) by lia.
  rewrite (alloc_lookup_old _ _ _ v Hm2). simpl.
  rewrite list_lookup_insert_eq by (rewrite length_app; simpl; lia). simpl.
  assert (Hnew : <[length s2 := withId uv (Id v)]>
                   (<[length s2 := uv]> (s2 ++ [zeroMsg])) !! length s2
                 = Some (withId uv (Id v))).
  { rewrite list_lookup_insert_eq; [done|].
    rewrite length_insert, length_app. simpl. lia. }
  eexists; split; [reflexivity|]. simpl.
  split; [|split; [posted_singleton|split]].
  - rewrite !list_lookup_insert_ne by lia. by apply alloc_lookup_old.
  - intros _. exists (length s2), (withId uv (Id v)).
    split; [done|]. split; [lia|]. by split.
  - split; [done|]. split; [done|]. intros _. by exists (length s2).
Qed.

Lemma doh_ExchangeContext_id_witness :
  exists out,
    doh_ExchangeContext exPack (fun _ => None) exDo exUnpack [exQuery] 0%nat
    = Some out /\
    d_store out !! 0%nat = Some exQuery /\
    (forall body, body ∈ d_posted out ->
       exPack (withId exQuery 0) = inl body /\ Id (withId exQuery 0) = 0%Z) /\
    (d_err out = None ->
       exists p rv, d_msg out = Some p /\ p <> 0%nat /\
                    d_store out !! p = Some rv /\ Id rv = Id exQuery) /\
    d_posted out = [[0; 0]%Z] /\
    d_err out = None /\
    ((None : option error) = None ->
       exists p, d_msg out = Some p /\
         d_store out !! p
         = Some (withId (mkMsg 0 0 [exQuestion] [] [] []) (Id exQuery))).
Proof.
  exact (doh_ExchangeContext_id exPack (fun _ => None) exDo exUnpack
           [exQuery] 0%nat exQuery eq_refl).
Defined.

(** ** No response aliases the cache *)

Section Aliasing.

Variable QS : Question -> string.

Lemma exchange_fn_spec (w : World) (r : Resolver) (m : Msg) (q : Question)
  (net : Upstream) (clock : nat -> Z) :
  exchange_fn QS w r m q net clock =
    match fst (run net (exchange_upstream r m q)) with
    | Err e => Some (w, PErr e, snd (run net (exchange_upstream r m q)))
    | Ok v =>
        Some (match firstRecord v with
              | Some rr =>
                  mkWorld ((objs w ++ [v]) ++ [v])
                    (<[QS q := (S (length (objs w)),
                                (clock 0%nat + Second * Ttl rr)%Z)]> (lruCache w))
              | None => mkWorld (objs w ++ [v]) (lruCache w)
              end,
              POk (length (objs w)),
              snd (run net (exchange_upstream r m q)))
    end.
Proof.
  unfold exchange_fn.
  destruct (run net (exchange_upstream r m q)) as [[v|e] log]; [|done].
  unfold alloc.
  rewrite (putMsgToCache_spec _ _ _ _ v) by apply alloc_lookup_new.
  cbn [objs lruCache fst snd].
  destruct (firstRecord v); simpl; [|done].
  rewrite length_app. simpl. by rewrite Nat.add_1_r.
Qed.

Lemma exchangeWithoutCache_effect (w : World) (r : Resolver) (m : Msg)
  (role : flight) (net : Upstream) (clock : nat -> Z) (out : outcome) :
  exchangeWithoutCache QS w r m role net clock = Some out ->
  effect w out (published QS w r m role net clock).
Proof.
  unfold exchangeWithoutCache, published.
  destruct (Questions m) as [|q qs]; [done|].
  destruct role as [shared|val].
  - rewrite exchange_fn_spec.
    destruct (fst (run net (exchange_upstream r m q))) as [v|e].
    2:{ simpl. intros [= <-]. unfold effect. simpl.
        split; [done|]. split; [done|]. split; [by left|].
        intros pv Hpv. destruct shared; [|by inversion Hpv].
        apply list_elem_of_singleton in Hpv. done. }
    cbn [mbind option_bind].
    destruct (firstRecord v) as [rr|]; destruct shared;
      cbn [exchange_tail Copy alloc objs lruCache mbind option_bind];
      unfold Copy, alloc; cbn [objs lruCache].
    + rewrite (alloc_lookup_old _ _ _ v) by apply alloc_lookup_new.
      simpl. intros [= <-]. unfold effect. cbn [world ret objs lruCache].
      rewrite !length_app. simpl.
      split; [lia|]. split; [intros p [= <-]; lia|]. split.
      * intros k cp e Hk. apply lookup_insert_Some in Hk as [[_ [= <- <-]]|[_ Hk]].
        -- right. split; [lia|]. intros [=]. lia.
        -- by left.
      * intros pv Hpv. apply list_elem_of_singleton in Hpv. injection Hpv as ->.
        split; [lia|]. intros [=]. lia.
    + simpl. intros [= <-]. unfold effect. cbn [world ret objs lruCache].
      rewrite !length_app. simpl.
      split; [lia|]. split; [intros p [= <-]; lia|]. split.
      * intros k cp e Hk. apply lookup_insert_Some in Hk as [[_ [= <- <-]]|[_ Hk]].
        -- right. split; [lia|]. intros [=]. lia.
        -- by left.
      * intros pv Hpv. inversion Hpv.
    + rewrite alloc_lookup_new.
      simpl. intros [= <-]. unfold effect. cbn [world ret objs lruCache].
      rewrite !length_app. simpl.
      split; [lia|]. split; [intros p [= <-]; lia|]. split; [by left|].
      intros pv Hpv. apply list_elem_of_singleton in Hpv. injection Hpv as ->.
      split; [lia|]. intros [=]. lia.
    + simpl. intros [= <-]. unfold effect. cbn [world ret objs lruCache].
      rewrite !length_app. simpl.
      split; [lia|]. split; [intros p [= <-]; lia|]. split; [by left|].
      intros pv Hpv. inversion Hpv.
  - destruct val as [p|e]; simpl.
    2:{ intros [= <-]. unfold effect. simpl.
        split; [done|]. split; [done|]. split; [by left|].
        intros pv Hpv. inversion Hpv. }
    unfold Copy, alloc. destruct (objs w !! p) as [v|] eqn:Hp; [|done].
    simpl. intros [= <-]. unfold effect. cbn [world ret objs lruCache].
    rewrite !length_app. simpl.
    split; [lia|]. split; [intros p' [= <-]; lia|]. split; [by left|].
    intros pv Hpv. inversion Hpv.
Qed.

Lemma ExchangeContext_hit_effect (w : World) (r : Resolver) (m : Msg)
  (q : Question) (qs : list Question) (role : flight)
  (net : Upstream) (clock : nat -> Z) (entry : ptr * Z) (out : outcome) :
  Questions m = q :: qs ->
  GetWithExpire (lruCache w) (QS q) = Some entry ->
  ExchangeContext QS w r m role net clock = Some out ->
  effect w out [].
Proof.
  intros Hq Hhit. unfold ExchangeContext. rewrite Hq, Hhit.
  destruct entry as [cacheM expireTime].
  unfold Copy, alloc. destruct (objs w !! cacheM) as [cached|]; [|done].
  simpl. unfold setMsgTTL. rewrite alloc_lookup_new. simpl.
  destruct (expireTime <? clock 0%nat)%Z; intros [= <-];
    unfold effect; cbn [world ret objs lruCache];
    rewrite length_insert, length_app; simpl;
    (split; [lia|]; split; [intros p [= <-]; lia|]; split; [by left|];
     intros pv Hpv; inversion Hpv).
Qed.

Lemma ExchangeContext_miss (w : World) (r : Resolver) (m : Msg)
  (q : Question) (qs : list Question) (role : flight)
  (net : Upstream) (clock : nat -> Z) :
  Questions m = q :: qs ->
  GetWithExpire (lruCache w) (QS q) = None ->
  ExchangeContext QS w r m role net clock
  = exchangeWithoutCache QS w r m role net clock.
Proof. intros Hq Hmiss. unfold ExchangeContext. by rewrite Hq, Hmiss. Qed.

Lemma Inv_effect (w : World) (H : list ptr) (F : list presult)
  (out : outcome) (pub : list presult) (deliver : bool) :
  Inv (mkSys w H F) -> effect w out pub ->
  Inv (mkSys (world out) ((if deliver then handed (ret out) else []) ++ H)
             (pub ++ F)).
Proof.
  intros (HH & Hnd & Hc & Hf) (Hle & Hret & Hcache & Hpub).
  cbn [s_world s_handed s_flying] in *.
  set (n := length (objs w)) in *. set (n' := length (objs (world out))) in *.
  assert (Hnew : forall p, p ∈ (if deliver then handed (ret out) else []) ->
                           ret out = POk p /\ (n <= p < n')%nat).
  { intros p Hp. destruct deliver; [|by inversion Hp].
    destruct (ret out) as [p0|e] eqn:Hr; simpl in Hp; [|by inversion Hp].
    apply list_elem_of_singleton in Hp. subst p0. split; [done|]. by apply Hret. }
  assert (Hnd' : NoDup ((if deliver then handed (ret out) else []) ++ H)).
  { apply NoDup_app. split; [|split; [|done]].
    - destruct deliver; [|constructor].
      destruct (ret out); simpl; [apply NoDup_singleton | constructor].
    - intros p Hp HpH. destruct (Hnew p Hp) as [_ Hrange].
      specialize (HH p HpH). lia. }
  unfold Inv. cbn [s_world s_handed s_flying]. fold n'.
  split; [|split; [done|split]].
  - intros p Hp. apply elem_of_app in Hp as [Hp|Hp].
    + destruct (Hnew p Hp) as [_ ?]. lia.
    + specialize (HH p Hp). lia.
  - intros k cp e Hk. destruct (Hcache k cp e Hk) as [Hold|[Hrange Hne]].
    + destruct (Hc k cp e Hold) as [Hlt Hnot]. split; [lia|].
      intros Hin. apply elem_of_app in Hin as [Hin|Hin]; [|done].
      destruct (Hnew cp Hin) as [_ ?]. lia.
    + split; [lia|].
      intros Hin. apply elem_of_app in Hin as [Hin|Hin].
      * destruct (Hnew cp Hin) as [Heq _]. done.
      * specialize (HH cp Hin). lia.
  - intros p Hp. apply elem_of_app in Hp as [Hp|Hp].
    + destruct (Hpub p Hp) as [Hrange Hne]. split; [lia|].
      intros Hin. apply elem_of_app in Hin as [Hin|Hin].
      * destruct (Hnew p Hin) as [Heq _]. done.
      * specialize (HH p Hin). lia.
    + destruct (Hf p Hp) as [Hlt Hnot]. split; [lia|].
      intros Hin. apply elem_of_app in Hin as [Hin|Hin]; [|done].
      destruct (Hnew p Hin) as [_ ?]. lia.
Qed.

Lemma step_Inv (s s' : sys) : Inv s -> step QS s s' -> Inv s'.
Proof.
  intros HI Hstep. destruct Hstep as
    [w H F r m q qs role net clock entry out Hq Hhit Hex
    |w H F r m q qs role net clock out Hq Hmiss Hadm Hex
    |w H F r m role net clock out Hadm Hex
    |w H F p v Hp].
  - apply (Inv_effect w H F out [] true HI).
    by eapply ExchangeContext_hit_effect.
  - apply (Inv_effect w H F out _ true HI).
    rewrite (ExchangeContext_miss _ _ _ _ _ _ _ _ Hq Hmiss) in Hex.
    by apply exchangeWithoutCache_effect.
  - apply (Inv_effect w H F out _ false HI).
    by apply exchangeWithoutCache_effect.
  - destruct HI as (HH & Hnd & Hc & Hf). unfold Inv.
    cbn [s_world s_handed s_flying objs lruCache] in *.
    rewrite length_insert. done.
Qed.

Lemma reachable_Inv (s : sys) : reachable QS s -> Inv s.
Proof.
  induction 1 as [|s s' _ IH Hstep].
  - unfold Inv. simpl. split; [intros p Hp; inversion Hp|].
    split; [constructor|]. split.
    + intros k cp e Hk. by rewrite lookup_empty in Hk.
    + intros p Hp. inversion Hp.
  - by eapply step_Inv.
Qed.

(** C10: in every state the resolver can reach, the message pointers handed
    to callers are pairwise distinct, none of them is the object of a cache
    entry, and none is the value of a shared flight (each coalesced caller
    holds a copy of its own); hence overwriting a handed-out response changes
    neither the object of any cache entry nor the response of another
    caller. *)
Theorem cache_never_aliased (s : sys) :
  reachable QS s ->
  NoDup (s_handed s) /\
  (forall k cp e, lruCache (s_world s) !! k = Some (cp, e) -> cp ∉ s_handed s) /\
  (forall p, POk p ∈ s_flying s -> p ∉ s_handed s) /\
  (forall p v, p ∈ s_handed s ->
     (forall k cp e, lruCache (s_world s) !! k = Some (cp, e) ->
        <[p := v]> (objs (s_world s)) !! cp = objs (s_world s) !! cp) /\
     (forall p', p' ∈ s_handed s -> p' <> p ->
        <[p := v]> (objs (s_world s)) !! p' = objs (s_world s) !! p')).
Proof.
  intros Hreach. destruct (reachable_Inv s Hreach) as (HH & Hnd & Hc & Hf).
  split; [done|]. split; [intros k cp e Hk; by apply (Hc k cp e)|].
  split; [intros p Hp; by apply Hf|].
  intros p v Hp. split.
  - intros k cp e Hk. destruct (Hc k cp e Hk) as [_ Hnot].
    apply list_lookup_insert_ne. intros ->. done.
  - intros p' _ Hne. by apply list_lookup_insert_ne.
Qed.
End Aliasing.

Lemma exSys_reachable : reachable exQS exSys.
Proof.
  unfold exSys.
  destruct (ExchangeContext exQS emptyWorld exResolver exQuery (Executes false)
              netClean exClock) as [out|] eqn:Hout.
  - eapply reach_step; [apply reach_init|].
    eapply (step_miss exQS (mkWorld [] ∅) [] [] exResolver exQuery exQuestion []
              (Executes false) netClean exClock out);
      [reflexivity | apply lookup_empty | exact I | exact Hout].
  - vm_compute in Hout. discriminate.
Qed.

Lemma cache_never_aliased_witness :
  NoDup (s_handed exSys) /\
  (forall k cp e, lruCache (s_world exSys) !! k = Some (cp, e) ->
     cp ∉ s_handed exSys) /\
  (forall p, POk p ∈ s_flying exSys -> p ∉ s_handed exSys) /\
  (forall p v, p ∈ s_handed exSys ->
     (forall k cp e, lruCache (s_world exSys) !! k = Some (cp, e) ->
        <[p := v]> (objs (s_world exSys)) !! cp = objs (s_world exSys) !! cp) /\
     (forall p', p' ∈ s_handed exSys -> p' <> p ->
        <[p := v]> (objs (s_world exSys)) !! p' = objs (s_world exSys) !! p')).
Proof. exact (cache_never_aliased exQS exSys exSys_reachable). Defined.
End DnsProofs.
Module TunnelProofs.
Import Tunnel TunnelSpec TunnelExamples.

(** C6: [preHandleMetadata] first moves a host that parses as a literal IP
    into the destination IP and clears the host; it then returns an error
    exactly when mapping is enabled, the metadata (after that first step) has
    a valid destination IP and an empty host, reverse lookup of the IP finds
    no host, and the IP is a fake IP; the failing call leaves the metadata as
    the first step left it and its error names the missing fake DNS record.
    Every other call succeeds, and the metadata it leaves is the one the
    first step left, unless the reverse lookup applied and found a host: then
    the host is the one found, the DNS mode is fake-IP with the destination
    IP unset when fake IPs are enabled, and otherwise mapping with the
    destination IP of the hosts entry of that host, if it has one. *)
Theorem preHandleMetadata_error_iff
  (ParseAddr : string -> option IP) (AddrString : Addr -> string)
  (MappingEnabled FakeIPEnabled : bool)
  (FindHostByIP : Addr -> option string) (IsFakeIP : Addr -> bool)
  (DefaultHosts : DomainTrie Addr) (metadata : Metadata) :
  let md1 := hostLiteral ParseAddr metadata in
  let out := preHandleMetadata ParseAddr AddrString MappingEnabled FakeIPEnabled
               FindHostByIP IsFakeIP DefaultHosts metadata in
  (forall ip, ParseAddr (Host metadata) = Some ip ->
     md1 = set_Host (set_DstIP metadata (Some ip)) EmptyString /\
     DstIP md1 = Some ip /\ Host md1 = EmptyString) /\
  (ParseAddr (Host metadata) = None -> md1 = metadata) /\
  (is_Some (snd out) <->
     MappingEnabled = true /\ IsValid (DstIP md1) = true /\
     Host md1 = EmptyString /\ FindHostByIP (DstIP md1) = None /\
     IsFakeIP (DstIP md1) = true) /\
  (is_Some (snd out) ->
     fst out = md1 /\
     snd out = Some ("fake DNS record " +:+ AddrString (DstIP md1) +:+ " missing")) /\
  (~ (MappingEnabled = true /\ Host md1 = EmptyString /\
      IsValid (DstIP md1) = true) ->
     out = (md1, None)) /\
  (MappingEnabled = true -> Host md1 = EmptyString -> IsValid (DstIP md1) = true ->
     (FindHostByIP (DstIP md1) = None -> fst out = md1) /\
     (forall host, FindHostByIP (DstIP md1) = Some host ->
        snd out = None /\
        sameButTarget md1 (fst out) /\
        Host (fst out) = host /\
        MDNSMode (fst out) = (if FakeIPEnabled then DNSFakeIP else DNSMapping) /\
        DstIP (fst out)
        = (if FakeIPEnabled then None
           else match Search DefaultHosts host with
                | Some data => data
                | None => DstIP md1
                end))).
Proof.
  intros md1 out. split; [|split; [|split; [|split; [|split]]]].
  - intros ip Hip. unfold md1, hostLiteral. rewrite Hip. done.
  - intros Hnone. unfold md1, hostLiteral. by rewrite Hnone.
  - unfold out, preHandleMetadata. fold md1. unfold needLookupIP.
    destruct MappingEnabled; simpl.
    2:{ split; [intros [? [=]] | intros [[=] _]]. }
    destruct (bool_decide (Host md1 = EmptyString)) eqn:Hhost; simpl.
    2:{ apply bool_decide_eq_false in Hhost.
        split; [intros [? [=]] | intros (_ & _ & Hh & _); done]. }
    apply bool_decide_eq_true in Hhost.
    destruct (IsValid (DstIP md1)) eqn:Hvalid; simpl.
    2:{ split; [intros [? [=]] | intros (_ & [=] & _)]. }
    destruct (FindHostByIP (DstIP md1)) as [host|] eqn:Hfind.
    { destruct FakeIPEnabled; simpl.
      - split; [intros [? [=]] | intros (_ & _ & _ & [=] & _)].
      - destruct (Search DefaultHosts host); simpl;
          (split; [intros [? [=]] | intros (_ & _ & _ & [=] & _)]). }
    destruct (IsFakeIP (DstIP md1)) eqn:Hfake; simpl.
    + split; [done | intros _; by eexists].
    + split; [intros [? [=]] | intros (_ & _ & _ & _ & [=])].
  - unfold out, preHandleMetadata. fold md1.
    destruct (needLookupIP _ md1); simpl; [|intros [? [=]]].
    destruct (FindHostByIP (DstIP md1)) as [host|].
    { destruct FakeIPEnabled; simpl; [intros [? [=]]|].
      destruct (Search DefaultHosts host); simpl; intros [? [=]]. }
    destruct (IsFakeIP (DstIP md1)); simpl; [done | intros [? [=]]].
  - intros Hnot. unfold out, preHandleMetadata. fold md1. unfold needLookupIP.
    destruct MappingEnabled; simpl; [|done].
    destruct (bool_decide (Host md1 = EmptyString)) eqn:Hhost; simpl; [|done].
    apply bool_decide_eq_true in Hhost.
    destruct (IsValid (DstIP md1)) eqn:Hvalid; simpl; [|done].
    by destruct Hnot.
  - intros -> Hhost Hvalid. unfold out, preHandleMetadata. fold md1.
    unfold needLookupIP. rewrite Hvalid.
    rewrite bool_decide_eq_true_2 by exact Hhost. simpl. split.
    + intros ->. by destruct (IsFakeIP (DstIP md1)).
    + intros host ->. destruct FakeIPEnabled; simpl.
      * by repeat split.
      * destruct (Search DefaultHosts host); simpl; by repeat split.
Qed.


(** ** Rule matching *)

Lemma seenOf_app (a b : list event) : seenOf (a ++ b) = seenOf a ++ seenOf b.
Proof.
  induction a as [|e a IH]; simpl; [done|].
  destruct e; simpl; by rewrite ?IH.
Qed.

Section MatchFacts.

Variable rules : list Rule.
Variable proxies : gmap string Proxy.
Variable DefaultHosts : DomainTrie Addr.
Variable ResolveIP : string -> Addr + error.
Variable FindProcessName : string -> Addr -> Z -> string + error.
Variable Base : string -> string.

Local Abbreviation resolveStep := (resolveStep ResolveIP).
Local Abbreviation processStep := (processStep FindProcessName Base).
Local Abbreviation match_loop := (match_loop proxies ResolveIP FindProcessName Base).
Local Abbreviation match_ :=
  (match_ rules proxies DefaultHosts ResolveIP FindProcessName Base).

(** The two lazy steps add no rule evaluation and keep the network kind. *)
Lemma prepare_trace (rule : Rule) (st : pass) :
  exists evs,
    p_trace (processStep rule (resolveStep rule st)) = p_trace st ++ evs /\
    seenOf evs = [] /\
    MNetWork (p_metadata (processStep rule (resolveStep rule st)))
    = MNetWork (p_metadata st).
Proof.
  unfold Tunnel.resolveStep.
  destruct (negb (p_resolved st) && shouldResolveIP rule (p_metadata st)).
  - unfold Tunnel.processStep. simpl.
    destruct (negb (p_processFound st) && ShouldFindProcess rule); simpl.
    + destruct (ParseUint16 _) eqn:Hport; simpl.
      * rewrite <- app_assoc. eexists; split; [reflexivity|].
        split; [done|]. destruct (ResolveIP _), (FindProcessName _ _ _); done.
      * eexists; split; [reflexivity|]. split; [done|].
        by destruct (ResolveIP _).
    + eexists; split; [reflexivity|]. split; [done|]. by destruct (ResolveIP _).
  - unfold Tunnel.processStep.
    destruct (negb (p_processFound st) && ShouldFindProcess rule); simpl.
    + destruct (ParseUint16 _) eqn:Hport; simpl.
      * eexists; split; [reflexivity|]. split; [done|].
        by destruct (FindProcessName _ _ _).
      * exists []. by rewrite app_nil_r.
    + exists []. by rewrite app_nil_r.
Qed.

Lemma match_loop_first_usable (rs : list Rule) (st0 : pass) :
  exists evs,
    p_trace (snd (match_loop rs st0)) = p_trace st0 ++ evs /\
    Forall (fun rm => MNetWork (snd rm) = MNetWork (p_metadata st0)) (seenOf evs) /\
    ((exists pre rule md post adapter,
        rs = map fst pre ++ rule :: post /\
        seenOf evs = pre ++ [(rule, md)] /\
        Forall (fun rm => ~ usable proxies (fst rm) (snd rm)) pre /\
        Match rule md = true /\
        proxies !! Adapter rule = Some adapter /\
        (MNetWork md = UDP -> SupportUDP adapter = true) /\
        fst (match_loop rs st0) = (Some adapter, Some rule, None))
     \/
     (map fst (seenOf evs) = rs /\
      Forall (fun rm => ~ usable proxies (fst rm) (snd rm)) (seenOf evs) /\
      fst (match_loop rs st0) = (proxies !! "REJECT", None, None))).
Proof.
  revert st0. induction rs as [|rule rest IH]; intros st0.
  - exists []. rewrite app_nil_r. simpl. split; [done|]. split; [done|].
    right. done.
  - cbn [Tunnel.match_loop].
    destruct (prepare_trace rule st0) as (pre_evs & Htr & Hseen & Hnet).
    set (st2 := processStep rule (resolveStep rule st0)) in *.
    set (md := p_metadata st2).
    set (hit := Match rule md).
    set (st3 := mkPass md (p_resolved st2) (p_processFound st2)
                       (p_trace st2 ++ [EvMatch rule md hit])).
    destruct (IH st3) as (evs & Htr3 & Hnet3 & Hcases).
    assert (Hnet' : MNetWork md = MNetWork (p_metadata st0)) by exact Hnet.
    unfold st3 in Hnet3 at 1. cbn [p_metadata] in Hnet3. rewrite Hnet' in Hnet3.
    assert (Hskip : ~ usable proxies rule md ->
      exists evs0,
        p_trace (snd (match_loop rest st3)) = p_trace st0 ++ evs0 /\
        Forall (fun rm => MNetWork (snd rm) = MNetWork (p_metadata st0))
               (seenOf evs0) /\
        ((exists pre rule0 md0 post adapter,
            rule :: rest = map fst pre ++ rule0 :: post /\
            seenOf evs0 = pre ++ [(rule0, md0)] /\
            Forall (fun rm => ~ usable proxies (fst rm) (snd rm)) pre /\
            Match rule0 md0 = true /\
            proxies !! Adapter rule0 = Some adapter /\
            (MNetWork md0 = UDP -> SupportUDP adapter = true) /\
            fst (match_loop rest st3) = (Some adapter, Some rule0, None))
         \/
         (map fst (seenOf evs0) = rule :: rest /\
          Forall (fun rm => ~ usable proxies (fst rm) (snd rm)) (seenOf evs0) /\
          fst (match_loop rest st3) = (proxies !! "REJECT", None, None)))).
    { intros Hno. exists (pre_evs ++ EvMatch rule md hit :: evs).
      split.
      { rewrite Htr3. unfold st3. cbn [p_trace]. rewrite Htr.
        rewrite <- !app_assoc. done. }
      rewrite seenOf_app, Hseen. cbn [seenOf app].
      split.
      { constructor; [exact Hnet|]. exact Hnet3. }
      destruct Hcases as [(pre & r0 & md0 & post & ad & Hrs & Hsn & Hpre & Hm & Hp & Hu & Hres)
                         |(Hrs & Hall & Hres)].
      - left. exists ((rule, md) :: pre), r0, md0, post, ad.
        split; [by rewrite Hrs|]. split; [by rewrite Hsn|].
        split; [by constructor|]. done.
      - right. split; [by rewrite <- Hrs|]. split; [by constructor|]. done. }
    assert (Hhit : hit = Match rule md) by reflexivity.
    clearbody hit.
    destruct hit; [|apply Hskip; intros [? _]; congruence].
    destruct (proxies !! Adapter rule) as [adapter|] eqn:Hproxy;
      [|apply Hskip; intros (_ & ? & ? & _); congruence].
    destruct (isUDP (MNetWork (p_metadata st3)) && negb (SupportUDP adapter))
      eqn:Hudp.
    + apply Hskip. intros (_ & ad & Had & Hsup).
      apply andb_true_iff in Hudp as [Hisudp Hns].
      unfold st3 in Hisudp. cbn [p_metadata] in Hisudp.
      assert (ad = adapter) by congruence. subst ad.
      destruct (MNetWork md); [done|].
      rewrite Hsup in Hns by done. done.
    + exists (pre_evs ++ [EvMatch rule md true]).
      cbn [snd fst]. split.
      { unfold st3. cbn [p_trace]. rewrite Htr, <- app_assoc. done. }
      rewrite seenOf_app, Hseen. cbn [seenOf app]. split.
      { constructor; [exact Hnet | constructor]. }
      left. exists [], rule, md, rest, adapter.
      split; [done|]. split; [done|]. split; [constructor|].
      split; [done|]. split; [done|]. split; [|done].
      intros Hisudp. unfold st3 in Hudp. cbn [p_metadata] in Hudp.
      rewrite Hisudp in Hudp. simpl in Hudp. by destruct (SupportUDP adapter).
Qed.


(** A property of the loop state that the two lazy steps keep and that does
    not depend on the trace holds of the state every rule is matched in and
    of the final state. *)
Lemma match_loop_inv (I : pass -> Prop) :
  (forall rule st, I st -> I (resolveStep rule st)) ->
  (forall rule st, I st -> I (processStep rule st)) ->
  (forall st tr, I st ->
     I (mkPass (p_metadata st) (p_resolved st) (p_processFound st) tr)) ->
  forall rs st0, I st0 ->
    exists evs,
      p_trace (snd (match_loop rs st0)) = p_trace st0 ++ evs /\
      allMatches (fun _ md => exists st, I st /\ p_metadata st = md) evs /\
      I (snd (match_loop rs st0)).
Proof.
  intros Hres Hproc Htr. induction rs as [|rule rest IH]; intros st0 H0.
  - exists []. rewrite app_nil_r. simpl. split; [done|]. split; [constructor|done].
  - cbn [Tunnel.match_loop].
    destruct (prepare_trace rule st0)
      as (pre & Hpre & Hseen & _).
    set (st2 := processStep rule (resolveStep rule st0)) in *.
    assert (H2 : I st2) by (apply Hproc, Hres, H0).
    set (st3 := mkPass (p_metadata st2) (p_resolved st2) (p_processFound st2)
                       (p_trace st2 ++ [EvMatch rule (p_metadata st2)
                                          (Match rule (p_metadata st2))])).
    assert (H3 : I st3) by (by apply Htr).
    destruct (IH st3 H3) as (evs & Hevs & Hall & Hfin).
    assert (Hrec : exists evs',
      p_trace (snd (match_loop rest st3)) = p_trace st0 ++ evs' /\
      allMatches (fun _ md => exists st, I st /\ p_metadata st = md) evs' /\
      I (snd (match_loop rest st3))).
    { exists (pre ++ EvMatch rule (p_metadata st2) (Match rule (p_metadata st2)) :: evs).
      split.
      - rewrite Hevs. unfold st3. cbn [p_trace]. rewrite Hpre.
        by rewrite <- !app_assoc.
      - split; [|done]. unfold allMatches. rewrite seenOf_app, Hseen.
        simpl. constructor; [|exact Hall]. simpl. by exists st2. }
    assert (Hstop : exists evs',
      p_trace st3 = p_trace st0 ++ evs' /\
      allMatches (fun _ md => exists st, I st /\ p_metadata st = md) evs' /\
      I st3).
    { exists (pre ++ [EvMatch rule (p_metadata st2) (Match rule (p_metadata st2))]).
      split.
      - unfold st3. cbn [p_trace]. rewrite Hpre. by rewrite <- !app_assoc.
      - split; [|done]. unfold allMatches. rewrite seenOf_app, Hseen.
        simpl. constructor; [|constructor]. simpl. by exists st2. }
    fold st3.
    destruct (Match rule (p_metadata st2)); [|exact Hrec].
    destruct (proxies !! Adapter rule) as [adapter|]; [|exact Hrec].
    destruct (isUDP (MNetWork (p_metadata st3)) && negb (SupportUDP adapter));
      [exact Hrec|exact Hstop].
Qed.

Lemma passAfter_step (metadata : Metadata) (pre : list Rule) (rule : Rule) (st : pass) :
  passAfter DefaultHosts ResolveIP FindProcessName Base metadata pre st ->
  passAfter DefaultHosts ResolveIP FindProcessName Base metadata (pre ++ [rule])
    (processStep rule (resolveStep rule st)).
Proof.
  destruct st as [md res pf tr]. unfold passAfter. cbn [p_metadata p_resolved p_processFound].
  intros (-> & -> & ->).
  unfold Tunnel.resolveStep, Tunnel.processStep, shouldResolveIP, mdAfter.
  rewrite !existsb_app. cbn [existsb p_metadata p_resolved p_processFound p_trace
    MNetWork SrcIP DstIP SrcPort DstPort Host MDNSMode Process ProcessPath].
  rewrite !orb_false_r.
  destruct (Search DefaultHosts (Host metadata)) as [data|];
    [rewrite bool_decide_eq_true_2 by (by eexists)
    |rewrite bool_decide_eq_false_2 by (by intros [? ?])];
    destruct (existsb ShouldResolveIP pre), (ShouldResolveIP rule),
      (bool_decide (Host metadata = EmptyString)),
      (DstIP metadata) as [ip0|];
    cbn [orb andb negb IsValid p_metadata p_resolved p_processFound p_trace
      MNetWork SrcIP DstIP SrcPort DstPort Host MDNSMode Process ProcessPath
      set_DstIP resolvedIP];
    try destruct (ResolveIP (Host metadata)) as [ip|e];
    cbn [orb andb negb IsValid p_metadata p_resolved p_processFound p_trace
      MNetWork SrcIP DstIP SrcPort DstPort Host MDNSMode Process ProcessPath
      set_DstIP resolvedIP];
    destruct (existsb ShouldFindProcess pre), (ShouldFindProcess rule);
    cbn [orb andb negb p_metadata p_resolved p_processFound p_trace
      MNetWork SrcIP DstIP SrcPort DstPort Host MDNSMode Process ProcessPath];
    try destruct (ParseUint16 (SrcPort metadata)) as [srcPort|];
    cbn [p_metadata p_resolved p_processFound];
    try destruct (FindProcessName _ _ _) as [path|e'];
    cbn [p_metadata p_resolved p_processFound set_Process
      MNetWork SrcIP DstIP SrcPort DstPort Host MDNSMode Process ProcessPath];
    done.
Qed.

(** The rules evaluated from a state that has run the rules [pre] are the
    rules of the list in order, each matched against the metadata told from
    the flow and the rules up to it. *)
Lemma match_loop_seen (metadata : Metadata) (rs pre : list Rule) (st0 : pass) :
  passAfter DefaultHosts ResolveIP FindProcessName Base metadata pre st0 ->
  exists evs,
    p_trace (snd (match_loop rs st0)) = p_trace st0 ++ evs /\
    (forall i rule md,
       seenOf evs !! i = Some (rule, md) ->
       rs !! i = Some rule /\
       md = mdAfter DefaultHosts ResolveIP FindProcessName Base
              (pre ++ take (S i) rs) metadata) /\
    p_metadata (snd (match_loop rs st0))
    = mdAfter DefaultHosts ResolveIP FindProcessName Base
        (pre ++ take (length (seenOf evs)) rs) metadata.
Proof.
  revert pre st0. induction rs as [|rule rest IH]; intros pre st0 H0.
  - exists []. rewrite !app_nil_r. simpl. split; [done|]. split; [done|]. apply H0.
  - cbn [Tunnel.match_loop].
    destruct (prepare_trace rule st0) as (pre_evs & Hpre & Hseen & _).
    pose proof (passAfter_step metadata pre rule st0 H0) as H2.
    set (st2 := processStep rule (resolveStep rule st0)) in *.
    set (st3 := mkPass (p_metadata st2) (p_resolved st2) (p_processFound st2)
                       (p_trace st2 ++ [EvMatch rule (p_metadata st2)
                                          (Match rule (p_metadata st2))])).
    assert (H3 : passAfter DefaultHosts ResolveIP FindProcessName Base metadata
                   (pre ++ [rule]) st3) by exact H2.
    assert (Hmd : p_metadata st2
                  = mdAfter DefaultHosts ResolveIP FindProcessName Base
                      (pre ++ [rule]) metadata) by apply H2.
    destruct (IH (pre ++ [rule]) st3 H3) as (evs & Hevs & Hall & Hfin).
    assert (Hrec : exists evs',
      p_trace (snd (match_loop rest st3)) = p_trace st0 ++ evs' /\
      (forall i r md,
         seenOf evs' !! i = Some (r, md) ->
         (rule :: rest) !! i = Some r /\
         md = mdAfter DefaultHosts ResolveIP FindProcessName Base
                (pre ++ take (S i) (rule :: rest)) metadata) /\
      p_metadata (snd (match_loop rest st3))
      = mdAfter DefaultHosts ResolveIP FindProcessName Base
          (pre ++ take (length (seenOf evs')) (rule :: rest)) metadata).
    { exists (pre_evs ++ EvMatch rule (p_metadata st2) (Match rule (p_metadata st2)) :: evs).
      split; [|split].
      - rewrite Hevs. unfold st3. cbn [p_trace]. rewrite Hpre.
        by rewrite <- !app_assoc.
      - rewrite seenOf_app, Hseen. cbn [app seenOf]. intros [|i] r md Hi.
        + injection Hi as <- <-. split; [done|]. exact Hmd.
        + destruct (Hall i r md Hi) as [Hr ->]. split; [exact Hr|].
          cbn [take]. by rewrite <- app_assoc.
      - rewrite seenOf_app, Hseen. cbn [app seenOf length take].
        rewrite Hfin. by rewrite <- app_assoc. }
    assert (Hstop : exists evs',
      p_trace st3 = p_trace st0 ++ evs' /\
      (forall i r md,
         seenOf evs' !! i = Some (r, md) ->
         (rule :: rest) !! i = Some r /\
         md = mdAfter DefaultHosts ResolveIP FindProcessName Base
                (pre ++ take (S i) (rule :: rest)) metadata) /\
      p_metadata st3
      = mdAfter DefaultHosts ResolveIP FindProcessName Base
          (pre ++ take (length (seenOf evs')) (rule :: rest)) metadata).
    { exists (pre_evs ++ [EvMatch rule (p_metadata st2) (Match rule (p_metadata st2))]).
      split; [|split].
      - unfold st3. cbn [p_trace]. rewrite Hpre. by rewrite <- !app_assoc.
      - rewrite seenOf_app, Hseen. cbn [app seenOf]. intros [|i] r md Hi; [|done].
        injection Hi as <- <-. split; [done|]. cbn [take]. by rewrite take_0.
      - rewrite seenOf_app, Hseen. cbn [app seenOf length take]. by rewrite take_0. }
    fold st3.
    destruct (Match rule (p_metadata st2)); [|exact Hrec].
    destruct (proxies !! Adapter rule) as [adapter|]; [|exact Hrec].
    destruct (isUDP (MNetWork (p_metadata st3)) && negb (SupportUDP adapter));
      [exact Hrec|exact Hstop].
Qed.

(** C4: [match] evaluates the rules in list order and returns the outbound
    of the first rule that matches and whose named outbound exists in the
    proxy set and, for a UDP flow, supports UDP; matching rules before it
    whose outbound is absent or lacks UDP support are passed over.  If no
    rule yields a usable outbound it returns the outbound registered as
    REJECT, no rule and no error.  The error is nil in every case.  The
    metadata a rule is matched against is the metadata given, with the
    destination IP and the process fields that the hosts table and the
    lookups asked for by the rules up to that one give it ([mdAfter]), and
    so is the metadata the pass leaves behind. *)
Theorem match_first_usable_rule (metadata : Metadata) :
  let out := match_ metadata in
  let seen := seenOf (p_trace (snd out)) in
  Forall (fun rm => MNetWork (snd rm) = MNetWork metadata) seen /\
  (forall i rule md,
     seen !! i = Some (rule, md) ->
     rules !! i = Some rule /\
     md = mdAfter DefaultHosts ResolveIP FindProcessName Base
            (take (S i) rules) metadata) /\
  p_metadata (snd out)
  = mdAfter DefaultHosts ResolveIP FindProcessName Base
      (take (length seen) rules) metadata /\
  ((exists pre rule md post adapter,
      rules = map fst pre ++ rule :: post /\
      seen = pre ++ [(rule, md)] /\
      Forall (fun rm => ~ usable proxies (fst rm) (snd rm)) pre /\
      Match rule md = true /\
      proxies !! Adapter rule = Some adapter /\
      (MNetWork md = UDP -> SupportUDP adapter = true) /\
      fst out = (Some adapter, Some rule, None))
   \/
   (map fst seen = rules /\
    Forall (fun rm => ~ usable proxies (fst rm) (snd rm)) seen /\
    fst out = (proxies !! "REJECT", None, None))).
Proof.
  cbn zeta. unfold Tunnel.match_.
  set (st0 := match Search DefaultHosts (Host metadata) with
              | Some data => mkPass (set_DstIP metadata data) true false []
              | None => mkPass metadata false false []
              end).
  assert (H0 : passAfter DefaultHosts ResolveIP FindProcessName Base metadata [] st0 /\
               p_trace st0 = [] /\
               MNetWork (p_metadata st0) = MNetWork metadata).
  { unfold st0, passAfter, mdAfter.
    destruct (Search DefaultHosts (Host metadata)) as [data|]; simpl.
    - done.
    - by destruct metadata. }
  destruct H0 as (H0 & Htr0 & Hnet0).
  destruct (match_loop_first_usable rules st0) as (evs & Htr & Hnet & Hcases).
  destruct (match_loop_seen metadata rules [] st0 H0) as (evs' & Htr' & Hall & Hfin).
  assert (evs' = evs) as -> by (rewrite Htr in Htr'; by eapply app_inv_head).
  rewrite Htr, Htr0. cbn [app] in *. rewrite Hnet0 in Hnet.
  split; [exact Hnet|]. split; [exact Hall|]. split; [exact Hfin|exact Hcases].
Qed.

(** *** Lazy resolution and process lookup *)

Lemma onlyFinds_seen (F : list event) : onlyFinds F -> seenOf F = [].
Proof.
  induction 1 as [|e F He _ IH]; [done|]. by destruct e.
Qed.

Lemma onlyFinds_noResolve (F : list event) : onlyFinds F -> noResolve F.
Proof.
  unfold onlyFinds, noResolve. intros H.
  eapply Forall_impl; [exact H|]. by intros [].
Qed.

Lemma onlyResolves_seen (R : list event) : onlyResolves R -> seenOf R = [].
Proof.
  induction 1 as [|e R He _ IH]; [done|]. by destruct e.
Qed.

Lemma onlyResolves_noFind (R : list event) : onlyResolves R -> noFindProcess R.
Proof.
  unfold onlyResolves, noFindProcess. intros H.
  eapply Forall_impl; [exact H|]. by intros [].
Qed.

Lemma resolvePhase_skip (h0 : string) (d0 : Addr) (F t : list event) :
  onlyFinds F ->
  resolvePhase ResolveIP h0 d0 (F ++ t) <-> resolvePhase ResolveIP h0 d0 t.
Proof.
  induction 1 as [|e F He _ IH]; [done|]. by destruct e.
Qed.

Lemma processPhase_skip (md0 : Metadata) (R t : list event) :
  onlyResolves R ->
  processPhase FindProcessName Base md0 (R ++ t)
  <-> processPhase FindProcessName Base md0 t.
Proof.
  induction 1 as [|e R He _ IH]; [done|]. by destruct e.
Qed.

Lemma allMatches_skip (P : Rule -> Metadata -> Prop) (pre t : list event) :
  seenOf pre = [] -> allMatches P (pre ++ t) <-> allMatches P t.
Proof.
  intros Hpre. unfold allMatches. by rewrite seenOf_app, Hpre.
Qed.

Lemma allMatches_match (P : Rule -> Metadata -> Prop)
  (r : Rule) (md : Metadata) (b : bool) (t : list event) :
  allMatches P (EvMatch r md b :: t) <-> P r md /\ allMatches P t.
Proof. unfold allMatches. simpl. by rewrite Forall_cons. Qed.

Lemma nextMatchIs_skip (rule : Rule) (md : Metadata) (b : bool)
  (pre t : list event) :
  seenOf pre = [] -> nextMatchIs rule (pre ++ EvMatch rule md b :: t).
Proof.
  intros Hpre. exists md, (seenOf t). by rewrite seenOf_app, Hpre.
Qed.

(** A resolution inside a trace of the unresolved phase splits it as the
    statement of C5 describes. *)
Lemma resolvePhase_split (h0 : string) (d0 : Addr) (t1 t2 : list event)
  (rule : Rule) (host : string) (res : Addr + error) :
  resolvePhase ResolveIP h0 d0 (t1 ++ EvResolveIP rule host res :: t2) ->
  noResolve t1 /\
  allMatches (fun r md => shouldResolveIP r md = false) t1 /\
  ShouldResolveIP rule = true /\ host = h0 /\ host <> EmptyString /\
  d0 = None /\ res = ResolveIP host /\
  noResolve t2 /\ nextMatchIs rule t2 /\
  allMatches (fun _ md => DstIP md = resolvedIP res) t2.
Proof.
  induction t1 as [|e t1 IH]; simpl.
  - intros H. split; [constructor|]. split; [constructor|]. exact H.
  - destruct e as [r0 h r|r0 n s p r|r0 md b].
    + intros (_ & _ & _ & _ & _ & Hno & _).
      apply Forall_app in Hno as [_ Hno]. by inversion Hno.
    + intros H. destruct (IH H) as (Hn & Hrest).
      split; [by constructor|]. exact Hrest.
    + intros [Hm H]. destruct (IH H) as (Hn & Ha & Hrest).
      split; [by constructor|]. split; [|exact Hrest].
      by apply allMatches_match.
Qed.

Lemma processPhase_split (md0 : Metadata) (t1 t2 : list event)
  (rule : Rule) (network : string) (srcIP : Addr) (srcPort : Z)
  (res : string + error) :
  processPhase FindProcessName Base md0
    (t1 ++ EvFindProcess rule network srcIP srcPort res :: t2) ->
  noFindProcess t1 /\
  allMatches (fun r _ => ShouldFindProcess r = false) t1 /\
  ShouldFindProcess rule = true /\
  network = NetWork_String (MNetWork md0) /\ srcIP = SrcIP md0 /\
  ParseUint16 (SrcPort md0) = Some srcPort /\
  res = FindProcessName network srcIP srcPort /\
  noFindProcess t2 /\ nextMatchIs rule t2 /\
  allMatches (fun _ md => processLeft Base md0 res md) t2.
Proof.
  induction t1 as [|e t1 IH]; simpl.
  - intros H. split; [constructor|]. split; [constructor|]. exact H.
  - destruct e as [r0 h r|r0 n s p r|r0 md b].
    + intros H. destruct (IH H) as (Hn & Hrest).
      split; [by constructor|]. exact Hrest.
    + intros (_ & _ & _ & _ & _ & Hno & _).
      apply Forall_app in Hno as [_ Hno]. by inversion Hno.
    + intros [Hm H]. destruct (IH H) as (Hn & Ha & Hrest).
      split; [by constructor|]. split; [|exact Hrest].
      by apply allMatches_match.
Qed.

Lemma match_loop_cons (rule : Rule) (rest : list Rule) (st0 : pass) :
  let st2 := processStep rule (resolveStep rule st0) in
  let md := p_metadata st2 in
  let st3 := mkPass md (p_resolved st2) (p_processFound st2)
                    (p_trace st2 ++ [EvMatch rule md (Match rule md)]) in
  snd (match_loop (rule :: rest) st0) = st3 \/
  snd (match_loop (rule :: rest) st0) = snd (match_loop rest st3).
Proof.
  cbn [Tunnel.match_loop]. cbn zeta.
  destruct (Match rule _); [|by right].
  destruct (proxies !! Adapter rule); [|by right].
  destruct (isUDP _ && negb _); [by right | by left].
Qed.

Lemma match_loop_no_error (rs : list Rule) (st0 : pass) :
  snd (fst (match_loop rs st0)) = None.
Proof.
  revert st0. induction rs as [|rule rest IH]; intros st0; [done|].
  cbn [Tunnel.match_loop]. cbn zeta.
  destruct (Match rule _); [|apply IH].
  destruct (proxies !! Adapter rule); [|apply IH].
  destruct (isUDP _ && negb _); [apply IH | done].
Qed.

(** [processStep] as the resolution sees it. *)
Lemma processStep_resolve_view (rule : Rule) (st : pass) :
  Host (p_metadata (processStep rule st)) = Host (p_metadata st) /\
  DstIP (p_metadata (processStep rule st)) = DstIP (p_metadata st) /\
  p_resolved (processStep rule st) = p_resolved st /\
  exists F, p_trace (processStep rule st) = p_trace st ++ F /\ onlyFinds F.
Proof.
  unfold Tunnel.processStep.
  destruct (negb (p_processFound st) && ShouldFindProcess rule).
  - destruct (ParseUint16 _); simpl.
    + split; [by destruct (FindProcessName _ _ _)|].
      split; [by destruct (FindProcessName _ _ _)|]. split; [done|].
      eexists; split; [reflexivity|]. by repeat constructor.
    + repeat split. exists []. rewrite app_nil_r. split; [done|constructor].
  - repeat split. exists []. rewrite app_nil_r. split; [done|constructor].
Qed.

(** [resolveStep] as the process lookup sees it. *)
Lemma resolveStep_process_view (rule : Rule) (st : pass) :
  MNetWork (p_metadata (resolveStep rule st)) = MNetWork (p_metadata st) /\
  SrcIP (p_metadata (resolveStep rule st)) = SrcIP (p_metadata st) /\
  SrcPort (p_metadata (resolveStep rule st)) = SrcPort (p_metadata st) /\
  Process (p_metadata (resolveStep rule st)) = Process (p_metadata st) /\
  ProcessPath (p_metadata (resolveStep rule st)) = ProcessPath (p_metadata st) /\
  p_processFound (resolveStep rule st) = p_processFound st /\
  exists R, p_trace (resolveStep rule st) = p_trace st ++ R /\ onlyResolves R.
Proof.
  unfold Tunnel.resolveStep.
  destruct (negb (p_resolved st) && shouldResolveIP rule (p_metadata st)).
  - simpl. destruct (ResolveIP _); simpl; repeat split;
      (eexists; split; [reflexivity|]; by repeat constructor).
  - repeat split. exists []. rewrite app_nil_r. split; [done|constructor].
Qed.

Lemma shouldResolveIP_true (rule : Rule) (md : Metadata) :
  shouldResolveIP rule md = true ->
  ShouldResolveIP rule = true /\ Host md <> EmptyString /\ DstIP md = None.
Proof.
  unfold shouldResolveIP. intros H.
  apply andb_true_iff in H as [H Hip]. apply andb_true_iff in H as [Hr Hh].
  split; [done|]. split.
  - apply negb_true_iff, bool_decide_eq_false in Hh. done.
  - destruct (DstIP md); [done|done].
Qed.

(** One iteration of the loop as the resolution sees it. *)
Lemma iteration_resolve (rule : Rule) (st0 : pass) :
  let st2 := processStep rule (resolveStep rule st0) in
  let md0 := p_metadata st0 in
  let md2 := p_metadata st2 in
  Host md2 = Host md0 /\
  exists R F,
    p_trace st2 = p_trace st0 ++ R ++ F /\ onlyFinds F /\
    ((p_resolved st0 = false /\ shouldResolveIP rule md0 = true /\
      R = [EvResolveIP rule (Host md0) (ResolveIP (Host md0))] /\
      p_resolved st2 = true /\
      DstIP md2 = resolvedIP (ResolveIP (Host md0)))
     \/
     (negb (p_resolved st0) && shouldResolveIP rule md0 = false /\
      R = [] /\ p_resolved st2 = p_resolved st0 /\ DstIP md2 = DstIP md0)).
Proof.
  cbn zeta.
  destruct (processStep_resolve_view rule (resolveStep rule st0))
    as (Hh & Hd & Hr & F & Htr & HF).
  rewrite Hh, Hd, Hr, Htr. clear Hh Hd Hr Htr.
  unfold Tunnel.resolveStep.
  destruct (negb (p_resolved st0) && shouldResolveIP rule (p_metadata st0))
    eqn:Hcond.
  - apply andb_true_iff in Hcond as [Hres Hsh].
    apply negb_true_iff in Hres.
    destruct (shouldResolveIP_true _ _ Hsh) as (_ & _ & Hip).
    cbn [p_metadata p_trace p_resolved].
    split; [by destruct (ResolveIP _)|].
    eexists _, F. split; [by rewrite <- app_assoc|]. split; [done|].
    left. split; [done|]. split; [done|]. split; [done|]. split; [done|].
    destruct (ResolveIP _); simpl; done.
  - split; [done|]. exists [], F. split; [done|]. split; [done|].
    right. done.
Qed.

Lemma match_loop_resolve (rs : list Rule) (st0 : pass) :
  exists evs,
    p_trace (snd (match_loop rs st0)) = p_trace st0 ++ evs /\
    (p_resolved st0 = true ->
       noResolve evs /\
       allMatches (fun _ md => DstIP md = DstIP (p_metadata st0)) evs) /\
    (p_resolved st0 = false ->
       resolvePhase ResolveIP (Host (p_metadata st0)) (DstIP (p_metadata st0)) evs).
Proof.
  revert st0. induction rs as [|rule rest IH]; intros st0.
  - exists []. rewrite app_nil_r. simpl. repeat split; constructor.
  - destruct (iteration_resolve rule st0) as (Hhost & R & F & Htr & HF & Hcase).
    cbn zeta in Hhost, Htr, Hcase.
    pose proof (match_loop_cons rule rest st0) as Hcons. cbn zeta in Hcons.
    set (st2 := processStep rule (resolveStep rule st0)) in *.
    set (md := p_metadata st2) in *.
    set (st3 := mkPass md (p_resolved st2) (p_processFound st2)
                       (p_trace st2 ++ [EvMatch rule md (Match rule md)])) in *.
    assert (Htail : exists tail,
      p_trace (snd (match_loop (rule :: rest) st0))
      = p_trace st0 ++ R ++ F ++ EvMatch rule md (Match rule md) :: tail /\
      (p_resolved st2 = true ->
         noResolve tail /\ allMatches (fun _ md' => DstIP md' = DstIP md) tail) /\
      (p_resolved st2 = false ->
         resolvePhase ResolveIP (Host md) (DstIP md) tail)).
    { destruct Hcons as [Hc|Hc]; rewrite Hc.
      - exists []. unfold st3. cbn [p_trace]. rewrite Htr.
        split; [by rewrite <- !app_assoc|]. repeat split; constructor.
      - destruct (IH st3) as (tail & Htr3 & Hres3 & Hun3).
        exists tail. rewrite Htr3. unfold st3. cbn [p_trace]. rewrite Htr.
        split; [by rewrite <- !app_assoc|]. split; assumption. }
    destruct Htail as (tail & Htrace & Hres & Hun).
    exists (R ++ F ++ EvMatch rule md (Match rule md) :: tail).
    split; [exact Htrace|].
    pose proof (onlyFinds_seen F HF) as HFseen.
    pose proof (onlyFinds_noResolve F HF) as HFno.
    destruct Hcase as [(Hr0 & Hsh & HR & Hr2 & Hip)|(Hcond & HR & Hr2 & Hip)];
      subst R; cbn [app].
    + split; [congruence|]. intros _.
      destruct (shouldResolveIP_true _ _ Hsh) as (Hrule & Hne & Hnone).
      destruct (Hres Hr2) as [Hnot Hall].
      cbn [resolvePhase]. split; [done|]. split; [done|]. split; [done|].
      split; [done|]. split; [done|]. split.
      { apply Forall_app. split; [done|]. by constructor. }
      split; [by apply nextMatchIs_skip|].
      apply allMatches_skip; [done|]. apply allMatches_match.
      split; [done|]. by rewrite <- Hip.
    + split.
      * intros Hr0. rewrite Hr0 in Hr2. destruct (Hres Hr2) as [Hnot Hall].
        split.
        { apply Forall_app. split; [done|]. by constructor. }
        apply allMatches_skip; [done|]. apply allMatches_match.
        split; [done|]. by rewrite <- Hip.
      * intros Hr0. rewrite Hr0 in Hr2, Hcond. simpl in Hcond.
        apply resolvePhase_skip; [done|]. cbn [resolvePhase]. split.
        { unfold shouldResolveIP in *. by rewrite Hhost, Hip. }
        rewrite <- Hhost, <- Hip. by apply Hun.
Qed.

(** One iteration of the loop as the process lookup sees it. *)
Lemma iteration_process (rule : Rule) (st0 : pass) :
  let st2 := processStep rule (resolveStep rule st0) in
  let md0 := p_metadata st0 in
  let md2 := p_metadata st2 in
  sameSource md0 md2 /\
  exists R F,
    p_trace st2 = p_trace st0 ++ R ++ F /\ onlyResolves R /\
    ((p_processFound st0 = false /\ ShouldFindProcess rule = true /\
      p_processFound st2 = true /\
      ((exists port,
          ParseUint16 (SrcPort md0) = Some port /\
          F = [EvFindProcess rule (NetWork_String (MNetWork md0)) (SrcIP md0) port
                 (FindProcessName (NetWork_String (MNetWork md0)) (SrcIP md0) port)] /\
          processLeft Base md0
            (FindProcessName (NetWork_String (MNetWork md0)) (SrcIP md0) port) md2)
       \/ (F = [] /\ sameProcess md0 md2)))
     \/
     (negb (p_processFound st0) && ShouldFindProcess rule = false /\
      F = [] /\ p_processFound st2 = p_processFound st0 /\ sameProcess md0 md2)).
Proof.
  cbn zeta.
  destruct (resolveStep_process_view rule st0)
    as (Hn & Hs & Hp & Hpr & Hpp & Hf & R & Htr & HR).
  unfold Tunnel.processStep. rewrite Hf.
  destruct (negb (p_processFound st0) && ShouldFindProcess rule) eqn:Hcond.
  - apply andb_true_iff in Hcond as [Hpf Hsf]. apply negb_true_iff in Hpf.
    rewrite Hp.
    destruct (ParseUint16 (SrcPort (p_metadata st0))) as [port|] eqn:Hport;
      cbn [p_metadata p_trace p_processFound].
    + rewrite Hn, Hs.
      split.
      { destruct (FindProcessName _ _ _); unfold sameSource; simpl; done. }
      exists R, [EvFindProcess rule (NetWork_String (MNetWork (p_metadata st0)))
                   (SrcIP (p_metadata st0)) port
                   (FindProcessName (NetWork_String (MNetWork (p_metadata st0)))
                      (SrcIP (p_metadata st0)) port)].
      split; [by rewrite Htr, <- app_assoc|]. split; [done|].
      left. split; [done|]. split; [done|]. split; [done|].
      left. exists port. split; [done|]. split; [done|].
      destruct (FindProcessName _ _ _); simpl; done.
    + split; [done|]. exists R, [].
      split; [by rewrite Htr, app_nil_r|]. split; [done|].
      left. split; [done|]. split; [done|]. split; [done|].
      right. done.
  - split; [done|]. exists R, [].
    split; [by rewrite Htr, app_nil_r|]. split; [done|].
    right. done.
Qed.

Lemma match_loop_process (rs : list Rule) (st0 : pass) (md0 : Metadata) :
  sameSource md0 (p_metadata st0) ->
  exists evs,
    p_trace (snd (match_loop rs st0)) = p_trace st0 ++ evs /\
    (p_processFound st0 = true ->
       noFindProcess evs /\
       allMatches (fun _ md => sameProcess (p_metadata st0) md) evs) /\
    (p_processFound st0 = false -> sameProcess md0 (p_metadata st0) ->
       processPhase FindProcessName Base md0 evs \/ noFindProcess evs).
Proof.
  revert st0. induction rs as [|rule rest IH]; intros st0 Hsrc.
  - exists []. rewrite app_nil_r. simpl.
    split; [done|]. split; [intros _; split; constructor|].
    intros _ _. by left.
  - destruct (iteration_process rule st0) as (Hsrc2 & R & F & Htr & HR & Hcase).
    cbn zeta in Hsrc2, Htr, Hcase.
    pose proof (match_loop_cons rule rest st0) as Hcons. cbn zeta in Hcons.
    set (st2 := processStep rule (resolveStep rule st0)) in *.
    set (md := p_metadata st2) in *.
    set (st3 := mkPass md (p_resolved st2) (p_processFound st2)
                       (p_trace st2 ++ [EvMatch rule md (Match rule md)])) in *.
    assert (Hsrc3 : sameSource md0 md).
    { destruct Hsrc as (? & ? & ?), Hsrc2 as (? & ? & ?).
      unfold sameSource. split; [|split]; congruence. }
    assert (Htail : exists tail,
      p_trace (snd (match_loop (rule :: rest) st0))
      = p_trace st0 ++ R ++ F ++ EvMatch rule md (Match rule md) :: tail /\
      (p_processFound st2 = true ->
         noFindProcess tail /\ allMatches (fun _ md' => sameProcess md md') tail) /\
      (p_processFound st2 = false -> sameProcess md0 md ->
         processPhase FindProcessName Base md0 tail \/ noFindProcess tail)).
    { destruct Hcons as [Hc|Hc]; rewrite Hc.
      - exists []. unfold st3. cbn [p_trace]. rewrite Htr.
        split; [by rewrite <- !app_assoc|].
        split; [intros _; split; constructor|]. intros _ _. by left.
      - destruct (IH st3 Hsrc3) as (tail & Htr3 & Hfound3 & Hun3).
        exists tail. rewrite Htr3. unfold st3. cbn [p_trace]. rewrite Htr.
        split; [by rewrite <- !app_assoc|]. split; assumption. }
    destruct Htail as (tail & Htrace & Hfound & Hun).
    exists (R ++ F ++ EvMatch rule md (Match rule md) :: tail).
    split; [exact Htrace|].
    pose proof (onlyResolves_seen R HR) as HRseen.
    pose proof (onlyResolves_noFind R HR) as HRno.
    destruct Hcase as [(Hf0 & Hsf & Hf2 & Hsub)|(Hcond & HF & Hf2 & Hsame)].
    + split; [congruence|]. intros _ Hproc0.
      destruct (Hfound Hf2) as [Hnot Hall].
      destruct Hsub as [(port & Hport & HF & Hleft)|(HF & Hsame)]; subst F.
      * left. apply processPhase_skip; [done|]. cbn [app processPhase].
        destruct Hsrc as (Hn & Hs & Hp). rewrite Hn, Hs, Hp in *.
        split; [done|]. split; [done|]. split; [done|]. split; [done|].
        split; [done|]. split; [by constructor|].
        split; [by apply (nextMatchIs_skip rule md _ [])|].
        assert (Hleft0 : processLeft Base md0
                  (FindProcessName (NetWork_String (MNetWork md0)) (SrcIP md0) port)
                  md).
        { destruct Hproc0 as [Hp1 Hp2].
          unfold processLeft in *.
          destruct (FindProcessName _ _ _); [done|].
          destruct Hleft. split; congruence. }
        apply allMatches_match. split; [done|].
        unfold allMatches in *. eapply Forall_impl; [exact Hall|].
        intros [r' md'] [Hq1 Hq2]. cbn [fst snd] in *.
        unfold processLeft in *.
        destruct (FindProcessName _ _ _); destruct Hleft0; split; congruence.
      * right. cbn [app]. apply Forall_app. split; [done|]. by constructor.
    + subst F. cbn [app]. split.
      * intros Hf0. rewrite Hf0 in Hf2. destruct (Hfound Hf2) as [Hnot Hall].
        split.
        { apply Forall_app. split; [done|]. by constructor. }
        apply allMatches_skip; [done|]. apply allMatches_match.
        split; [done|].
        unfold allMatches in *. eapply Forall_impl; [exact Hall|].
        intros [r' md'] [Hq1 Hq2]. cbn [fst snd] in *.
        destruct Hsame. split; congruence.
      * intros Hf0 Hproc0. rewrite Hf0 in Hf2, Hcond. simpl in Hcond.
        assert (Hproc3 : sameProcess md0 md).
        { destruct Hproc0, Hsame. split; congruence. }
        destruct (Hun Hf2 Hproc3) as [Hph|Hno].
        -- left. apply processPhase_skip; [done|]. cbn [processPhase]. done.
        -- right. apply Forall_app. split; [done|]. by constructor.
Qed.

Lemma noResolve_split (t1 t2 : list event)
  (rule : Rule) (host : string) (res : Addr + error) :
  noResolve (t1 ++ EvResolveIP rule host res :: t2) -> False.
Proof.
  intros H. apply Forall_app in H as [_ H]. by inversion H.
Qed.

Lemma noFindProcess_split (t1 t2 : list event)
  (rule : Rule) (network : string) (srcIP : Addr) (srcPort : Z)
  (res : string + error) :
  noFindProcess (t1 ++ EvFindProcess rule network srcIP srcPort res :: t2) -> False.
Proof.
  intros H. apply Forall_app in H as [_ H]. by inversion H.
Qed.

(** C5: within one pass of [match] nothing aborts the pass (the error is
    nil), and
    - an IP resolution, when the trace has one, is the only one; it is made
      for the host of a metadata without valid destination IP, for a rule
      that asks for resolution, no rule evaluated earlier having asked for
      one in that situation; that rule is the next one evaluated, and every
      rule evaluated from then on sees the resolved IP, or still no IP when
      the resolution failed;
    - a process lookup, when the trace has one, is the only one; it is made
      for a rule that asks for it, no rule evaluated earlier having asked;
      that rule is the next one evaluated, and every rule evaluated from
      then on sees the found process, or the unchanged process fields when
      the lookup failed. *)
Theorem match_lazy_lookups_once (metadata : Metadata) :
  let out := match_ metadata in
  let tr := p_trace (snd out) in
  snd (fst out) = None /\
  (forall t1 rule host res t2,
     tr = t1 ++ EvResolveIP rule host res :: t2 ->
     noResolve t1 /\ noResolve t2 /\
     ShouldResolveIP rule = true /\
     host = Host metadata /\ host <> EmptyString /\ DstIP metadata = None /\
     res = ResolveIP host /\
     allMatches (fun r md => shouldResolveIP r md = false) t1 /\
     nextMatchIs rule t2 /\
     allMatches (fun _ md => DstIP md = resolvedIP res) t2) /\
  (forall t1 rule network srcIP srcPort res t2,
     tr = t1 ++ EvFindProcess rule network srcIP srcPort res :: t2 ->
     noFindProcess t1 /\ noFindProcess t2 /\
     ShouldFindProcess rule = true /\
     network = NetWork_String (MNetWork metadata) /\
     srcIP = SrcIP metadata /\
     ParseUint16 (SrcPort metadata) = Some srcPort /\
     res = FindProcessName network srcIP srcPort /\
     allMatches (fun r _ => ShouldFindProcess r = false) t1 /\
     nextMatchIs rule t2 /\
     allMatches (fun _ md => processLeft Base metadata res md) t2).
Proof.
  cbn zeta. split; [apply match_loop_no_error|]. split.
  - intros t1 rule host res t2 Htr.
    unfold Tunnel.match_ in Htr.
    destruct (Search DefaultHosts (Host metadata)) as [data|];
      match type of Htr with
      | context [match_loop rules ?st] =>
          destruct (match_loop_resolve rules st) as (evs & Hevs & Hres & Hun)
      end;
      rewrite Hevs in Htr; cbn [p_trace app] in Htr; subst evs.
    + destruct (Hres eq_refl) as [Hno _]. by apply noResolve_split in Hno.
    + cbn [p_resolved p_metadata] in Hun.
      destruct (resolvePhase_split _ _ _ _ _ _ _ (Hun eq_refl))
        as (H1 & H2 & H3 & H4 & H5 & H6 & H7 & H8 & H9 & H10).
      repeat (split; [done|]). done.
  - intros t1 rule network srcIP srcPort res t2 Htr.
    unfold Tunnel.match_ in Htr.
    destruct (Search DefaultHosts (Host metadata)) as [data|];
      match type of Htr with
      | context [match_loop rules ?st] =>
          destruct (match_loop_process rules st metadata)
            as (evs & Hevs & _ & Hun); [done|]
      end;
      rewrite Hevs in Htr; cbn [p_trace app] in Htr; subst evs;
      (destruct (Hun eq_refl) as [Hph|Hno];
       [ done
       | destruct (processPhase_split _ _ _ _ _ _ _ _ Hph)
           as (H1 & H2 & H3 & H4 & H5 & H6 & H7 & H8 & H9 & H10);
         repeat (split; [done|]); done
       | by apply noFindProcess_split in Hno ]).
Qed.
End MatchFacts.

(** ** The dispatch scenarios of the spec, run on the model *)

(** Rule precedence: [[Domain("example.com") -> P1; Match -> DIRECT]]. *)
Example match_rule_precedence :
  fst (exMatch [ruleDomain; ruleMatch] exProxies (exMetadata TCP "example.com"))
  = (Some (mkProxy "P1" false), Some ruleDomain, None) /\
  fst (exMatch [ruleDomain; ruleMatch] exProxies (exMetadata TCP "other.com"))
  = (Some (mkProxy "DIRECT" true), Some ruleMatch, None).
Proof. split; vm_compute; reflexivity. Qed.

(** Skip on a missing outbound, and on an outbound without UDP support. *)
Example match_skips_unusable :
  fst (exMatch [ruleDomain; ruleMatch] exProxiesNoP1 (exMetadata TCP "example.com"))
  = (Some (mkProxy "DIRECT" true), Some ruleMatch, None) /\
  fst (exMatch [ruleDomain; ruleMatch] exProxies (exMetadata UDP "example.com"))
  = (Some (mkProxy "DIRECT" true), Some ruleMatch, None) /\
  fst (exMatch [ruleDomain] exProxiesNoP1 (exMetadata TCP "example.com"))
  = (Some (mkProxy "REJECT" true), None, None).
Proof. repeat split; vm_compute; reflexivity. Qed.

(** One resolution and one process lookup serve every later rule. *)
Example match_trace_lazy :
  p_trace (snd (exMatch [ruleDomain; ruleIPCIDR; ruleProcess; ruleIPCIDR]
                  exProxiesNoP1 (exMetadata TCP "missing.example")))
  = [ EvMatch ruleDomain (exMetadata TCP "missing.example") false;
      EvResolveIP ruleIPCIDR "missing.example" (inr "couldn't find ip");
      EvMatch ruleIPCIDR (exMetadata TCP "missing.example") false;
      EvFindProcess ruleProcess "tcp" (Some (IP4 3232235777)) 50000
        (inl "/usr/bin/curl");
      EvMatch ruleProcess
        (set_Process (exMetadata TCP "missing.example") "curl" "/usr/bin/curl")
        true;
      EvMatch ruleIPCIDR
        (set_Process (exMetadata TCP "missing.example") "curl" "/usr/bin/curl")
        false ].
Proof. vm_compute. reflexivity. Qed.
End TunnelProofs.

Module UdpProofs.
Import Udp UdpSpec.

Lemma lookup_wake (c : cond) (l : list point) (t : nat) (p : point) :
  (wake c <$> l) !! t = Some p ->
  exists p0, l !! t = Some p0 /\ p = wake c p0.
Proof.
  rewrite list_lookup_fmap. destruct (l !! t) as [p0|]; [|done].
  simpl. intros [= <-]. by exists p0.
Qed.

Lemma inFlight_wake (c : cond) (p : point) : inFlight (wake c p) = inFlight p.
Proof. destruct p; simpl; try done. by destruct (bool_decide _). Qed.

Lemma step_markerOwned (createOk : nat -> bool) (t : nat) (st st' : State) :
  markerOwned st -> step createOk t st = Some st' -> markerOwned st'.
Proof.
  intros Hinv. unfold step.
  destruct (threads st !! t) as [p|] eqn:Hp; [|done]. simpl.
  assert (Hlt : (t < length (threads st))%nat) by (by eapply lookup_lt_Some).
  assert (Hother : forall (q : point) (tbl : Table) h cs cr,
            inFlight q = false ->
            t_lock tbl = t_lock (table st) ->
            markerOwned (mkState tbl (<[t := q]> (threads st)) h cs cr)).
  { intros q tbl h cs cr Hq Htbl t' p' Hp' Hfl. cbn [threads table] in *.
    destruct (decide (t' = t)) as [->|Hne].
    - rewrite list_lookup_insert_eq in Hp' by done. congruence.
    - rewrite list_lookup_insert_ne in Hp' by done. rewrite Htbl. by eapply Hinv. }
  assert (Hsame : forall (q : point) (tbl : Table) h cs cr,
            inFlight p = true ->
            t_lock tbl = t_lock (table st) ->
            markerOwned (mkState tbl (<[t := q]> (threads st)) h cs cr)).
  { intros q tbl h cs cr Hfl0 Htbl t' p' Hp' Hfl. cbn [threads table] in *.
    rewrite Htbl.
    destruct (decide (t' = t)) as [->|Hne].
    - by eapply Hinv.
    - rewrite list_lookup_insert_ne in Hp' by done. by eapply Hinv. }
  destruct p; simpl.
  - destruct (Get (table st)); intros [= <-]; by apply Hother.
  - unfold GetOrCreateLock. destruct (t_lock (table st)) as [c|] eqn:Hlock.
    + intros [= <-]. by apply Hother.
    + intros [= <-]. intros t' p' Hp' Hfl. cbn [threads table t_lock] in *.
      destruct (decide (t' = t)) as [->|Hne]; [done|].
      rewrite list_lookup_insert_ne in Hp' by done.
      specialize (Hinv t' p' Hp' Hfl). congruence.
  - destruct (bool_decide _); [done|]. intros [= <-]. by apply Hother.
  - intros [= <-]. by apply Hother.
  - done.
  - destruct (bool_decide _); [done|]. intros [= <-]. by apply Hother.
  - intros [= <-]. by apply Hother.
  - intros [= <-]. by apply Hother.
  - destruct (createOk t); intros [= <-]; by apply Hsame.
  - intros [= <-]. by apply Hsame.
  - intros [= <-]. by apply Hsame.
  - intros [= <-]. intros t' p' Hp' Hfl. cbn [threads table] in *.
    destruct (decide (t' = t)) as [->|Hne].
    + rewrite list_lookup_insert_eq in Hp' by done. by injection Hp' as <-.
    + rewrite list_lookup_insert_ne in Hp' by done.
      pose proof (Hinv t' p' Hp' Hfl) as H1.
      pose proof (Hinv t (AtDelete c sent) Hp eq_refl) as H2. congruence.
  - intros [= <-]. intros t' p' Hp' Hfl. cbn [threads table] in *.
    destruct (decide (t' = t)) as [->|Hne].
    + rewrite list_lookup_insert_eq in Hp'
        by (by rewrite length_fmap).
      by injection Hp' as <-.
    + rewrite list_lookup_insert_ne in Hp' by done.
      apply lookup_wake in Hp' as (p0 & Hp0 & ->).
      rewrite inFlight_wake in Hfl. by eapply Hinv.
  - done.
Qed.

(** X23: on every interleaving of the handlers of one flow, at most one
    creation attempt is in flight at any time: two threads between the claim
    of the in-progress marker and its deletion are the same thread. *)
Lemma one_creation_in_flight (createOk : nat -> bool) (n : nat)
  (schedule : list nat) (st : State) :
  run createOk schedule (initial n) = Some st ->
  forall t1 t2 p1 p2,
    threads st !! t1 = Some p1 -> threads st !! t2 = Some p2 ->
    inFlight p1 = true -> inFlight p2 = true -> t1 = t2.
Proof.
  intros Hrun.
  assert (Hinv : markerOwned st).
  { assert (H0 : markerOwned (initial n)).
    { intros t p Hp Hfl. unfold initial in Hp. cbn [threads] in Hp.
      apply lookup_replicate in Hp as [-> _]. done. }
    revert Hrun H0. generalize (initial n).
    induction schedule as [|t rest IH]; intros st0 Hrun H0.
    - by injection Hrun as <-.
    - simpl in Hrun. destruct (step createOk t st0) as [st1|] eqn:Hstep; [|done].
      simpl in Hrun. eapply IH; [exact Hrun|]. by eapply step_markerOwned. }
  intros t1 t2 p1 p2 H1 H2 F1 F2.
  pose proof (Hinv t1 p1 H1 F1). pose proof (Hinv t2 p2 H2 F2). congruence.
Qed.

(** C9 fails on the code.  With two packets of one flow and every creation
    attempt succeeding, one interleaving runs the creation path twice and
    creates two sessions, the second replacing the first in the table; on
    another, the packet that found the marker claimed goes to sleep after
    the broadcast and is never woken, although the session is installed:
    every thread is then asleep or finished, so no schedule can continue. *)
Theorem handleUDPConn_single_creation_fails :
  (exists st,
     run bothOk scheduleTwoCreations (initial 2) = Some st /\
     creations st = [1; 0]%nat /\
     created st = [1; 0]%nat /\
     table st = mkTable (Some 1%nat) None /\
     threads st = [Done (Some 0%nat); Done (Some 1%nat)]) /\
  (exists st,
     run bothOk scheduleLostWakeup (initial 2) = Some st /\
     table st = mkTable (Some 0%nat) None /\
     threads st = [Done (Some 0%nat); Sleeping 0%nat] /\
     step bothOk 0%nat st = None /\ step bothOk 1%nat st = None).
Proof.
  split.
  - eexists. split; [vm_compute; reflexivity|]. repeat split.
  - eexists. split; [vm_compute; reflexivity|]. repeat split.
Qed.

End UdpProofs.

Module TrieProofs.
Import Trie TrieSpec.

Lemma SplitDot_concat (s : string) :
  String.concat "." (Split s) = s.
Proof.
  unfold Split. induction s as [|c rest IH]; [done|].
  simpl. destruct (SplitDot rest) as [h t].
  destruct (bool_decide (c = "."%char)) eqn:Hc.
  - apply bool_decide_eq_true in Hc. subst c.
    change (String.concat "." (EmptyString :: h :: t))
      with (String "." (String.concat "." (h :: t))).
    by rewrite IH.
  - rewrite <- IH. by destruct t.
Qed.

Lemma SplitDot_no_dot (s : string) :
  Forall (fun part => forall a b, part <> (a +:+ String "."%char b)) (Split s).
Proof.
  unfold Split. induction s as [|c rest IH].
  - simpl. constructor; [|constructor]. intros [|? ?] b; simpl; discriminate.
  - simpl. destruct (SplitDot rest) as [h t].
    destruct (bool_decide (c = "."%char)) eqn:Hc.
    + constructor; [|exact IH]. intros [|? ?] b; simpl; discriminate.
    + apply bool_decide_eq_false in Hc.
      inversion IH as [|? ? Hh Ht]; subst. constructor; [|exact Ht].
      intros [|a0 a] b; simpl; intros [= ? ?]; [by subst|].
      by eapply Hh.
Qed.

Lemma ValidAndSplitDomain_Some (domain : string) (parts : list string) :
  ValidAndSplitDomain domain = Some parts ->
  parts = Split domain /\
  Forall (fun part => part <> EmptyString) (tail parts) /\
  domain <> EmptyString /\ lastByte domain <> Some "."%char.
Proof.
  unfold ValidAndSplitDomain.
  destruct (bool_decide (domain <> EmptyString)
            && bool_decide (lastByte domain = Some "."%char)) eqn:Hend; [done|].
  pose proof (SplitDot_concat domain) as Hcat.
  assert (Hlast : domain <> EmptyString -> lastByte domain <> Some "."%char).
  { intros Hne Hl. apply andb_false_iff in Hend as [H|H].
    - by apply bool_decide_eq_false in H.
    - by apply bool_decide_eq_false in H. }
  destruct (Split domain) as [|first [|second rest]] eqn:Hsplit; [done| |].
  - destruct (bool_decide (first = EmptyString)) eqn:Hf; [done|].
    apply bool_decide_eq_false in Hf. intros [= <-].
    simpl in Hcat. subst first.
    repeat split; [constructor|done|by apply Hlast].
  - destruct (existsb _ (second :: rest)) eqn:Hex; [done|]. intros [= <-].
    assert (Hne : domain <> EmptyString).
    { intros ->. unfold Split in Hsplit. simpl in Hsplit. discriminate. }
    split; [done|]. split; [|split; [done|by apply Hlast]].
    simpl. apply Forall_forall. intros part Hin Hempty.
    apply not_true_iff_false in Hex. apply Hex.
    apply existsb_exists. exists part. split.
    + by apply list_elem_of_In.
    + by apply bool_decide_eq_true.
Qed.

Lemma ValidAndSplitDomain_nonempty (domain : string) :
  ValidAndSplitDomain domain <> Some [].
Proof.
  intros H. apply ValidAndSplitDomain_Some in H as (Hs & _).
  unfold Split in Hs. by destruct (SplitDot domain).
Qed.

Lemma ValidAndSplitDomain_concat (domain : string) (parts : list string) :
  ValidAndSplitDomain domain = Some parts -> String.concat "." parts = domain.
Proof.
  intros H. apply ValidAndSplitDomain_Some in H as [-> _]. apply SplitDot_concat.
Qed.

Lemma ValidAndSplitDomain_inj (d1 d2 : string) (parts : list string) :
  ValidAndSplitDomain d1 = Some parts -> ValidAndSplitDomain d2 = Some parts -> d1 = d2.
Proof.
  intros H1 H2. apply ValidAndSplitDomain_concat in H1, H2. congruence.
Qed.

(** X1: when [ValidAndSplitDomain] accepts a domain, the parts it returns
    are the labels of the domain: joined with dots they give the domain
    back, none of them contains a dot, and none but possibly the first is
    empty; it rejects the empty string and every domain ending in a dot. *)
Theorem ValidAndSplitDomain_parts (domain : string) :
  (forall parts, ValidAndSplitDomain domain = Some parts ->
     parts <> [] /\
     String.concat "." parts = domain /\
     Forall (fun part => forall a b, part <> (a +:+ String "."%char b)) parts /\
     Forall (fun part => part <> EmptyString) (tail parts)) /\
  (domain = EmptyString -> ValidAndSplitDomain domain = None) /\
  (lastByte domain = Some "."%char -> ValidAndSplitDomain domain = None).
Proof.
  split; [|split].
  - intros parts Hparts. pose proof (ValidAndSplitDomain_concat _ _ Hparts) as Hcat.
    apply ValidAndSplitDomain_Some in Hparts as (-> & Hrest & _ & _).
    split; [unfold Split; by destruct (SplitDot domain)|].
    split; [done|]. split; [apply SplitDot_no_dot|done].
  - intros ->. done.
  - intros Hl. unfold ValidAndSplitDomain.
    destruct domain; [done|]. rewrite Hl.
    rewrite !bool_decide_eq_true_2; done.
Qed.

Section TrieFacts.

Context {T : Type} (zero : T) `{EqDecision T}.

Local Abbreviation Node := (@Node T).
Local Abbreviation insert_from := (@insert_from T zero).
Local Abbreviation search_from := (@search_from T zero _).
Local Abbreviation found := (@found T zero _).
Local Abbreviation Insert := (@Insert T zero).
Local Abbreviation Search := (@Search T zero _).
Local Abbreviation Inserts := (@Inserts T zero).
Local Abbreviation New := (@New T zero).

Local Arguments Trie.found : simpl never.

Lemma found_Some (n : Node) : Data n <> zero -> found (Some n) = Some n.
Proof. intros Hn. unfold Trie.found. by rewrite bool_decide_eq_true_2. Qed.

Lemma found_inv (o : option Node) (n : Node) :
  found o = Some n -> o = Some n /\ Data n <> zero.
Proof.
  unfold Trie.found. destruct o as [m|]; [|done].
  destruct (bool_decide (Data m <> zero)) eqn:Hd; [|done].
  apply bool_decide_eq_true in Hd. by intros [= <-].
Qed.

(** The exact path has priority. *)
Lemma search_at_path (rparts : list string) (node n : Node) :
  at_path rparts node = Some n -> Data n <> zero ->
  search_from rparts node = Some n.
Proof.
  revert node. induction rparts as [|part rest IH]; intros node; simpl.
  - by intros [= <-].
  - destruct (getChild node part) as [c|]; [|done]. simpl.
    intros Hc Hn. rewrite (IH c Hc Hn). by rewrite found_Some.
Qed.

Lemma at_path_insert (rparts : list string) (data : T) (node : Node) :
  exists n, at_path rparts (insert_from rparts data node) = Some n /\ Data n = data.
Proof.
  revert node. induction rparts as [|part rest IH]; intros node; simpl.
  - by eexists.
  - unfold getChild at 1. simpl. rewrite lookup_insert_eq. simpl. apply IH.
Qed.

(** Inserting under other labels leaves the data under exact labels alone. *)
Lemma at_path_insert_other (rp rq : list string) (d : T) (node n : Node) :
  rp <> rq -> at_path rp node = Some n ->
  exists n', at_path rp (insert_from rq d node) = Some n' /\ Data n' = Data n.
Proof.
  revert rq node. induction rp as [|p rp IH]; intros rq node Hne; simpl.
  - intros [= <-]. destruct rq as [|q rq]; [done|]. simpl. by eexists.
  - destruct (getChild node p) as [c|] eqn:Hc; [|done]. simpl. intros Hn.
    destruct rq as [|q rq]; simpl.
    + unfold getChild in *. simpl. rewrite Hc. simpl. by eexists.
    + destruct (decide (q = p)) as [->|Hqp].
      * unfold getChild at 1. simpl. rewrite lookup_insert_eq. simpl.
        rewrite Hc. apply IH; [congruence|done].
      * unfold getChild at 1. simpl. rewrite lookup_insert_ne by done.
        unfold getChild in Hc. rewrite Hc. simpl. by eexists.
Qed.

Lemma found_None_zero (o : option Node) :
  found o = None <-> (forall n, o = Some n -> Data n = zero).
Proof.
  unfold Trie.found. destruct o as [m|]; [|done].
  destruct (decide (Data m = zero)) as [Hz|Hz].
  - rewrite bool_decide_eq_false_2 by tauto. split; [|done]. by intros _ n [= <-].
  - rewrite bool_decide_eq_true_2 by done. split; [done|]. intros Hm. by destruct Hz, (Hm m).
Qed.

(** A hit below the child reached by the label itself is the result. *)
Lemma search_from_static (part : string) (rest : list string) (node c : Node) :
  getChild node part = Some c ->
  (exists n, search_from rest c = Some n /\ Data n <> zero) ->
  exists n, search_from (part :: rest) node = Some n /\ Data n <> zero.
Proof.
  intros Hc (n & Hs & Hn). exists n. simpl. rewrite Hc. simpl.
  by rewrite Hs, found_Some.
Qed.

Lemma getChild_insert_from (part : string) (rest : list string) (data : T) (node : Node) :
  exists c, getChild (insert_from (part :: rest) data node) part
            = Some (insert_from rest data c).
Proof. eexists. simpl. unfold getChild. simpl. by rewrite lookup_insert_eq. Qed.

(** [*] under the labels [rbase] is found for any label in its place. *)
Lemma search_from_star (rbase : list string) (label : string) (data : T) (node : Node) :
  data <> zero ->
  exists n, search_from (rbase ++ [label]) (insert_from (rbase ++ [wildcard]) data node)
            = Some n /\ Data n <> zero.
Proof.
  intros Hdata. revert node. induction rbase as [|p rbase IH]; intros node.
  - cbn [app Trie.search_from Trie.insert_from].
    set (leaf := mkNode data _).
    assert (Hstar : forall s, getChild (mkNode (Data node)
              (<[wildcard := leaf]> (children node))) s
              = if decide (s = wildcard) then Some leaf else getChild node s).
    { intros s. unfold getChild. simpl. destruct (decide (s = wildcard)) as [->|Hs].
      - by rewrite lookup_insert_eq.
      - by rewrite lookup_insert_ne. }
    rewrite !Hstar. rewrite (decide_True (P := wildcard = wildcard)) by done.
    destruct (decide (label = wildcard)) as [->|Hl]; simpl.
    + rewrite found_Some by done. by exists leaf.
    + destruct (getChild node label) as [c|]; simpl.
      * unfold Trie.found at 1. destruct (bool_decide (Data c <> zero)) eqn:Hc.
        -- apply bool_decide_eq_true in Hc. by exists c.
        -- rewrite found_Some by done. by exists leaf.
      * rewrite found_Some by done. by exists leaf.
  - rewrite <- !app_comm_cons.
    destruct (getChild_insert_from p (rbase ++ [wildcard]) data node) as [c Hc].
    eapply search_from_static; [exact Hc|]. apply IH.
Qed.

(** The dot wildcard under the labels [rbase] is found for any further
    labels. *)
Lemma search_from_dot (rbase rextra : list string) (data : T) (node : Node) :
  data <> zero -> rextra <> [] ->
  exists n, search_from (rbase ++ rextra) (insert_from (rbase ++ [dotWildcard]) data node)
            = Some n /\ Data n <> zero.
Proof.
  intros Hdata Hextra. revert node. induction rbase as [|p rbase IH]; intros node.
  - destruct rextra as [|r rs]; [done|].
    cbn [app Trie.search_from Trie.insert_from].
    set (leaf := mkNode data _). set (node' := mkNode _ _).
    assert (Hdot : getChild node' dotWildcard = Some leaf).
    { unfold getChild, node'. simpl. by rewrite lookup_insert_eq. }
    destruct (found (getChild node' r ≫= fun c => search_from rs c)) as [n|] eqn:H1.
    { apply found_inv in H1 as [_ Hn]. by exists n. }
    destruct (found (getChild node' wildcard ≫= fun c => search_from rs c)) as [n|] eqn:H2.
    { apply found_inv in H2 as [_ Hn]. by exists n. }
    rewrite Hdot. by exists leaf.
  - rewrite <- !app_comm_cons.
    destruct (getChild_insert_from p (rbase ++ [dotWildcard]) data node) as [c Hc].
    eapply search_from_static; [exact Hc|]. apply IH.
Qed.

(** On a leaf only the empty list of labels is found. *)
Lemma search_from_leaf (rq : list string) (data : T) :
  search_from rq (mkNode data ∅)
  = match rq with [] => Some (mkNode data ∅) | _ :: _ => None end.
Proof. destruct rq as [|l rq]; [done|]. by simpl. Qed.

Lemma insert_from_fresh (p : string) (rp : list string) (data : T) :
  insert_from (p :: rp) data (newNode zero)
  = mkNode zero {[ p := insert_from rp data (newNode zero) ]}.
Proof. simpl. unfold getChild. simpl. by rewrite lookup_empty. Qed.

Lemma getChild_singleton (p s : string) (c : Node) :
  getChild (mkNode zero {[ p := c ]}) s = if decide (s = p) then Some c else None.
Proof.
  unfold getChild. simpl. destruct (decide (s = p)) as [->|Hs].
  - by rewrite lookup_singleton_eq.
  - by rewrite lookup_singleton_ne.
Qed.

(** In a trie holding one entry, [*] hands out that entry. *)
Lemma search_from_star_fresh (rbase : list string) (label : string) (data : T) :
  data <> zero ->
  search_from (rbase ++ [label]) (insert_from (rbase ++ [wildcard]) data (newNode zero))
  = Some (newNode data).
Proof.
  intros Hdata. induction rbase as [|p rbase IH].
  - cbn [app]. rewrite insert_from_fresh. cbn [Trie.search_from Trie.insert_from].
    rewrite !getChild_singleton. rewrite (decide_True (P := wildcard = wildcard)) by done.
    simpl. destruct (decide (label = wildcard)); simpl; by rewrite found_Some.
  - rewrite <- !app_comm_cons, insert_from_fresh. cbn [Trie.search_from].
    rewrite getChild_singleton, decide_True by done. simpl.
    rewrite IH. by rewrite found_Some.
Qed.

Lemma search_from_dot_fresh (rbase rextra : list string) (data : T) :
  data <> zero -> rextra <> [] ->
  search_from (rbase ++ rextra) (insert_from (rbase ++ [dotWildcard]) data (newNode zero))
  = Some (newNode data).
Proof.
  intros Hdata Hextra. induction rbase as [|p rbase IH].
  - destruct rextra as [|r rs]; [done|].
    cbn [app]. rewrite insert_from_fresh. cbn [Trie.search_from Trie.insert_from].
    rewrite !getChild_singleton. rewrite (decide_True (P := dotWildcard = dotWildcard)) by done.
    rewrite (decide_False (P := wildcard = dotWildcard)) by done.
    destruct (decide (r = dotWildcard)); simpl; [|done].
    change (mkNode data (children (newNode zero))) with (mkNode data ∅).
    rewrite search_from_leaf. destruct rs; [|reflexivity].
    by rewrite found_Some.
  - rewrite <- !app_comm_cons, insert_from_fresh. cbn [Trie.search_from].
    rewrite getChild_singleton, decide_True by done. simpl.
    rewrite IH. by rewrite found_Some.
Qed.

(** In a trie holding one entry under the dot wildcard, the labels beneath
    the wildcard alone are not found. *)
Lemma search_from_dot_bare (rbase : list string) (data : T) :
  Forall (fun l => l <> dotWildcard) rbase ->
  found (search_from rbase (insert_from (rbase ++ [dotWildcard]) data (newNode zero))) = None.
Proof.
  induction 1 as [|p rbase Hp Hrest IH].
  - cbn [app]. by rewrite insert_from_fresh, found_None_zero; intros n [= <-].
  - rewrite <- !app_comm_cons, insert_from_fresh. cbn [Trie.search_from].
    rewrite !getChild_singleton. rewrite decide_True by done. simpl. rewrite IH.
    rewrite (decide_False (P := dotWildcard = p)) by done.
    destruct (decide (wildcard = p)); simpl; by rewrite ?IH.
Qed.

(** In a trie holding one entry under plain labels, those labels and no
    others are found. *)
Lemma search_from_plain_fresh (rp rq : list string) (data : T) :
  Forall plain rp -> data <> zero ->
  found (search_from rq (insert_from rp data (newNode zero)))
  = if decide (rq = rp) then Some (newNode data) else None.
Proof.
  intros Hplain Hdata. revert rq. induction Hplain as [|p rp [Hd Hw] Hrest IH]; intros rq.
  - simpl. change (mkNode data (children (newNode zero))) with (mkNode data ∅).
    rewrite search_from_leaf. destruct rq; [|reflexivity].
    rewrite decide_True by done. by rewrite found_Some.
  - rewrite insert_from_fresh. destruct rq as [|l rq].
    + rewrite decide_False by done. by rewrite found_None_zero; intros n [= <-].
    + cbn [Trie.search_from]. rewrite !getChild_singleton.
      rewrite (decide_False (P := wildcard = p)) by done.
      rewrite (decide_False (P := dotWildcard = p)) by done.
      destruct (decide (l = p)) as [->|Hl]; simpl.
      * rewrite IH. destruct (decide (rq = rp)) as [->|Hne].
        -- rewrite decide_True by done. by rewrite found_Some.
        -- by rewrite decide_False by congruence.
      * by rewrite decide_False by congruence.
Qed.

Lemma Search_parts (root : Node) (q first : string) (rest : list string) :
  ValidAndSplitDomain q = Some (first :: rest) -> first <> EmptyString ->
  Search root q = found (search_from (rev rest ++ [first]) root).
Proof.
  intros Hq Hfirst. unfold Trie.Search. rewrite Hq.
  by rewrite bool_decide_eq_false_2.
Qed.

Lemma Insert_parts (root : Node) (domain first : string) (rest : list string) (data : T) :
  ValidAndSplitDomain domain = Some (first :: rest) -> first <> complexWildcard ->
  Insert root domain data = (insert_from (rev rest ++ [first]) data root, None).
Proof.
  intros Hd Hfirst. unfold Trie.Insert. rewrite Hd.
  by rewrite bool_decide_eq_false_2.
Qed.

Lemma Insert_complex (root : Node) (domain : string) (base : list string) (data : T) :
  ValidAndSplitDomain domain = Some (complexWildcard :: base) ->
  Insert root domain data
  = (insert_from (rev base ++ [dotWildcard]) data (insert_from (rev base) data root), None).
Proof. intros Hd. unfold Trie.Insert. by rewrite Hd. Qed.

Lemma Insert_keeps_path (t : Node) (e : string) (d : T) (parts : list string) (n : Node) :
  head parts <> Some dotWildcard ->
  ValidAndSplitDomain e <> Some parts ->
  ValidAndSplitDomain e <> Some (complexWildcard :: parts) ->
  at_path (rev parts) t = Some n ->
  exists n', at_path (rev parts) (Insert t e d).1 = Some n' /\ Data n' = Data n.
Proof.
  intros Hhead He Hplus Hn. unfold Trie.Insert.
  destruct (ValidAndSplitDomain e) as [[|f r]|]; simpl; [by eexists| |by eexists].
  destruct (bool_decide (f = complexWildcard)) eqn:Hf; simpl.
  - apply bool_decide_eq_true in Hf. subst f.
    destruct (at_path_insert_other (rev parts) (rev r) d t n) as (n1 & Hn1 & Hd1);
      [|done|].
    { intros Heq. apply rev_inj in Heq. congruence. }
    destruct (at_path_insert_other (rev parts) (rev (dotWildcard :: r)) d
                (insert_from (rev r) d t) n1) as (n2 & Hn2 & Hd2); [|done|].
    { intros Heq. apply rev_inj in Heq. subst parts. by apply Hhead. }
    exists n2. split; [done|congruence].
  - apply at_path_insert_other; [|done].
    intros Heq. apply rev_inj in Heq. congruence.
Qed.

Lemma Inserts_keep_path (later : list (string * T)) (parts : list string) (t n : Node) :
  head parts <> Some dotWildcard ->
  Forall (fun e => ValidAndSplitDomain e.1 <> Some parts /\
                   ValidAndSplitDomain e.1 <> Some (complexWildcard :: parts)) later ->
  at_path (rev parts) t = Some n ->
  exists n', at_path (rev parts) (Inserts t later) = Some n' /\ Data n' = Data n.
Proof.
  intros Hhead Hlater. revert t n.
  induction Hlater as [|e later [He Hplus] _ IH]; intros t n Hn; [by eexists|].
  destruct (Insert_keeps_path t e.1 e.2 parts n Hhead He Hplus Hn) as (n1 & Hn1 & Hd1).
  destruct (IH _ _ Hn1) as (n2 & Hn2 & Hd2).
  exists n2. split; [exact Hn2|congruence].
Qed.

(** An exact entry stays the result of a search for its name while other
    names are inserted. *)
Lemma Search_kept (t n : Node) (later : list (string * T)) (domain first : string)
    (rest : list string) :
  ValidAndSplitDomain domain = Some (first :: rest) ->
  first <> dotWildcard ->
  Forall (fun e => e.1 <> domain /\ e.1 <> ("+." +:+ domain)%string) later ->
  at_path (rev (first :: rest)) t = Some n -> Data n <> zero ->
  exists n', Search (Inserts t later) domain = Some n' /\ Data n' = Data n.
Proof.
  intros Hd Hdot Hlater Hn0 Hz.
  destruct (Inserts_keep_path later (first :: rest) t n) as (n' & Hn & Hdn).
  - simpl. congruence.
  - eapply Forall_impl; [exact Hlater|]. intros e [He1 He2]. split.
    + intros He. apply He1. by eapply ValidAndSplitDomain_inj.
    + intros He. apply He2. apply ValidAndSplitDomain_concat in He, Hd.
      rewrite <- He, <- Hd. reflexivity.
  - exact Hn0.
  - exists n'. split; [|done].
    rewrite (Search_parts _ _ _ _ Hd Hdot). simpl in Hn.
    rewrite (search_at_path _ _ n' Hn) by congruence.
    apply found_Some. congruence.
Qed.

(** X2: an entry inserted under a name that is neither a dot nor a [+]
    pattern is found again under that name, in any trie and after any later
    insertions of other names (other than the [+] pattern over the same
    name, which replaces it): the search returns the data inserted. *)
Theorem Insert_Search_round_trip (root : Node) (domain first : string)
    (rest : list string) (data : T) (later : list (string * T)) :
  ValidAndSplitDomain domain = Some (first :: rest) ->
  first <> dotWildcard -> first <> complexWildcard ->
  data <> zero ->
  Forall (fun e => e.1 <> domain /\ e.1 <> ("+." +:+ domain)%string) later ->
  (Insert root domain data).2 = None /\
  exists n, Search (Inserts (Insert root domain data).1 later) domain = Some n /\
            Data n = data.
Proof.
  intros Hd Hdot Hplus Hdata Hlater.
  rewrite (Insert_parts _ _ _ _ _ Hd Hplus). split; [done|]. simpl.
  destruct (at_path_insert (rev (first :: rest)) data root) as (n0 & Hn0 & Hd0).
  destruct (Search_kept _ n0 later domain first rest Hd Hdot Hlater Hn0)
    as (n & Hn & Hdn); [congruence|].
  exists n. split; [exact Hn|congruence].
Qed.

(** X3: a pattern whose first label is [*] matches every name that has any
    non-empty label in its place and the same labels after it, whatever
    else the trie holds; in a trie holding this entry alone the search
    returns it. *)
Theorem Search_wildcard_label (root : Node) (domain q label : string)
    (base : list string) (data : T) :
  ValidAndSplitDomain domain = Some (wildcard :: base) ->
  ValidAndSplitDomain q = Some (label :: base) ->
  label <> EmptyString -> data <> zero ->
  (exists n, Search (Insert root domain data).1 q = Some n /\ Data n <> zero) /\
  Search (Insert New domain data).1 q = Some (newNode data).
Proof.
  intros Hd Hq Hlabel Hdata.
  rewrite !(Insert_parts _ _ _ _ _ Hd) by done.
  rewrite !(Search_parts _ _ _ _ Hq Hlabel). simpl. split.
  - destruct (search_from_star (rev base) label data root Hdata) as (n & Hn & Hz).
    exists n. rewrite Hn. by rewrite found_Some.
  - unfold Trie.New. rewrite search_from_star_fresh by done. by rewrite found_Some.
Qed.

(** X4: a pattern that starts with a dot matches every name with one or
    more labels before the pattern's labels, whatever else the trie holds;
    in a trie holding this entry alone the search returns it, and the name
    made of the pattern's labels alone is not found. *)
Theorem Search_dot_wildcard (root : Node) (domain q : string)
    (base extra : list string) (data : T) :
  ValidAndSplitDomain domain = Some (dotWildcard :: base) ->
  ValidAndSplitDomain q = Some (extra ++ base) ->
  extra <> [] -> head extra <> Some EmptyString -> data <> zero ->
  (exists n, Search (Insert root domain data).1 q = Some n /\ Data n <> zero) /\
  Search (Insert New domain data).1 q = Some (newNode data) /\
  (forall q0, ValidAndSplitDomain q0 = Some base ->
     Search (Insert New domain data).1 q0 = None).
Proof.
  intros Hd Hq Hextra Hhead Hdata.
  rewrite !(Insert_parts _ _ _ _ _ Hd) by done. simpl.
  destruct extra as [|e extra]; [done|].
  assert (He : e <> EmptyString) by (simpl in Hhead; congruence).
  rewrite <- app_comm_cons in Hq.
  rewrite !(Search_parts _ _ _ _ Hq He).
  assert (Hrev : rev (extra ++ base) ++ [e] = rev base ++ (rev extra ++ [e])).
  { by rewrite rev_app_distr, <- app_assoc. }
  rewrite Hrev.
  assert (Hne : rev extra ++ [e] <> []) by (by destruct (rev extra)).
  split; [|split].
  - destruct (search_from_dot (rev base) _ data root Hdata Hne) as (n & Hn & Hz).
    exists n. rewrite Hn. by rewrite found_Some.
  - unfold Trie.New. rewrite search_from_dot_fresh by done. by rewrite found_Some.
  - intros q0 Hq0. apply ValidAndSplitDomain_Some in Hd as (_ & Hbase & _ & _).
    simpl in Hbase. unfold Trie.Search. rewrite Hq0.
    destruct base as [|b base]; [done|].
    destruct (bool_decide (b = EmptyString)); [done|].
    unfold Trie.search, Trie.New. apply search_from_dot_bare.
    by apply Forall_rev.
Qed.

(** X5: a pattern that starts with [+] matches the name made of its
    remaining labels, for which the search returns the data inserted, and
    every name with further labels before them, whatever else the trie
    holds. *)
Theorem Search_complex_wildcard (root : Node) (domain : string)
    (base : list string) (data : T) :
  ValidAndSplitDomain domain = Some (complexWildcard :: base) ->
  data <> zero ->
  (Insert root domain data).2 = None /\
  forall q extra,
    ValidAndSplitDomain q = Some (extra ++ base) ->
    head (extra ++ base) <> Some EmptyString ->
    exists n, Search (Insert root domain data).1 q = Some n /\ Data n <> zero /\
              (extra = [] -> Data n = data).
Proof.
  intros Hd Hdata. rewrite (Insert_complex _ _ _ _ Hd). split; [done|].
  intros q extra Hq Hhead. simpl.
  destruct (extra ++ base) as [|first rest] eqn:Hparts.
  { by apply ValidAndSplitDomain_nonempty in Hq. }
  assert (Hfirst : first <> EmptyString) by (simpl in Hhead; congruence).
  rewrite (Search_parts _ _ _ _ Hq Hfirst).
  change (rev rest ++ [first]) with (rev (first :: rest)). rewrite <- Hparts.
  destruct extra as [|e extra].
  - simpl. destruct (at_path_insert (rev base) data root) as (n0 & Hn0 & Hd0).
    destruct (at_path_insert_other (rev base) (rev base ++ [dotWildcard]) data
                (insert_from (rev base) data root) n0) as (n & Hn & Hdn);
      [|exact Hn0|].
    { intros Heq. apply (f_equal length) in Heq. rewrite length_app in Heq.
      simpl in Heq. lia. }
    exists n. rewrite (search_at_path _ _ n Hn) by congruence.
    rewrite found_Some by congruence. repeat split; congruence.
  - rewrite rev_app_distr.
    assert (Hne : rev (e :: extra) <> []) by (simpl; by destruct (rev extra)).
    destruct (search_from_dot (rev base) _ data (insert_from (rev base) data root)
                Hdata Hne) as (n & Hn & Hz).
    exists n. rewrite Hn. rewrite found_Some by done. by repeat split.
Qed.

(** X6: in a trie holding one entry under a name without wildcard labels,
    a search finds that entry for this name and nothing for any other
    string. *)
Theorem Search_plain_only (domain : string) (parts : list string) (data : T) (q : string) :
  ValidAndSplitDomain domain = Some parts ->
  Forall plain parts -> head parts <> Some complexWildcard -> data <> zero ->
  Search (Insert New domain data).1 q
  = if decide (q = domain) then Some (newNode data) else None.
Proof.
  intros Hd Hplain Hplus Hdata.
  destruct parts as [|first rest].
  { by apply ValidAndSplitDomain_nonempty in Hd. }
  assert (Hfirst : first <> complexWildcard) by (simpl in Hplus; congruence).
  rewrite (Insert_parts _ _ _ _ _ Hd Hfirst). simpl.
  destruct (decide (q = domain)) as [->|Hq].
  - inversion Hplain as [|? ? [Hdot _] _]; subst.
    rewrite (Search_parts _ _ _ _ Hd Hdot).
    change (rev rest ++ [first]) with (rev (first :: rest)).
    unfold Trie.New. rewrite search_from_plain_fresh by (by try apply Forall_rev).
    by rewrite decide_True.
  - unfold Trie.Search.
    destruct (ValidAndSplitDomain q) as [[|qfirst qrest]|] eqn:Hvq; [done| |done].
    destruct (bool_decide (qfirst = EmptyString)); [done|].
    unfold Trie.search, Trie.New.
    change (rev rest ++ [first]) with (rev (first :: rest)).
    rewrite search_from_plain_fresh by (by try apply Forall_rev).
    rewrite decide_False; [done|].
    intros Heq. apply rev_inj in Heq. apply Hq.
    eapply ValidAndSplitDomain_inj; [exact Hvq|]. by rewrite Heq.
Qed.

End TrieFacts.

Lemma Insert_Search_round_trip_witness :
  ValidAndSplitDomain "www.example.com" = Some ["www"; "example"; "com"] /\
  (Insert (None : Addr) (New None) "www.example.com" (Some (IP4 2130706433))).2 = None /\
  exists n,
    Search None
      (Inserts None (Insert None (New None) "www.example.com" (Some (IP4 2130706433))).1
         [("*.example.com", Some (IP4 1)); ("+.example.org", Some (IP4 2));
          ("example.com", Some (IP4 3))])
      "www.example.com" = Some n /\
    Data n = Some (IP4 2130706433).
Proof.
  split; [reflexivity|].
  apply (Insert_Search_round_trip None (New None) "www.example.com" "www"
           ["example"; "com"] (Some (IP4 2130706433))); [reflexivity|done|done|done|].
  repeat constructor; discriminate.
Defined.

Lemma Search_wildcard_label_witness :
  (exists n,
     Search None (Insert (None : Addr) (New None) "*.clash.dev" (Some (IP4 2130706433))).1
       "api.clash.dev" = Some n /\ Data n <> None) /\
  Search None (Insert (None : Addr) (New None) "*.clash.dev" (Some (IP4 2130706433))).1
    "api.clash.dev" = Some (newNode (Some (IP4 2130706433))).
Proof.
  apply (Search_wildcard_label None (New None) "*.clash.dev" "api.clash.dev" "api"
           ["clash"; "dev"] (Some (IP4 2130706433))); [reflexivity|reflexivity|done|done].
Defined.

Lemma Search_dot_wildcard_witness :
  (exists n,
     Search None (Insert (None : Addr) (New None) ".clash.dev" (Some (IP4 2130706433))).1
       "a.b.clash.dev" = Some n /\ Data n <> None) /\
  Search None (Insert (None : Addr) (New None) ".clash.dev" (Some (IP4 2130706433))).1
    "a.b.clash.dev" = Some (newNode (Some (IP4 2130706433))) /\
  (forall q0, ValidAndSplitDomain q0 = Some ["clash"; "dev"] ->
     Search None (Insert (None : Addr) (New None) ".clash.dev" (Some (IP4 2130706433))).1
       q0 = None).
Proof.
  apply (Search_dot_wildcard None (New None) ".clash.dev" "a.b.clash.dev"
           ["clash"; "dev"] ["a"; "b"] (Some (IP4 2130706433)));
    [reflexivity|reflexivity|done|done|done].
Defined.

Lemma Search_complex_wildcard_witness :
  (Insert (None : Addr) (New None) "+.clash.dev" (Some (IP4 2130706433))).2 = None /\
  forall q extra,
    ValidAndSplitDomain q = Some (extra ++ ["clash"; "dev"]) ->
    head (extra ++ ["clash"; "dev"]) <> Some EmptyString ->
    exists n,
      Search None (Insert (None : Addr) (New None) "+.clash.dev" (Some (IP4 2130706433))).1 q
      = Some n /\
      Data n <> None /\ (extra = [] -> Data n = Some (IP4 2130706433)).
Proof.
  apply (Search_complex_wildcard None (New None) "+.clash.dev" ["clash"; "dev"]
           (Some (IP4 2130706433))); [reflexivity|done].
Defined.

Lemma Search_plain_only_witness :
  Search None (Insert (None : Addr) (New None) "clash.dev" (Some (IP4 2130706433))).1
    "www.clash.dev" = None /\
  Search None (Insert (None : Addr) (New None) "clash.dev" (Some (IP4 2130706433))).1
    "clash.dev" = Some (newNode (Some (IP4 2130706433))).
Proof.
  split.
  - apply (Search_plain_only None "clash.dev" ["clash"; "dev"] (Some (IP4 2130706433))
             "www.clash.dev"); [reflexivity| |done|done].
    repeat constructor; discriminate.
  - apply (Search_plain_only None "clash.dev" ["clash"; "dev"] (Some (IP4 2130706433))
             "clash.dev"); [reflexivity| |done|done].
    repeat constructor; discriminate.
Defined.

End TrieProofs.

Module DnsFacts.
Import Dns DnsSpec DnsExamples.

Lemma msgToIP_withMsgTTL (v : Msg) (ttl : Z) : msgToIP (withMsgTTL v ttl) = msgToIP v.
Proof.
  unfold msgToIP. simpl. induction (Answer v) as [|rr rrs IH]; [done|].
  simpl. rewrite IH. by destruct (Data rr).
Qed.

Section Cache.

Variable QS : Question -> string.

(** What a call that hits the cache returns and leaves behind. *)
Lemma ExchangeContext_hit_eq (w : World) (r : Resolver) (m : Msg)
  (q : Question) (qs : list Question) (role : flight)
  (net : Upstream) (clock : nat -> Z)
  (cacheM : ptr) (expireTime : Z) (cached : Msg) :
  Questions m = q :: qs ->
  lruCache w !! QS q = Some (cacheM, expireTime) ->
  objs w !! cacheM = Some cached ->
  ExchangeContext QS w r m role net clock
  = Some (mkOutcome
            (mkWorld (<[length (objs w) :=
                         withMsgTTL cached
                           (if (expireTime <? clock 0%nat)%Z then 1%Z
                            else secondsU32 (expireTime - clock 1%nat))]>
                        (objs w ++ [cached]))
                     (lruCache w))
            (POk (length (objs w))) []
            (if (expireTime <? clock 0%nat)%Z then [m] else [])).
Proof.
  intros Hq Hhit Hobj.
  unfold ExchangeContext, GetWithExpire. rewrite Hq, Hhit.
  unfold Copy, alloc. rewrite Hobj. simpl.
  unfold setMsgTTL. rewrite DnsProofs.alloc_lookup_new. simpl.
  by destruct (expireTime <? clock 0%nat)%Z.
Qed.

(** What a call that misses the cache and gets an answer leaves behind. *)
Lemma ExchangeContext_miss_answer (w : World) (r : Resolver) (m : Msg)
  (q : Question) (qs : list Question) (shared : bool)
  (net : Upstream) (clock : nat -> Z) (v : Msg) (rr : RR) (log : list query) :
  Questions m = q :: qs ->
  lruCache w !! QS q = None ->
  run net (exchange_upstream r m q) = (Ok v, log) ->
  firstRecord v = Some rr ->
  exists out p,
    ExchangeContext QS w r m (Executes shared) net clock = Some out /\
    ret out = POk p /\ (p < length (objs (world out)))%nat /\
    objs (world out) !! p = Some v /\
    queries out = log /\ spawned out = [] /\
    objs (world out) !! S (length (objs w)) = Some v /\
    lruCache (world out)
    = <[QS q := (S (length (objs w)), (clock 0%nat + Second * Ttl rr)%Z)]> (lruCache w).
Proof.
  intros Hq Hmiss Hrun Hfirst.
  rewrite (DnsProofs.ExchangeContext_miss QS w r m q qs) by done.
  unfold exchangeWithoutCache. rewrite Hq, DnsProofs.exchange_fn_spec, Hrun.
  cbn [fst snd]. rewrite Hfirst. cbn [mbind option_bind].
  assert (H1 : ((objs w ++ [v]) ++ [v]) !! length (objs w) = Some v).
  { apply DnsProofs.alloc_lookup_old, DnsProofs.alloc_lookup_new. }
  assert (H2 : ((objs w ++ [v]) ++ [v]) !! S (length (objs w)) = Some v).
  { replace (S (length (objs w))) with (length (objs w ++ [v]))
      by (rewrite length_app; simpl; lia).
    apply DnsProofs.alloc_lookup_new. }
  destruct shared; cbn [exchange_tail objs lruCache]; unfold Copy, alloc.
  - rewrite H1. simpl. eexists _, _. split; [reflexivity|].
    cbn [ret world objs lruCache queries spawned].
    split; [done|]. split; [rewrite !length_app; simpl; lia|].
    split; [apply DnsProofs.alloc_lookup_new|].
    split; [done|]. split; [done|]. split; [|done].
    by apply DnsProofs.alloc_lookup_old.
  - simpl. eexists _, _. split; [reflexivity|].
    cbn [ret world objs lruCache queries spawned].
    split; [done|]. split; [rewrite !length_app; simpl; lia|]. done.
Qed.

(** X7: a response stored by a call that missed the cache serves the next
    call for the same question: before the entry expires, that call waits
    for no upstream group and starts no goroutine, and it returns a new
    message object holding the stored response, the same addresses
    included, with every TTL set to the whole seconds left. *)
Theorem ExchangeContext_miss_then_hit
  (w : World) (r : Resolver) (m m' : Msg) (q : Question) (qs qs' : list Question)
  (shared : bool) (role' : flight) (net net' : Upstream) (clock clock' : nat -> Z)
  (v : Msg) (rr : RR) (log : list query) :
  Questions m = q :: qs -> Questions m' = q :: qs' ->
  lruCache w !! QS q = None ->
  run net (exchange_upstream r m q) = (Ok v, log) ->
  firstRecord v = Some rr ->
  (clock' 0%nat <= clock 0%nat + Second * Ttl rr)%Z ->
  (0 <= clock 0%nat + Second * Ttl rr - clock' 1%nat < 8388608 * Second)%Z ->
  exists out1 out2 p2 v2,
    ExchangeContext QS w r m (Executes shared) net clock = Some out1 /\
    queries out1 = log /\
    ExchangeContext QS (world out1) r m' role' net' clock' = Some out2 /\
    queries out2 = [] /\ spawned out2 = [] /\
    ret out2 = POk p2 /\ ret out2 <> ret out1 /\
    objs (world out2) !! p2 = Some v2 /\
    rewrittenTTL ((clock 0%nat + Second * Ttl rr - clock' 1%nat) / Second) v v2 /\
    msgToIP v2 = msgToIP v /\
    lruCache (world out2) = lruCache (world out1).
Proof.
  intros Hq Hq' Hmiss Hrun Hfirst Hfresh Hrange.
  destruct (ExchangeContext_miss_answer w r m q qs shared net clock v rr log)
    as (out1 & p1 & Hout1 & Hret1 & Hp1 & _ & Hlog & _ & Hcp & Hcache); try done.
  set (expire := (clock 0%nat + Second * Ttl rr)%Z) in *.
  assert (Hhit : lruCache (world out1) !! QS q = Some (S (length (objs w)), expire)).
  { rewrite Hcache. apply lookup_insert_eq. }
  pose proof (ExchangeContext_hit_eq (world out1) r m' q qs' role' net' clock'
                _ _ v Hq' Hhit Hcp) as Hout2.
  assert (Hnot : (expire <? clock' 0%nat)%Z = false) by (apply Z.ltb_ge; lia).
  rewrite Hnot in Hout2.
  eexists out1, _, (length (objs (world out1))), _.
  split; [exact Hout1|]. split; [exact Hlog|]. split; [exact Hout2|].
  cbn [queries spawned ret world objs lruCache].
  split; [done|]. split; [done|]. split; [done|].
  split; [rewrite Hret1; intros [=]; lia|].
  split.
  { rewrite list_lookup_insert_eq; [done|]. rewrite length_app. simpl. lia. }
  split.
  { rewrite <- (DnsProofs.secondsU32_whole _ Hrange).
    apply DnsProofs.rewrittenTTL_withMsgTTL. }
  split; [apply msgToIP_withMsgTTL|done].
Qed.

(** X8: when the upstream exchange of a call that missed the cache fails,
    the call returns that error after the queries made, and it leaves the
    cache and the message objects exactly as they were: nothing is stored
    for the question. *)
Theorem ExchangeContext_error_not_cached
  (w : World) (r : Resolver) (m : Msg) (q : Question) (qs : list Question)
  (shared : bool) (net : Upstream) (clock : nat -> Z) (e : error) (log : list query) :
  Questions m = q :: qs ->
  lruCache w !! QS q = None ->
  run net (exchange_upstream r m q) = (Err e, log) ->
  ExchangeContext QS w r m (Executes shared) net clock
  = Some (mkOutcome w (PErr e) log []).
Proof.
  intros Hq Hmiss Hrun.
  rewrite (DnsProofs.ExchangeContext_miss QS w r m q qs) by done.
  unfold exchangeWithoutCache. rewrite Hq, DnsProofs.exchange_fn_spec, Hrun.
  reflexivity.
Qed.

End Cache.

Lemma ExchangeContext_miss_then_hit_witness :
  exists out1 out2 p2 v2,
    ExchangeContext exQS emptyWorld exResolver exQuery (Executes false) netClean exClock
    = Some out1 /\
    queries out1 = [([exMain], exQuery)] /\
    ExchangeContext exQS (world out1) exResolver exQuery (Executes false)
      netMainFails hitClock = Some out2 /\
    queries out2 = [] /\ spawned out2 = [] /\
    ret out2 = POk p2 /\ ret out2 <> ret out1 /\
    objs (world out2) !! p2 = Some v2 /\
    rewrittenTTL ((exClock 0 + Second * 300 - hitClock 1%nat) / Second)
      (exAnswer 16843009 300) v2 /\
    msgToIP v2 = msgToIP (exAnswer 16843009 300) /\
    lruCache (world out2) = lruCache (world out1).
Proof.
  apply (ExchangeContext_miss_then_hit exQS emptyWorld exResolver exQuery exQuery
           exQuestion [] [] false (Executes false) netClean netMainFails exClock hitClock
           (exAnswer 16843009 300) (mkRR "example.com." 300 (RA (Some (IP4 16843009))))
           [([exMain], exQuery)]);
    [reflexivity|reflexivity|reflexivity|reflexivity|reflexivity| |].
  - vm_compute. discriminate.
  - vm_compute. split; [discriminate|reflexivity].
Defined.

Lemma ExchangeContext_error_not_cached_witness :
  ExchangeContext exQS emptyWorld
    (mkResolver false (fun _ => None) [exMain] None [] [] None [])
    exQuery (Executes false) netMainFails exClock
  = Some (mkOutcome emptyWorld (PErr "i/o timeout") [([exMain], exQuery)] []).
Proof.
  exact (ExchangeContext_error_not_cached exQS emptyWorld
           (mkResolver false (fun _ => None) [exMain] None [] [] None [])
           exQuery exQuestion [] false netMainFails exClock "i/o timeout"
           [([exMain], exQuery)] eq_refl eq_refl eq_refl).
Defined.

(** X9: whatever the configuration and the answers, the upstream phase of
    an exchange asks one group, or the main group and then the fallback
    group; every query carries the caller's message, and the result is the
    answer of the last group asked.  The second query is made only for an
    address question, with a non-empty fallback group, no policy match and
    no fallback-only domain. *)
Theorem exchange_upstream_queries (r : Resolver) (m : Msg) (q : Question) (net : Upstream) :
  exists g,
    last (run net (exchange_upstream r m q)).2 = Some (g, m) /\
    (run net (exchange_upstream r m q)).1
    = net (length (run net (exchange_upstream r m q)).2 - 1)%nat g m /\
    ((run net (exchange_upstream r m q)).2 = [(g, m)] \/
     ((run net (exchange_upstream r m q)).2 = [(main r, m); (g, m)] /\
      fallback r = Some g /\ g <> [] /\ isIPRequest q = true /\
      matchPolicy r m = [] /\ shouldOnlyQueryFallback r m = false)).
Proof.
  unfold exchange_upstream, ipExchange, asyncExchange, run.
  destruct (isIPRequest q); destruct (matchPolicy r m) as [|c0 cs] eqn:Hpol;
    cbn [length Nat.eqb negb run_from];
    try (eexists; split; [reflexivity|]; split; [reflexivity|]; by left).
  destruct (shouldOnlyQueryFallback r m) eqn:Honly; cbn [run_from].
  { eexists; split; [reflexivity|]; split; [reflexivity|]; by left. }
  destruct (fallback r) as [[|f fb]|] eqn:Hfb; cbn [slice length Nat.eqb orb];
    rewrite ?bool_decide_eq_true_2, ?bool_decide_eq_false_2 by done;
    cbn [orb run_from];
    try (eexists; split; [reflexivity|]; split; [reflexivity|]; by left).
  destruct (net 0%nat (main r) m) as [msg|e] eqn:Hnet.
  - destruct (msgToIP msg) as [|ip0 ips].
    + cbn [run_from]. eexists; split; [reflexivity|]; split; [reflexivity|].
      right. by repeat split.
    + destruct (shouldIPFallback r ip0); cbn [negb run_from].
      * eexists; split; [reflexivity|]; split; [reflexivity|].
        right. by repeat split.
      * eexists; split; [reflexivity|]; split; [simpl; by rewrite Hnet|]; by left.
  - cbn [run_from]. eexists; split; [reflexivity|]; split; [reflexivity|].
    right. by repeat split.
Qed.

(** X10: when the name-server policy matches the queried name, the policy's
    group alone is asked and its result returned, for address and other
    questions alike: the main and fallback groups and the fallback filters
    play no part. *)
Theorem exchange_upstream_policy (r : Resolver) (m : Msg) (q : Question) (net : Upstream) :
  matchPolicy r m <> [] ->
  run net (exchange_upstream r m q)
  = (net 0%nat (matchPolicy r m) m, [(matchPolicy r m, m)]).
Proof.
  intros Hpol. unfold exchange_upstream, ipExchange, asyncExchange, run.
  destruct (matchPolicy r m) as [|c0 cs]; [done|].
  by destruct (isIPRequest q).
Qed.

Lemma exchange_upstream_policy_witness :
  matchPolicy exFilteredResolver exQuery = [exPolicyServer] /\
  run netClean (exchange_upstream exFilteredResolver exQuery exQuestion)
  = (Ok (exAnswer 16843009 300), [([exPolicyServer], exQuery)]).
Proof.
  split; [reflexivity|].
  exact (exchange_upstream_policy exFilteredResolver exQuery exQuestion netClean
           ltac:(discriminate)).
Defined.

Lemma domainFilters_loop_true (filters : list (string -> bool)) (domain : string) :
  Exists (fun f => f domain = true) filters -> domainFilters_loop filters domain = true.
Proof.
  induction 1 as [f fs Hf|f fs _ IH]; simpl.
  - by rewrite Hf.
  - rewrite IH. by destruct (f domain).
Qed.

(** X11: with a fallback group configured and no policy match, an address
    question for a name flagged by a fallback domain filter is sent to the
    fallback group alone, so the main group never sees it; a question of
    any other kind for the same name is sent to the main group alone. *)
Theorem exchange_upstream_fallback_domain
  (r : Resolver) (m : Msg) (q : Question) (net : Upstream) (fb : list dnsClient) :
  fallback r = Some fb ->
  matchPolicy r m = [] ->
  msgToDomain m <> EmptyString ->
  Exists (fun f => f (msgToDomain m) = true) (fallbackDomainFilters r) ->
  (isIPRequest q = true ->
     run net (exchange_upstream r m q) = (net 0%nat fb m, [(fb, m)])) /\
  (isIPRequest q = false ->
     run net (exchange_upstream r m q) = (net 0%nat (main r) m, [(main r, m)])).
Proof.
  intros Hfb Hpol Hdom Hex.
  assert (Honly : shouldOnlyQueryFallback r m = true).
  { unfold shouldOnlyQueryFallback. rewrite Hfb.
    rewrite bool_decide_eq_false_2 by done.
    destruct (fallbackDomainFilters r) as [|f fs] eqn:Hfs; [by inversion Hex|].
    cbn [length Nat.eqb orb]. rewrite bool_decide_eq_false_2 by done.
    by apply domainFilters_loop_true. }
  unfold exchange_upstream, ipExchange, asyncExchange, run.
  rewrite Hpol, Honly, Hfb. split; intros ->; reflexivity.
Qed.

Lemma exchange_upstream_fallback_domain_witness :
  (isIPRequest (mkQuestion "blocked.test." TypeA ClassINET) = true ->
     run netClean (exchange_upstream exFilteredResolver (exBlockedQuery TypeA)
                     (mkQuestion "blocked.test." TypeA ClassINET))
     = (netClean 0%nat [exFallback] (exBlockedQuery TypeA),
        [([exFallback], exBlockedQuery TypeA)])) /\
  (isIPRequest (mkQuestion "blocked.test." TypeA ClassINET) = false ->
     run netClean (exchange_upstream exFilteredResolver (exBlockedQuery TypeA)
                     (mkQuestion "blocked.test." TypeA ClassINET))
     = (netClean 0%nat (main exFilteredResolver) (exBlockedQuery TypeA),
        [(main exFilteredResolver, exBlockedQuery TypeA)])).
Proof.
  apply (exchange_upstream_fallback_domain exFilteredResolver (exBlockedQuery TypeA)
           (mkQuestion "blocked.test." TypeA ClassINET) netClean [exFallback]);
    [reflexivity|reflexivity|discriminate|].
  apply Exists_cons_hd. reflexivity.
Defined.

Lemma TrimRight_spec (s : string) (c : ascii) :
  Trie.lastByte (TrimRight s c) <> Some c /\
  exists k, s = (TrimRight s c +:+ runOf c k)%string.
Proof.
  assert (Hcons : forall a x y, (String a x +:+ y)%string = String a (x +:+ y)%string)
    by reflexivity.
  assert (Hnil : forall y, (EmptyString +:+ y)%string = y) by reflexivity.
  induction s as [|a rest [IHlast [k IHk]]]; simpl.
  - split; [done|]. by exists 0%nat.
  - destruct (bool_decide (TrimRight rest c = EmptyString)) eqn:Hempty.
    + apply bool_decide_eq_true in Hempty. rewrite Hempty, Hnil in IHk.
      destruct (bool_decide (a = c)) eqn:Hac; simpl.
      * apply bool_decide_eq_true in Hac. subst a. split; [done|].
        exists (S k). rewrite Hnil. simpl. by rewrite <- IHk.
      * apply bool_decide_eq_false in Hac. rewrite Hempty. split.
        -- simpl. congruence.
        -- exists k. by rewrite Hcons, Hnil, <- IHk.
    + apply bool_decide_eq_false in Hempty. simpl. split.
      * destruct (TrimRight rest c); done.
      * exists k. by rewrite Hcons, <- IHk.
Qed.

Lemma TrimRight_runOf (c : ascii) (k : nat) : TrimRight (runOf c k) c = EmptyString.
Proof.
  induction k as [|k IH]; [done|]. simpl. rewrite IH.
  by rewrite !bool_decide_eq_true_2.
Qed.

Lemma TrimRight_append_runOf (s : string) (c : ascii) (k : nat) :
  Trie.lastByte s <> Some c -> TrimRight (s +:+ runOf c k) c = s.
Proof.
  assert (Hcons : forall a x y, (String a x +:+ y)%string = String a (x +:+ y)%string)
    by reflexivity.
  induction s as [|a rest IH]; intros Hlast.
  - apply TrimRight_runOf.
  - rewrite Hcons. simpl. destruct rest as [|b rest].
    + change (EmptyString +:+ runOf c k)%string with (runOf c k).
      rewrite TrimRight_runOf. rewrite bool_decide_eq_true_2 by done.
      rewrite bool_decide_eq_false_2; [done|]. simpl in Hlast. congruence.
    + rewrite IH by exact Hlast. by rewrite bool_decide_eq_false_2.
Qed.

(** X12: the domain that the policy and the fallback domain filters are
    asked about is the name of the first question without its trailing
    dots: it never ends in a dot, and the name is that domain followed by
    dots only. *)
Theorem msgToDomain_trims (m : Msg) (q : Question) (qs : list Question) :
  Questions m = q :: qs ->
  Trie.lastByte (msgToDomain m) <> Some "."%char /\
  (exists k, Name q = (msgToDomain m +:+ runOf "." k)%string) /\
  (forall domain k, Trie.lastByte domain <> Some "."%char ->
     Name q = (domain +:+ runOf "." k)%string -> msgToDomain m = domain).
Proof.
  intros Hq. unfold msgToDomain. rewrite Hq.
  destruct (TrimRight_spec (Name q) ".") as [Hlast Hk].
  split; [exact Hlast|]. split; [exact Hk|].
  intros domain k Hd ->. by apply TrimRight_append_runOf.
Qed.

Lemma msgToDomain_trims_witness :
  Trie.lastByte (msgToDomain exQuery) <> Some "."%char /\
  (exists k, Name exQuestion = (msgToDomain exQuery +:+ runOf "." k)%string) /\
  (forall domain k, Trie.lastByte domain <> Some "."%char ->
     Name exQuestion = (domain +:+ runOf "." k)%string -> msgToDomain exQuery = domain).
Proof. exact (msgToDomain_trims exQuery exQuestion [] eq_refl). Defined.

(** X13: a policy entry inserted into the policy trie under a plain name
    decides the group for every message asking about that name, written
    with or without trailing dots: [matchPolicy] returns the entry's
    servers, whatever the trie held before and whatever is inserted
    afterwards under names other than this name and the [+] pattern over
    it. *)
Theorem matchPolicy_trie_entry
  (r : Resolver) (m : Msg) (q : Question) (qs : list Question)
  (root : @Trie.Node (option (list dnsClient)))
  (domain first : string) (rest : list string) (servers : list dnsClient)
  (later : list (string * option (list dnsClient))) (k : nat) :
  policy r
  = Some (policyOf (TrieSpec.Inserts None
                      (Trie.Insert None root domain (Some servers)).1 later)) ->
  Trie.ValidAndSplitDomain domain = Some (first :: rest) ->
  first <> Trie.dotWildcard -> first <> Trie.complexWildcard ->
  Forall (fun e => e.1 <> domain /\ e.1 <> ("+." +:+ domain)%string) later ->
  Questions m = q :: qs ->
  Name q = (domain +:+ runOf "." k)%string ->
  matchPolicy r m = servers.
Proof.
  intros Hpolicy Hd Hdot Hplus Hlater Hq Hname.
  pose proof (TrieProofs.ValidAndSplitDomain_Some _ _ Hd) as (_ & _ & Hne & Hlast).
  assert (Hdom : msgToDomain m = domain).
  { unfold msgToDomain. rewrite Hq, Hname. by apply TrimRight_append_runOf. }
  unfold matchPolicy. rewrite Hpolicy, Hdom.
  rewrite bool_decide_eq_false_2 by done.
  unfold Search, policyOf.
  rewrite (TrieProofs.Insert_parts None _ _ _ _ _ Hd Hplus). simpl.
  destruct (TrieProofs.at_path_insert None (rev (first :: rest)) (Some servers) root)
    as (n0 & Hn0 & Hd0).
  destruct (TrieProofs.Search_kept None _ n0 later domain first rest Hd Hdot Hlater Hn0)
    as (n & Hn & Hdn); [congruence|].
  simpl in Hn. rewrite Hn. simpl. by rewrite Hdn, Hd0.
Qed.

Lemma matchPolicy_trie_entry_witness :
  matchPolicy
    (mkResolver false (fun _ => None) [exMain] None [] []
       (Some (policyOf
                (TrieSpec.Inserts None
                   (Trie.Insert None (Trie.New None) "example.com"
                      (Some [exPolicyServer])).1
                   [("+.example.org", Some [exFallback])])))
       [])
    exQuery
  = [exPolicyServer].
Proof.
  apply (matchPolicy_trie_entry _ exQuery exQuestion [] (Trie.New None) "example.com"
           "example" ["com"] [exPolicyServer] [("+.example.org", Some [exFallback])]
           1%nat); [reflexivity|reflexivity|done|done| |reflexivity|reflexivity].
  repeat constructor; discriminate.
Defined.

End DnsFacts.

Module ResolveProofs.
Import Dns ResolveExamples.

Section OneLookup.

Variable ParseAddr : string -> option IP.
Variable Fqdn : string -> string.
Variable exchange : Msg -> Msg + error.
Variable newId : Z.
Variable random : bool.
Variable seed : nat.

Local Abbreviation resolveIP := (resolveIP ParseAddr Fqdn exchange newId random seed).
Local Abbreviation SetQuestion := (SetQuestion Fqdn newId).

Lemma pickIndex_lt (n : nat) : (0 < n)%nat -> (pickIndex random seed n < n)%nat.
Proof.
  intros Hn. unfold pickIndex.
  destruct ((1 <? n)%nat && random); [|done].
  apply Nat.mod_upper_bound. lia.
Qed.

(** X14: for a host that is not an IP literal, [resolveIP] hands exactly
    one message to [ExchangeContext], asking for the host's record of the
    requested type.  An exchange error is returned as it is; an answer
    without address records gives [ErrIPNotFound]; otherwise the result is
    one of the answer's addresses, read within bounds, and it is the first
    one when the context asks for the first IP or there is only one. *)
Theorem resolveIP_answer (host : string) (dnsType : Z) :
  ParseAddr host = None ->
  (resolveIP host dnsType).2 = [SetQuestion host dnsType] /\
  Questions (SetQuestion host dnsType) = [mkQuestion (Fqdn host) dnsType ClassINET] /\
  match exchange (SetQuestion host dnsType) with
  | inr err => (resolveIP host dnsType).1 = inr err
  | inl msg =>
      match msgToIP msg with
      | [] => (resolveIP host dnsType).1 = inr ErrIPNotFound
      | ip0 :: rest =>
          exists index ip,
            msgToIP msg !! index = Some ip /\
            (resolveIP host dnsType).1 = inl ip /\
            (random = false \/ rest = [] -> index = 0%nat)
      end
  end.
Proof.
  intros Hparse. unfold Dns.resolveIP. rewrite Hparse.
  split; [by destruct (exchange _) as [msg|err]; [destruct (length (msgToIP msg) =? 0)%nat|]|].
  split; [done|].
  destruct (exchange _) as [msg|err]; [|done].
  destruct (msgToIP msg) as [|ip0 rest] eqn:Hips; [done|].
  cbn [length Nat.eqb fst].
  pose proof (pickIndex_lt (S (length rest)) ltac:(lia)) as Hlt.
  destruct ((ip0 :: rest) !! pickIndex random seed (S (length rest))) as [ip|] eqn:Hx.
  2:{ apply lookup_ge_None in Hx. cbn [length] in Hx. unfold Addr in *. lia. }
  exists (pickIndex random seed (S (length rest))), ip.
  split; [exact Hx|]. split; [done|].
  intros [H|H]; unfold pickIndex; rewrite H.
  - by rewrite andb_false_r.
  - reflexivity.
Qed.

(** X15: for a host that is an IP literal, the dual-stack [ResolveIP]
    returns that address (an IPv4-mapped one as its IPv4 address) with a nil
    error, and neither of its two lookups hands a message to
    [ExchangeContext]. *)
Theorem ResolveIP_literal (host : string) (ip : IP) :
  ParseAddr host = Some ip ->
  r_ip (ResolveIP (fun h t => (resolveIP h t).1) host) = Some (Unmap ip) /\
  r_err (ResolveIP (fun h t => (resolveIP h t).1) host) = None /\
  (resolveIP host TypeA).2 = [] /\ (resolveIP host TypeAAAA).2 = [].
Proof.
  intros Hparse. unfold ResolveIP, Dns.resolveIP. rewrite Hparse.
  by destruct (Is4 (Unmap ip)).
Qed.

End OneLookup.

Section Package.
Import HostResolver HostResolverSpec.

Variable ParseAddr : string -> option IP.
Variable netIP : Type.
Variable LookupIP : string -> string -> list netIP * option error.
Variable To4 : netIP -> option N.
Variable IpToAddr : netIP -> Addr.
Variable seed : nat.

Local Abbreviation ResolveIPv4WithResolver :=
  (ResolveIPv4WithResolver ParseAddr netIP LookupIP To4 seed).
Local Abbreviation ResolveIPv6WithResolver :=
  (ResolveIPv6WithResolver ParseAddr netIP LookupIP IpToAddr seed).
Local Abbreviation ResolveIPWithResolver :=
  (ResolveIPWithResolver ParseAddr netIP LookupIP To4 IpToAddr seed).
Local Abbreviation resolveIP' :=
  (HostResolver.resolveIP ParseAddr netIP LookupIP To4 IpToAddr seed).
Local Abbreviation systemLookup := (systemLookup netIP LookupIP seed).

(** A successful system lookup converts one of the addresses found. *)
Lemma systemLookup_ok (ctx : Context) (network host : string)
  (convert : netIP -> answer) (ip : Addr) :
  systemLookup ctx network host convert = (ip, None) ->
  exists x, x ∈ (LookupIP network host).1 /\ convert x = (ip, None).
Proof.
  unfold HostResolver.systemLookup.
  destruct (LookupIP network host) as [ipAddrs [err|]]; [done|].
  destruct (length ipAddrs =? 0)%nat eqn:Hlen; [done|].
  apply Nat.eqb_neq in Hlen.
  destruct (ipAddrs !! _) as [x|] eqn:Hx.
  - intros Hc. exists x. split; [|done]. by eapply list_elem_of_lookup_2.
  - apply lookup_ge_None in Hx. unfold HostResolver.pickIndex in Hx.
    destruct ((1 <? length ipAddrs)%nat && ShouldRandomIP ctx); [|lia].
    pose proof (Nat.mod_upper_bound seed (length ipAddrs) Hlen). lia.
Qed.

(** X16: a hosts entry inserted into [DefaultHosts] under a plain name is
    what [ResolveIPWithResolver] returns for that name, with a nil error,
    whatever resolver is passed, whether or not IPv6 is disabled, and
    whatever is inserted afterwards under names other than this name and the
    [+] pattern over it; an IPv4 entry is also what [ResolveIPv4WithResolver]
    returns, and an IPv6 entry what [ResolveIPv6WithResolver] returns unless
    IPv6 is disabled. *)
Theorem hosts_entry_resolves (g : Globals) (ctx : Context) (r : option Resolver)
  (root : @Trie.Node Addr) (name first : string) (rest : list string) (ip : IP)
  (later : list (string * Addr)) :
  DefaultHosts g = TrieSpec.Inserts None (Trie.Insert None root name (Some ip)).1 later ->
  Trie.ValidAndSplitDomain name = Some (first :: rest) ->
  first <> Trie.dotWildcard -> first <> Trie.complexWildcard ->
  Forall (fun e => e.1 <> name /\ e.1 <> ("+." +:+ name)%string) later ->
  ResolveIPWithResolver g ctx name r = (Some ip, None) /\
  (Dns.Is4 ip = true -> ResolveIPv4WithResolver g ctx name r = (Some ip, None)) /\
  (Dns.Is4 ip = false -> DisableIPv6 g = false ->
     ResolveIPv6WithResolver g ctx name r = (Some ip, None)).
Proof.
  intros Hhosts Hd Hdot Hplus Hlater.
  assert (Hdata : hostsData g name = Some (Some ip)).
  { unfold hostsData. rewrite Hhosts.
    rewrite (TrieProofs.Insert_parts None _ _ _ _ _ Hd Hplus). simpl.
    destruct (TrieProofs.at_path_insert None (rev (first :: rest)) (Some ip) root)
      as (n0 & Hn0 & Hd0).
    destruct (TrieProofs.Search_kept None _ n0 later name first rest Hd Hdot Hlater Hn0)
      as (n & Hn & Hdn); [congruence|].
    simpl in Hn. rewrite Hn. simpl. congruence. }
  unfold HostResolver.ResolveIPWithResolver, HostResolver.ResolveIPv4WithResolver,
    HostResolver.ResolveIPv6WithResolver.
  rewrite Hdata. simpl. split; [done|].
  destruct ip as [a|a]; simpl; split; try done.
  by intros _ ->.
Qed.

(** X17: an address that [ResolveIPv4WithResolver] returns with a nil error
    is an IPv4 address, unless it is the answer of the resolver passed in:
    hosts entries of the other family are skipped, a literal of the other
    family is refused, and the system lookup converts an address found
    through [To4]. *)
Theorem ResolveIPv4WithResolver_is4 (g : Globals) (ctx : Context) (host : string)
  (r : option Resolver) (ip : Addr) :
  ResolveIPv4WithResolver g ctx host r = (ip, None) ->
  HostResolver.Is4 ip = true \/
  exists r', r = Some r' /\ ResolveIPv4 r' ctx host = (ip, None).
Proof.
  unfold HostResolver.ResolveIPv4WithResolver.
  destruct (hostsData g host) as [d|]; simpl.
  - destruct (HostResolver.Is4 d) eqn:Hd4.
    + intros [= <-]. by left.
    + clear Hd4. revert ip. generalize dependent d. intros _.
      destruct (ParseAddr host) as [lit|].
      * destruct (Unmap lit) as [a|a]; simpl; intros ip [=]; subst. by left.
      * destruct r as [r'|]; [intros ip H; right; by exists r'|].
        destruct (DefaultResolver g); [done|].
        intros ip H. apply systemLookup_ok in H as (x & _ & Hx).
        destruct (To4 x); [|done]. injection Hx as <-. by left.
  - destruct (ParseAddr host) as [lit|].
    + destruct (Unmap lit) as [a|a]; simpl; intros [=]; subst. by left.
    + destruct r as [r'|]; [intros H; right; by exists r'|].
      destruct (DefaultResolver g); [done|].
      intros H. apply systemLookup_ok in H as (x & _ & Hx).
      destruct (To4 x); [|done]. injection Hx as <-. by left.
Qed.

(** X18: a host that is an IP literal and has no hosts entry is answered
    without any resolver being asked.  [ResolveIPv4WithResolver] returns an
    IPv4 literal (an IPv4-mapped one unmapped) and refuses any other with
    [ErrIPVersion]; [ResolveIPv6WithResolver] fails with [ErrIPv6Disabled]
    when IPv6 is disabled, and otherwise returns an IPv6 literal and refuses
    an IPv4 one; [ResolveIPWithResolver] without a resolver returns the
    literal as parsed, or the answer of the IPv4 function when IPv6 is
    disabled. *)
Theorem literal_host_resolves (g : Globals) (ctx : Context) (host : string)
  (lit : IP) (r : option Resolver) :
  hostsData g host = None ->
  ParseAddr host = Some lit ->
  ResolveIPv4WithResolver g ctx host r
  = (if Dns.Is4 (Unmap lit) then (Some (Unmap lit), None)
     else (None, Some ErrIPVersion)) /\
  ResolveIPv6WithResolver g ctx host r
  = (if DisableIPv6 g then (None, Some ErrIPv6Disabled)
     else if Dns.Is4 lit then (None, Some ErrIPVersion) else (Some lit, None)) /\
  ResolveIPWithResolver g ctx host None
  = (if DisableIPv6 g then
       if Dns.Is4 (Unmap lit) then (Some (Unmap lit), None)
       else (None, Some ErrIPVersion)
     else (Some lit, None)).
Proof.
  intros Hmiss Hparse.
  unfold HostResolver.ResolveIPWithResolver, resolveIPv4,
    HostResolver.ResolveIPv4WithResolver, HostResolver.ResolveIPv6WithResolver.
  rewrite Hmiss, Hparse. simpl.
  split; [by destruct (Unmap lit)|].
  split; [by destruct (DisableIPv6 g), lit|].
  destruct (DisableIPv6 g); [|done]. by destruct (Unmap lit).
Qed.

Section WithDns.

Variable Fqdn : string -> string.
Variable exchange : Msg -> Msg + error.
Variable newId : Z -> Z.
Variable dnsSeed : Z -> nat.

Local Abbreviation dnsResolver := (dnsResolver ParseAddr Fqdn exchange newId dnsSeed).

(** X19: with [*dns.Resolver] as the resolver, a host that is an IP
    literal and has no hosts entry resolves to the literal (an IPv4-mapped
    one as its IPv4 address) whatever the DNS exchange would answer; with
    IPv6 disabled a literal that is not IPv4 is refused with
    [ErrIPVersion]. *)
Theorem literal_host_through_dns (g : Globals) (ctx : Context) (host : string) (lit : IP) :
  hostsData g host = None ->
  ParseAddr host = Some lit ->
  DefaultResolver g = Some dnsResolver ->
  resolveIP' g ctx host
  = (if DisableIPv6 g && negb (Dns.Is4 (Unmap lit)) then (None, Some ErrIPVersion)
     else (Some (Unmap lit), None)).
Proof.
  intros Hmiss Hparse Hres.
  unfold HostResolver.resolveIP, HostResolver.ResolveIPWithResolver.
  rewrite Hmiss, Hres. unfold HostResolverSpec.dnsResolver. cbn [ResolveIP ResolveIPv4].
  destruct (DisableIPv6 g); cbn [andb].
  - unfold lookup, Dns.resolveIP. rewrite Hparse. by destruct (Unmap lit).
  - unfold Dns.ResolveIP, lookup, Dns.resolveIP. rewrite Hparse.
    by destruct (Unmap lit).
Qed.

End WithDns.

End Package.

Lemma resolveIP_answer_witness :
  (resolveIP exParseAddr exFqdn exExchange 7 true 5 "example.com" TypeA).2
  = [SetQuestion exFqdn 7 "example.com" TypeA] /\
  Questions (SetQuestion exFqdn 7 "example.com" TypeA)
  = [mkQuestion "example.com." TypeA ClassINET] /\
  exists index ip,
    [Some (IP4 16843009); Some (IP4 16843010)] !! index = Some ip /\
    (resolveIP exParseAddr exFqdn exExchange 7 true 5 "example.com" TypeA).1 = inl ip /\
    (true = false \/ [Some (IP4 16843010)] = [] -> index = 0%nat).
Proof.
  exact (resolveIP_answer exParseAddr exFqdn exExchange 7 true 5 "example.com" TypeA
           eq_refl).
Defined.

Lemma ResolveIP_literal_witness :
  r_ip (ResolveIP (fun h t => (resolveIP exParseAddr exFqdn exExchange 7 true 5 h t).1)
          "::ffff:1.2.3.4") = Some (IP4 16909060) /\
  r_err (ResolveIP (fun h t => (resolveIP exParseAddr exFqdn exExchange 7 true 5 h t).1)
           "::ffff:1.2.3.4") = None /\
  (resolveIP exParseAddr exFqdn exExchange 7 true 5 "::ffff:1.2.3.4" TypeA).2 = [] /\
  (resolveIP exParseAddr exFqdn exExchange 7 true 5 "::ffff:1.2.3.4" TypeAAAA).2 = [].
Proof.
  exact (ResolveIP_literal exParseAddr exFqdn exExchange 7 true 5 "::ffff:1.2.3.4"
           (IP6 281470698652420) eq_refl).
Defined.

Lemma hosts_entry_resolves_witness :
  HostResolver.ResolveIPWithResolver exParseAddr N exLookupIP exTo4 exIpToAddr 0
    exGlobalsLater HostResolver.Background "router.lan" None
  = (Some (IP4 3232235777), None) /\
  (Is4 (IP4 3232235777) = true ->
     HostResolver.ResolveIPv4WithResolver exParseAddr N exLookupIP exTo4 0
       exGlobalsLater HostResolver.Background "router.lan" None
     = (Some (IP4 3232235777), None)) /\
  (Is4 (IP4 3232235777) = false -> HostResolver.DisableIPv6 exGlobalsLater = false ->
     HostResolver.ResolveIPv6WithResolver exParseAddr N exLookupIP exIpToAddr 0
       exGlobalsLater HostResolver.Background "router.lan" None
     = (Some (IP4 3232235777), None)).
Proof.
  apply (hosts_entry_resolves exParseAddr N exLookupIP exTo4 exIpToAddr 0
           exGlobalsLater HostResolver.Background None (Trie.New None) "router.lan"
           "router" ["lan"] (IP4 3232235777)
           [("*.lan", Some (IP4 167772161)); ("+.example.org", Some (IP4 16843009))]);
    [reflexivity|reflexivity|done|done|].
  repeat constructor; discriminate.
Defined.

Lemma ResolveIPv4WithResolver_is4_witness :
  HostResolver.ResolveIPv4WithResolver exParseAddr N exLookupIP exTo4 0
    exGlobals HostResolver.Background "::ffff:1.2.3.4" None
  = (Some (IP4 16909060), None) /\
  (HostResolver.Is4 (Some (IP4 16909060)) = true \/
   exists r', None = Some r' /\
     HostResolver.ResolveIPv4 r' HostResolver.Background "::ffff:1.2.3.4"
     = (Some (IP4 16909060), None)).
Proof.
  split; [reflexivity|].
  exact (ResolveIPv4WithResolver_is4 exParseAddr N exLookupIP exTo4 0 exGlobals
           HostResolver.Background "::ffff:1.2.3.4" None (Some (IP4 16909060)) eq_refl).
Defined.

Lemma literal_host_resolves_witness :
  HostResolver.ResolveIPv4WithResolver exParseAddr N exLookupIP exTo4 0
    exGlobals HostResolver.Background "::1" None
  = (None, Some HostResolver.ErrIPVersion) /\
  HostResolver.ResolveIPv6WithResolver exParseAddr N exLookupIP exIpToAddr 0
    exGlobals HostResolver.Background "::1" None
  = (None, Some HostResolver.ErrIPv6Disabled) /\
  HostResolver.ResolveIPWithResolver exParseAddr N exLookupIP exTo4 exIpToAddr 0
    exGlobals HostResolver.Background "::1" None
  = (None, Some HostResolver.ErrIPVersion).
Proof.
  exact (literal_host_resolves exParseAddr N exLookupIP exTo4 exIpToAddr 0 exGlobals
           HostResolver.Background "::1" (IP6 1) None eq_refl eq_refl).
Defined.

Lemma literal_host_through_dns_witness :
  HostResolver.resolveIP exParseAddr N exLookupIP exTo4 exIpToAddr 0
    (HostResolver.mkGlobals
       (Some (HostResolverSpec.dnsResolver exParseAddr exFqdn exExchange
                (fun _ => 7%Z) (fun _ => 5%nat)))
       None false (Trie.New None))
    HostResolver.WithFirstIP "::ffff:1.2.3.4"
  = (Some (IP4 16909060), None).
Proof.
  exact (literal_host_through_dns exParseAddr N exLookupIP exTo4 exIpToAddr 0
           exFqdn exExchange (fun _ => 7%Z) (fun _ => 5%nat)
           (HostResolver.mkGlobals
              (Some (HostResolverSpec.dnsResolver exParseAddr exFqdn exExchange
                       (fun _ => 7%Z) (fun _ => 5%nat)))
              None false (Trie.New None))
           HostResolver.WithFirstIP "::ffff:1.2.3.4" (IP6 281470698652420)
           eq_refl eq_refl eq_refl).
Defined.

End ResolveProofs.

Module TunnelFacts.
Import Tunnel TunnelSpec TunnelExamples.

Section MatchInvariants.

Variable rules : list Rule.
Variable proxies : gmap string Proxy.
Variable DefaultHosts : DomainTrie Addr.
Variable ResolveIP : string -> Addr + error.
Variable FindProcessName : string -> Addr -> Z -> string + error.
Variable Base : string -> string.

Local Abbreviation resolveStep := (resolveStep ResolveIP).
Local Abbreviation processStep := (processStep FindProcessName Base).
Local Abbreviation match_loop := (match_loop proxies ResolveIP FindProcessName Base).
Local Abbreviation match_ :=
  (match_ rules proxies DefaultHosts ResolveIP FindProcessName Base).

Lemma resolvePhase_noResolve (h0 : string) (d0 : Addr) (tr : list event) :
  resolvePhase ResolveIP h0 d0 tr ->
  d0 <> None \/ h0 = EmptyString ->
  noResolve tr.
Proof.
  intros Hphase Hwhy. induction tr as [|e tr IH]; [constructor|].
  destruct e as [rule host res| |r md b]; simpl in Hphase.
  - destruct Hphase as (_ & -> & Hne & Hd0 & _). by destruct Hwhy.
  - constructor; [done|]. by apply IH.
  - destruct Hphase as [_ Hphase]. constructor; [done|]. by apply IH.
Qed.

Lemma settled_resolveStep (d0 : Addr) (rule : Rule) (st : pass) :
  settled d0 st -> resolveStep rule st = st.
Proof.
  intros [Hwhy _]. unfold Tunnel.resolveStep, shouldResolveIP.
  destruct Hwhy as [->|[->| ->]]; [done| |].
  - by rewrite !andb_false_r.
  - rewrite bool_decide_eq_true_2 by done. simpl. by rewrite !andb_false_r.
Qed.

Lemma settled_processStep (d0 : Addr) (rule : Rule) (st : pass) :
  settled d0 st -> settled d0 (processStep rule st).
Proof.
  intros H. unfold Tunnel.processStep.
  destruct (negb (p_processFound st) && ShouldFindProcess rule); [|done].
  destruct (ParseUint16 _); [|done].
  by destruct (FindProcessName _ _ _).
Qed.

(** X20: [match] never asks for a DNS resolution for a flow whose host has
    a hosts entry, or whose destination IP is already valid, or whose host
    is empty: the trace holds no resolution, every rule is matched against
    the same destination (the hosts entry's address, otherwise the one the
    flow came with), and that is the destination the metadata is left
    with. *)
Theorem match_destination_settled (metadata : Metadata) :
  let out := match_ metadata in
  let tr := p_trace out.2 in
  let d0 := match Search DefaultHosts (Host metadata) with
            | Some data => data
            | None => DstIP metadata
            end in
  (Search DefaultHosts (Host metadata) <> None \/
   IsValid (DstIP metadata) = true \/ Host metadata = EmptyString) ->
  noResolve tr /\
  allMatches (fun _ md => DstIP md = d0) tr /\
  DstIP (p_metadata out.2) = d0.
Proof.
  cbn zeta. intros Hwhy. unfold Tunnel.match_.
  set (d0 := match Search DefaultHosts (Host metadata) with
             | Some data => data
             | None => DstIP metadata
             end).
  set (st0 := match Search DefaultHosts (Host metadata) with
              | Some data => mkPass (set_DstIP metadata data) true false []
              | None => mkPass metadata false false []
              end).
  assert (H0 : settled d0 st0 /\ p_trace st0 = []).
  { unfold st0, d0, settled.
    destruct (Search DefaultHosts (Host metadata)) as [data|]; simpl.
    - split; [|done]. split; [by left|done].
    - split; [|done]. split; [|done]. right.
      destruct Hwhy as [H|H]; [done|exact H]. }
  destruct H0 as [H0 Htr0].
  destruct (TunnelProofs.match_loop_inv proxies ResolveIP FindProcessName Base
              (settled d0)) with (rs := rules) (st0 := st0)
    as (evs & Hevs & Hall & Hfin).
  - intros rule st Hst. by rewrite (settled_resolveStep d0).
  - intros rule st Hst. by apply settled_processStep.
  - by intros st tr Hst.
  - exact H0.
  - rewrite Hevs, Htr0. simpl. split; [|split].
    + destruct (TunnelProofs.match_loop_resolve proxies ResolveIP FindProcessName Base
                  rules st0) as (evs' & Hevs' & Hyes & Hno).
      assert (evs' = evs) as -> by (rewrite Hevs in Hevs'; by eapply app_inv_head).
      destruct (p_resolved st0) eqn:Hr.
      * by apply Hyes.
      * eapply resolvePhase_noResolve; [by apply Hno|].
        destruct H0 as [[H|[H|H]] Hd]; [congruence| |by right].
        left. intros Hnone. by rewrite Hnone in H.
    + eapply Forall_impl; [exact Hall|]. intros [r md] (st & [_ Hd] & <-). exact Hd.
    + by destruct Hfin.
Qed.

(** X21: [match] only ever writes the destination IP and the process
    fields of the metadata: the network, the source address and port, the
    destination port, the host and the DNS mode that every rule is matched
    against, and that the metadata is left with, are those the flow came
    with. *)
Theorem match_keeps_flow (metadata : Metadata) :
  allMatches (fun _ md => sameFlow metadata md) (p_trace (match_ metadata).2) /\
  sameFlow metadata (p_metadata (match_ metadata).2).
Proof.
  unfold Tunnel.match_.
  set (st0 := match Search DefaultHosts (Host metadata) with
              | Some data => mkPass (set_DstIP metadata data) true false []
              | None => mkPass metadata false false []
              end).
  assert (H0 : sameFlow metadata (p_metadata st0) /\ p_trace st0 = []).
  { unfold st0. by destruct (Search DefaultHosts (Host metadata)). }
  destruct H0 as [H0 Htr0].
  destruct (TunnelProofs.match_loop_inv proxies ResolveIP FindProcessName Base
              (fun st => sameFlow metadata (p_metadata st)))
    with (rs := rules) (st0 := st0) as (evs & Hevs & Hall & Hfin).
  - intros rule st Hst. unfold Tunnel.resolveStep.
    destruct (negb (p_resolved st) && shouldResolveIP rule (p_metadata st)); [|done].
    by destruct (ResolveIP _).
  - intros rule st Hst. unfold Tunnel.processStep.
    destruct (negb (p_processFound st) && ShouldFindProcess rule); [|done].
    destruct (ParseUint16 _); [|done].
    by destruct (FindProcessName _ _ _).
  - by intros st tr Hst.
  - exact H0.
  - rewrite Hevs, Htr0. simpl. split; [|exact Hfin].
    eapply Forall_impl; [exact Hall|]. by intros [r md] (st & Hst & <-).
Qed.

(** X22: when the rule list holds a rule that matches every metadata and
    names an outbound that exists and supports UDP (such as a final MATCH
    rule), [match] never falls through to REJECT: it returns a rule of the
    list together with the outbound that rule names. *)
Theorem match_catch_all (metadata : Metadata) (final : Rule) (outbound : Proxy) :
  final ∈ rules ->
  (forall md, Match final md = true) ->
  proxies !! Adapter final = Some outbound ->
  SupportUDP outbound = true ->
  exists adapter rule,
    (match_ metadata).1 = (Some adapter, Some rule, None) /\
    rule ∈ rules /\ proxies !! Adapter rule = Some adapter.
Proof.
  intros Hin Hall Hout Hudp. unfold Tunnel.match_.
  match goal with
  | |- context [Tunnel.match_loop _ _ _ _ rules ?st] =>
      destruct (TunnelProofs.match_loop_first_usable proxies ResolveIP
                  FindProcessName Base rules st) as (evs & _ & _ & Hcases)
  end.
  destruct Hcases as [(pre & rule & md & post & adapter & Hrules & _ & _ & _ & Had & _ & Hres)
                     |(Hseen & Hnone & _)].
  - exists adapter, rule. split; [exact Hres|]. split; [|exact Had].
    rewrite Hrules. apply elem_of_app. right. by left.
  - exfalso. rewrite <- Hseen in Hin.
    apply list_elem_of_fmap in Hin as ([r md] & -> & Hrm).
    rewrite Forall_forall in Hnone. apply (Hnone _ Hrm).
    split; [apply Hall|]. by exists outbound.
Qed.

End MatchInvariants.

Lemma match_destination_settled_witness :
  noResolve (p_trace (match_ [ruleIPCIDR; ruleMatch] exProxies exHosts exResolveIP
                        exFindProcessName exBase (exMetadata TCP "ten.example")).2) /\
  allMatches (fun _ md => DstIP md = Some (IP4 167772162))
    (p_trace (match_ [ruleIPCIDR; ruleMatch] exProxies exHosts exResolveIP
                exFindProcessName exBase (exMetadata TCP "ten.example")).2) /\
  DstIP (p_metadata (match_ [ruleIPCIDR; ruleMatch] exProxies exHosts exResolveIP
                       exFindProcessName exBase (exMetadata TCP "ten.example")).2)
  = Some (IP4 167772162).
Proof.
  apply (match_destination_settled [ruleIPCIDR; ruleMatch] exProxies exHosts exResolveIP
           exFindProcessName exBase (exMetadata TCP "ten.example")).
  left. discriminate.
Defined.

Lemma match_catch_all_witness :
  exists adapter rule,
    (match_ [ruleDomain; ruleMatch] exProxies noHosts exResolveIP exFindProcessName
       exBase (exMetadata UDP "example.com")).1
    = (Some adapter, Some rule, None) /\
    rule ∈ [ruleDomain; ruleMatch] /\ exProxies !! Adapter rule = Some adapter.
Proof.
  apply (match_catch_all [ruleDomain; ruleMatch] exProxies noHosts exResolveIP
           exFindProcessName exBase (exMetadata UDP "example.com") ruleMatch
           (mkProxy "DIRECT" true)); [|done|by vm_compute|done].
  right. left.
Defined.

End TunnelFacts.

Module UdpFacts.
Import Udp UdpSpec.

Lemma sessionOf_wake (c : cond) (p : point) : sessionOf (wake c p) = sessionOf p.
Proof. destruct p; simpl; try done. by destruct (bool_decide _). Qed.

Lemma step_sessionsCreated (createOk : nat -> bool) (t : nat) (st st' : State) :
  sessionsCreated st -> step createOk t st = Some st' -> sessionsCreated st'.
Proof.
  intros [Htab Hthr]. unfold step.
  destruct (threads st !! t) as [p|] eqn:Hp; [|done]. simpl.
  assert (Hlt : (t < length (threads st))%nat) by (by eapply lookup_lt_Some).
  (* the thread moves to a place holding a session that is already known *)
  assert (Hmove : forall (q : point) (tbl : Table) h cs cr,
            t_session tbl = t_session (table st) ->
            created st ⊆ cr ->
            (forall s, sessionOf q = Some s -> s ∈ cr) ->
            sessionsCreated (mkState tbl (<[t := q]> (threads st)) h cs cr)).
  { intros q tbl h cs cr Htbl Hsub Hq. split; cbn [table threads created].
    - intros s Hs. rewrite Htbl in Hs. by apply Hsub, Htab.
    - intros t' p' s Hp' Hs. destruct (decide (t' = t)) as [->|Hne].
      + rewrite list_lookup_insert_eq in Hp' by done. injection Hp' as <-. by apply Hq.
      + rewrite list_lookup_insert_ne in Hp' by done. by eapply Hsub, Hthr. }
  destruct p; simpl.
  - destruct (Get (table st)) as [s|] eqn:Hs; intros [= <-]; apply Hmove; try done;
      simpl; intros s' [= <-]; by apply Htab.
  - unfold GetOrCreateLock. destruct (t_lock (table st)); intros [= <-];
      by apply Hmove.
  - destruct (bool_decide _); [done|]. intros [= <-]. by apply Hmove.
  - intros [= <-]. by apply Hmove.
  - done.
  - destruct (bool_decide _); [done|]. intros [= <-]. by apply Hmove.
  - intros [= <-]. apply Hmove; try done; simpl; intros s Hs; by apply Htab.
  - intros [= <-]. apply Hmove; try done; simpl; intros s Hs;
      by eapply (Hthr t (WaiterUnlock c sent)).
  - destruct (createOk t); intros [= <-]; apply Hmove; try done.
    + set_solver.
    + simpl. intros s [= <-]. set_solver.
  - intros [= <-]. split; cbn [table threads created Set_ t_session].
    + intros s' [= <-]. by eapply (Hthr t (AtSet c s)).
    + intros t' p' s' Hp' Hs'. destruct (decide (t' = t)) as [->|Hne].
      * rewrite list_lookup_insert_eq in Hp' by done. by injection Hp' as <-.
      * rewrite list_lookup_insert_ne in Hp' by done. by eapply Hthr.
  - intros [= <-]. apply Hmove; try done; simpl; intros s Hs; by apply Htab.
  - intros [= <-]. apply Hmove; try done; simpl; intros s Hs;
      by eapply (Hthr t (AtDelete c sent)).
  - intros [= <-]. split; cbn [table threads created].
    + exact Htab.
    + intros t' p' s' Hp' Hs'. destruct (decide (t' = t)) as [->|Hne].
      * rewrite list_lookup_insert_eq in Hp' by (by rewrite length_fmap).
        injection Hp' as <-. by eapply (Hthr t (AtBroadcast c sent)).
      * rewrite list_lookup_insert_ne in Hp' by done.
        apply UdpProofs.lookup_wake in Hp' as (p0 & Hp0 & ->).
        rewrite sessionOf_wake in Hs'. by eapply Hthr.
  - done.
Qed.

Lemma run_sessionsCreated (createOk : nat -> bool) (schedule : list nat) (st st' : State) :
  sessionsCreated st -> run createOk schedule st = Some st' -> sessionsCreated st'.
Proof.
  revert st. induction schedule as [|t rest IH]; intros st Hinv Hrun.
  - by injection Hrun as <-.
  - simpl in Hrun. destruct (step createOk t st) as [st1|] eqn:Hstep; [|done].
    simpl in Hrun. eapply IH; [|exact Hrun]. by eapply step_sessionsCreated.
Qed.

(** X24: on every interleaving of the handlers of one flow, a packet is
    only ever written to a session that a creation attempt returned, and
    the session in the table is such a session. *)
Theorem handleUDPConn_sends_to_created (createOk : nat -> bool) (n : nat)
  (schedule : list nat) (st : State) :
  run createOk schedule (initial n) = Some st ->
  (forall s, Get (table st) = Some s -> s ∈ created st) /\
  (forall t s, threads st !! t = Some (Done (Some s)) -> s ∈ created st).
Proof.
  intros Hrun.
  assert (Hinv : sessionsCreated st).
  { eapply run_sessionsCreated; [|exact Hrun]. split.
    - done.
    - intros t p s Hp. unfold initial in Hp. cbn [threads] in Hp.
      apply lookup_replicate in Hp as [-> _]. done. }
  destruct Hinv as [Htab Hthr]. split; [exact Htab|].
  intros t s Ht. by eapply (Hthr t (Done (Some s))).
Qed.

Lemma one_creation_in_flight_witness :
  exists st,
    run bothOk [0; 1; 0; 1]%nat (initial 2) = Some st /\
    forall t1 t2 p1 p2,
      threads st !! t1 = Some p1 -> threads st !! t2 = Some p2 ->
      inFlight p1 = true -> inFlight p2 = true -> t1 = t2.
Proof.
  eexists. split; [reflexivity|].
  exact (UdpProofs.one_creation_in_flight bothOk 2 [0; 1; 0; 1]%nat _ eq_refl).
Defined.

Lemma handleUDPConn_sends_to_created_witness :
  run bothOk scheduleTwoCreations (initial 2)
  = Some (mkState (mkTable (Some 1%nat) None) [Done (Some 0%nat); Done (Some 1%nat)]
                  ∅ [1; 0]%nat [1; 0]%nat) /\
  (forall s, Get (mkTable (Some 1%nat) None) = Some s -> s ∈ [1; 0]%nat) /\
  (forall t s, [Done (Some 0%nat); Done (Some 1%nat)] !! t = Some (Done (Some s)) ->
               s ∈ [1; 0]%nat).
Proof.
  assert (Hrun : run bothOk scheduleTwoCreations (initial 2)
                 = Some (mkState (mkTable (Some 1%nat) None)
                           [Done (Some 0%nat); Done (Some 1%nat)]
                           ∅ [1; 0]%nat [1; 0]%nat))
    by (vm_compute; reflexivity).
  split; [exact Hrun|].
  exact (handleUDPConn_sends_to_created bothOk 2 scheduleTwoCreations _ Hrun).
Defined.

Lemma run_app (createOk : nat -> bool) (s1 s2 : list nat) (st : State) :
  run createOk (s1 ++ s2) st = st1 ← run createOk s1 st; run createOk s2 st1.
Proof.
  revert st. induction s1 as [|t s1 IH]; intros st; [done|].
  simpl. destruct (step createOk t st) as [st1|]; [|done]. simpl. apply IH.
Qed.

(** The packets from [k] on find the session installed. *)
Lemma run_later_packets (createOk : nat -> bool) (s0 : session) (m k : nat)
  (tbl : Table) (h : gset cond) (cs : list nat) (cr : list session) :
  Get tbl = Some s0 ->
  run createOk (seq k m)
    (mkState tbl (replicate k (Done (Some s0)) ++ replicate m AtHandle) h cs cr)
  = Some (mkState tbl (replicate (k + m) (Done (Some s0))) h cs cr).
Proof.
  intros Hget. revert k. induction m as [|m IH]; intros k.
  - simpl. by rewrite app_nil_r, Nat.add_0_r.
  - cbn [seq run]. unfold step. cbn [threads].
    rewrite lookup_app_r by (by rewrite length_replicate).
    rewrite length_replicate, Nat.sub_diag. cbn [replicate lookup list_lookup].
    cbn [mbind option_bind table]. rewrite Hget. cbn [mbind option_bind].
    unfold setThread. cbn [table threads held creations created].
    rewrite insert_app_r_alt by (by rewrite length_replicate).
    rewrite length_replicate, Nat.sub_diag. cbn [insert list_insert].
    replace (replicate k (Done (Some s0)) ++ Done (Some s0) :: replicate m AtHandle)
      with (replicate (S k) (Done (Some s0)) ++ replicate m AtHandle).
    + rewrite IH. by rewrite Nat.add_succ_r.
    + rewrite replicate_S_end, <- app_assoc. done.
Qed.

(** X25: when the packets of one flow are handled one after the other and
    the creation attempt of the first succeeds, only that one attempt is
    made: its session is installed, the marker is gone, and the first packet
    and each of the packets after it are written to that session. *)
Theorem handleUDPConn_in_turn (createOk : nat -> bool) (n : nat) :
  createOk 0%nat = true ->
  run createOk (scheduleInTurn n) (initial (S n))
  = Some (mkState (mkTable (Some 0%nat) None)
                  (replicate (S n) (Done (Some 0%nat))) ∅ [0%nat] [0%nat]).
Proof.
  intros Hok. unfold scheduleInTurn. rewrite run_app.
  assert (Hfirst : run createOk (replicate 7 0%nat) (initial (S n))
                   = Some (mkState (mkTable (Some 0%nat) None)
                             (replicate 1 (Done (Some 0%nat)) ++ replicate n AtHandle)
                             ∅ [0%nat] [0%nat])).
  { unfold initial. cbn [replicate run]. unfold step. simpl. rewrite Hok. simpl.
    unfold DeleteLock, Set_. simpl. by rewrite fmap_replicate. }
  rewrite Hfirst. cbn [mbind option_bind].
  by rewrite (run_later_packets createOk 0%nat n 1).
Qed.

Lemma handleUDPConn_in_turn_witness :
  run bothOk (scheduleInTurn 3) (initial 4)
  = Some (mkState (mkTable (Some 0%nat) None)
                  (replicate 4 (Done (Some 0%nat))) ∅ [0%nat] [0%nat]).
Proof. exact (handleUDPConn_in_turn bothOk 3 eq_refl). Defined.

(** X26: a failed creation attempt leaves neither a session nor the marker
    behind, and its packet is written nowhere; the next packet of the flow
    then starts over: it claims the marker itself, and when its creation
    attempt succeeds its session is installed and its packet written to
    it. *)
Theorem handleUDPConn_retry (createOk : nat -> bool) (n : nat) :
  createOk 0%nat = false -> createOk 1%nat = true ->
  run createOk (replicate 5 0%nat) (initial (S (S n)))
  = Some (mkState (mkTable None None) (Done None :: replicate (S n) AtHandle)
                  ∅ [0%nat] []) /\
  run createOk scheduleRetry (initial (S (S n)))
  = Some (mkState (mkTable (Some 1%nat) None)
                  (Done None :: Done (Some 1%nat) :: replicate n AtHandle)
                  ∅ [1; 0]%nat [1%nat]).
Proof.
  intros Hfail Hok.
  assert (Hfirst : run createOk (replicate 5 0%nat) (initial (S (S n)))
                   = Some (mkState (mkTable None None)
                             (Done None :: replicate (S n) AtHandle) ∅ [0%nat] [])).
  { unfold initial. cbn [replicate run]. unfold step. simpl. rewrite Hfail. simpl.
    unfold DeleteLock. simpl. by rewrite fmap_replicate. }
  split; [exact Hfirst|].
  unfold scheduleRetry. rewrite run_app, Hfirst. cbn [mbind option_bind].
  cbn [replicate run]. unfold step. simpl. rewrite Hok. simpl.
  unfold DeleteLock, Set_. simpl. by rewrite fmap_replicate.
Qed.

Lemma handleUDPConn_retry_witness :
  run firstFails (replicate 5 0%nat) (initial 3)
  = Some (mkState (mkTable None None) (Done None :: replicate 2 AtHandle)
                  ∅ [0%nat] []) /\
  run firstFails scheduleRetry (initial 3)
  = Some (mkState (mkTable (Some 1%nat) None)
                  (Done None :: Done (Some 1%nat) :: replicate 1 AtHandle)
                  ∅ [1; 0]%nat [1%nat]).
Proof. exact (handleUDPConn_retry firstFails 1 eq_refl eq_refl). Defined.

End UdpFacts.

Module DohFacts.
Import Dns DnsSpec DnsExamples.

(** X27: a DoH exchange on a message object posts at most one request and
    never returns neither a message nor an error.  When packing or building
    the request fails nothing is posted and no message is returned; when the
    request fails it was the only one posted and no message is returned;
    when the response does not unpack, the error comes with a new message
    object holding what was unpacked; otherwise the new message object holds
    the unpacked response with the caller's ID in place of its own. *)
Theorem doh_ExchangeContext_outcomes
  (Pack : Msg -> list Z + error) (NewRequest : list Z -> option error)
  (Do : list Z -> list Z + error) (Unpack : list Z -> Msg * option error)
  (s : store) (m : ptr) (v : Msg) :
  s !! m = Some v ->
  exists out,
    doh_ExchangeContext Pack NewRequest Do Unpack s m = Some out /\
    (length (d_posted out) <= 1)%nat /\
    (d_msg out = None -> d_err out <> None) /\
    match Pack (withId v 0) with
    | inr err => d_posted out = [] /\ d_msg out = None /\ d_err out = Some err
    | inl buf =>
        match NewRequest buf with
        | Some err => d_posted out = [] /\ d_msg out = None /\ d_err out = Some err
        | None =>
            d_posted out = [buf] /\
            match Do buf with
            | inr err => d_msg out = None /\ d_err out = Some err
            | inl resp =>
                exists p, d_msg out = Some p /\ s !! p = None /\
                  d_err out = (Unpack resp).2 /\
                  d_store out !! p
                  = Some (match (Unpack resp).2 with
                          | Some _ => (Unpack resp).1
                          | None => withId (Unpack resp).1 (Id v)
                          end)
            end
        end
    end.
Proof.
  intros Hm.
  assert (Hlt : (m < length s)%nat) by (by eapply lookup_lt_Some).
  unfold doh_ExchangeContext, alloc. rewrite Hm. simpl.
  rewrite DnsProofs.alloc_lookup_new. simpl.
  rewrite list_lookup_insert_eq by (rewrite length_app; simpl; lia). simpl.
  set (s2 := <[length s := withId v 0]> (s ++ [v])).
  assert (Hlen2 : length s2 = S (length s)).
  { unfold s2. rewrite length_insert, length_app. simpl. lia. }
  assert (Hm2 : s2 !! m = Some v).
  { unfold s2. rewrite list_lookup_insert_ne by lia. by apply DnsProofs.alloc_lookup_old. }
  destruct (Pack (withId v 0)) as [buf|e].
  2:{ eexists. split; [reflexivity|]. simpl. split; [lia|]. by split. }
  destruct (NewRequest buf) as [e|].
  { eexists. split; [reflexivity|]. simpl. split; [lia|]. by split. }
  unfold doRequest, alloc. destruct (Do buf) as [resp|e].
  2:{ eexists. split; [reflexivity|]. simpl. split; [lia|]. by split. }
  destruct (Unpack resp) as [rv [e|]] eqn:Hun; cbn [fst snd].
  - eexists. split; [reflexivity|]. simpl. split; [lia|]. split; [done|].
    split; [done|]. exists (length s2). split; [done|].
    split; [apply lookup_ge_None; lia|]. split; [done|].
    rewrite list_lookup_insert_eq; [done|]. rewrite length_app. simpl. lia.
  - cbn [mbind option_bind].
    assert (Hm3 : <[length s2 := rv]> (s2 ++ [zeroMsg]) !! m = Some v).
    { rewrite list_lookup_insert_ne by lia. by apply DnsProofs.alloc_lookup_old. }
    rewrite Hm3. cbn [mbind option_bind].
    rewrite list_lookup_insert_eq by (rewrite length_app; simpl; lia).
    cbn [mbind option_bind].
    eexists. split; [reflexivity|]. simpl. split; [lia|]. split; [done|].
    split; [done|]. exists (length s2). split; [done|].
    split; [apply lookup_ge_None; lia|]. split; [done|].
    rewrite list_lookup_insert_eq; [done|].
    rewrite length_insert, length_app. simpl. lia.
Qed.

Lemma doh_ExchangeContext_outcomes_witness :
  exists out,
    doh_ExchangeContext exPack (fun _ => None) exDo exUnpack [exQuery] 0%nat = Some out /\
    (length (d_posted out) <= 1)%nat /\
    (d_msg out = None -> d_err out <> None) /\
    d_posted out = [[0; 0]%Z] /\
    exists p, d_msg out = Some p /\ [exQuery] !! p = None /\
      d_err out = None /\
      d_store out !! p = Some (withId (mkMsg 0 0 [exQuestion] [] [] []) 7).
Proof.
  exact (doh_ExchangeContext_outcomes exPack (fun _ => None) exDo exUnpack
           [exQuery] 0%nat exQuery eq_refl).
Defined.

End DohFacts.

Module DnsClientFacts.
Import Dns HostResolver DnsClient DnsClientSpec ResolveExamples DnsClientExamples.

(** X28: the resolver made for proxy server hosts sends every question,
    of any type and for any name, to one group: the policy group when the
    policy of the resolver it was made from matches the name, and otherwise
    that resolver's proxy-server name servers; the main and fallback groups
    are never asked.  It counts as having proxy servers exactly when that
    list is not empty. *)
Theorem proxy_server_resolver_group (old : Dns.Resolver) (m : Msg) (q : Question)
  (net : Upstream) :
  run net (exchange_upstream (NewProxyServerHostResolver old) m q)
  = (let g := match matchPolicy old m with
              | [] => proxyServer old
              | _ :: _ => matchPolicy old m
              end in
     (net 0%nat g m, [(g, m)])) /\
  (HasProxyServer (NewProxyServerHostResolver old) = true <-> proxyServer old <> []).
Proof.
  split.
  - assert (Hpol : matchPolicy (NewProxyServerHostResolver old) m = matchPolicy old m)
      by reflexivity.
    unfold exchange_upstream, ipExchange, asyncExchange, shouldOnlyQueryFallback.
    rewrite Hpol. cbn [fallback NewProxyServerHostResolver main].
    rewrite bool_decide_eq_true_2 by done. cbn [orb].
    destruct (isIPRequest q); by destruct (matchPolicy old m).
  - unfold HasProxyServer. simpl. destruct (proxyServer old); simpl; split; done.
Qed.

Section ClientFacts.

Variable ParseAddr : string -> option IP.
Variable netIP : Type.
Variable LookupIP : string -> string -> list netIP * option error.
Variable To4 : netIP -> option N.
Variable IpToAddr : netIP -> Addr.
Variable seed : nat.
Variable AddrString : Addr -> string.
Variable JoinHostPort : string -> string -> string.
Variable Conn : Type.
Variable DialContext : string -> string -> list dialOption -> Conn + error.
Variable dialContextWithProxyAdapter :
  string -> string -> Addr -> string -> list dialOption -> Conn + error.
Variable ExchangeWithConn : Msg -> Conn -> bool -> option Msg * option error.
Variable cancelled : bool.
Variable ctxErr : error.

Local Abbreviation ResolveIPWithResolver :=
  (ResolveIPWithResolver ParseAddr netIP LookupIP To4 IpToAddr seed).
Local Abbreviation serverIP :=
  (serverIP ParseAddr netIP LookupIP To4 IpToAddr seed AddrString).
Local Abbreviation connect :=
  (connect AddrString JoinHostPort Conn DialContext dialContextWithProxyAdapter).
Local Abbreviation ExchangeContext :=
  (DnsClient.ExchangeContext ParseAddr netIP LookupIP To4 IpToAddr seed AddrString
     JoinHostPort Conn DialContext dialContextWithProxyAdapter ExchangeWithConn
     cancelled ctxErr).
Local Abbreviation dialsTo := (dialsTo AddrString JoinHostPort).

Lemma connect_dialsTo (c : client) (ip : Addr) :
  (connect c ip).2 <> [] /\ Forall (dialsTo ip (port c)) (connect c ip).2.
Proof.
  unfold DnsClient.connect.
  destruct (bool_decide (proxyAdapter c <> EmptyString)).
  - destruct (dialContextWithProxyAdapter _ _ _ _ _) as [conn|err].
    + split; [done|]. by repeat constructor.
    + destruct (bool_decide (err = errProxyNotFound)); split; try done;
        by repeat constructor.
  - split; [done|]. by repeat constructor.
Qed.

Lemma ExchangeContext_dials (g : Globals) (ctx : Context) (c c' : client)
  (ip : Addr) (m : Msg) :
  serverIP g ctx c = inl (c', ip) ->
  o_client (ExchangeContext g ctx c m) = c' /\
  o_dials (ExchangeContext g ctx c m) = (connect c' ip).2.
Proof.
  intros Hip. unfold DnsClient.ExchangeContext. rewrite Hip.
  destruct (connect c' ip) as [[conn|err] dials]; [|done].
  destruct cancelled; [done|]. by destruct (ExchangeWithConn _ _ _).
Qed.

(** X29: a client whose server is given by name, not by address, finds
    the address first.  Without a resolver of its own it fails with "dns
    <host> not a valid ip" before any dial, and when the resolution fails
    it returns that error wrapped, again before any dial.  When the
    resolution succeeds, which it does with the hosts entry of the name
    whatever the resolver would say, every dial of the exchange is for that
    address, and the client keeps the address in place of the name. *)
Theorem client_bootstrap (g : Globals) (ctx : Context) (c : client) (m : Msg) :
  ParseAddr (host c) = None ->
  (r c = None ->
     ExchangeContext g ctx c m
     = mkOutcome c None (Some ("dns " +:+ host c +:+ " not a valid ip")%string)
         [] []) /\
  (forall rs ip e,
     r c = Some rs -> ResolveIPWithResolver g ctx (host c) (Some rs) = (ip, Some e) ->
     ExchangeContext g ctx c m
     = mkOutcome c None (Some ("use default dns resolve failed: " +:+ e)%string)
         [] []) /\
  (forall rs ip,
     r c = Some rs ->
     ResolveIPWithResolver g ctx (host c) (Some rs) = (ip, None) \/
     hostsData g (host c) = Some ip ->
     o_client (ExchangeContext g ctx c m) = set_host c (AddrString ip) /\
     o_dials (ExchangeContext g ctx c m) <> [] /\
     Forall (dialsTo ip (port c)) (o_dials (ExchangeContext g ctx c m))).
Proof.
  intros Hparse. split; [|split].
  - intros Hr. unfold DnsClient.ExchangeContext, DnsClient.serverIP.
    by rewrite Hparse, Hr.
  - intros rs ip e Hr Hres. unfold DnsClient.ExchangeContext, DnsClient.serverIP.
    by rewrite Hparse, Hr, Hres.
  - intros rs ip Hr Hres.
    assert (Hres' : ResolveIPWithResolver g ctx (host c) (Some rs) = (ip, None)).
    { destruct Hres as [H|H]; [exact H|].
      unfold HostResolver.ResolveIPWithResolver. by rewrite H. }
    assert (Hip : serverIP g ctx c = inl (set_host c (AddrString ip), ip)).
    { unfold DnsClient.serverIP. by rewrite Hparse, Hr, Hres'. }
    destruct (ExchangeContext_dials g ctx c _ ip m Hip) as [-> ->].
    split; [done|]. apply (connect_dialsTo (set_host c (AddrString ip)) ip).
Qed.

(** X30: when a client names a proxy adapter that is not a known proxy,
    the exchange dials twice: through the adapter first and then directly,
    bound to an interface named like the adapter with routing mark 0, the
    interface configured for the client being left out.  Whatever the
    configuration, a connection that was opened is closed when the exchange
    returns, and an exchange that opened none returns no message. *)
Theorem client_proxy_not_found (g : Globals) (ctx : Context) (c : client) (m : Msg) :
  let out := ExchangeContext g ctx c m in
  (forall c' ip,
     serverIP g ctx c = inl (c', ip) ->
     proxyAdapter c <> EmptyString ->
     dialContextWithProxyAdapter (proxyAdapter c)
       (if String.prefix "tcp" (Net c) then "tcp" else "udp") ip (port c)
       (if bool_decide (iface c <> EmptyString) then [WithInterface (iface c)] else [])
     = inr errProxyNotFound ->
     o_dials out
     = [DialProxy (proxyAdapter c)
          (if String.prefix "tcp" (Net c) then "tcp" else "udp") ip (port c)
          (if bool_decide (iface c <> EmptyString) then [WithInterface (iface c)] else []);
        DialDirect (if String.prefix "tcp" (Net c) then "tcp" else "udp")
          (JoinHostPort (AddrString ip) (port c))
          [WithInterface (proxyAdapter c); WithRoutingMark 0]]) /\
  (forall c' ip conn,
     serverIP g ctx c = inl (c', ip) -> (connect c' ip).1 = inl conn ->
     o_closed out = [conn]) /\
  (o_closed out = [] -> o_msg out = None /\ o_err out <> None).
Proof.
  cbn zeta. split; [|split].
  - intros c' ip Hip Hproxy Hnot.
    destruct (ExchangeContext_dials g ctx c c' ip m Hip) as [_ ->].
    assert (Hsame : Net c' = Net c /\ port c' = port c /\ iface c' = iface c /\
                    proxyAdapter c' = proxyAdapter c).
    { unfold DnsClient.serverIP in Hip. destruct (ParseAddr (host c)).
      - by injection Hip as <- _.
      - destruct (r c); [|done].
        destruct (ResolveIPWithResolver _ _ _ _) as [ip' [e|]]; [done|].
        by injection Hip as <- _. }
    destruct Hsame as (HN & HP & HI & HA).
    unfold DnsClient.connect. rewrite HN, HP, HI, HA.
    rewrite (bool_decide_eq_true_2 (proxyAdapter c <> EmptyString)) by done.
    rewrite Hnot. by rewrite bool_decide_eq_true_2.
  - intros c' ip conn Hip Hconn. unfold DnsClient.ExchangeContext. rewrite Hip.
    destruct (connect c' ip) as [[conn'|err] dials]; [|done].
    simpl in Hconn. injection Hconn as ->.
    destruct cancelled; [done|]. by destruct (ExchangeWithConn _ _ _).
  - unfold DnsClient.ExchangeContext.
    destruct (serverIP g ctx c) as [[c' ip]|err]; [|done].
    destruct (connect c' ip) as [[conn|err] dials]; [|done].
    destruct cancelled; [done|]. by destruct (ExchangeWithConn _ _ _).
Qed.

End ClientFacts.

Lemma client_bootstrap_witness :
  (r exClientByName = None ->
     DnsClient.ExchangeContext exParseAddr N exLookupIP exTo4 exIpToAddr 0 exAddrString
       exJoinHostPort nat exDialContext exDialProxy exExchangeWithConn false
       "context canceled" exGlobals Background exClientByName DnsExamples.exQuery
     = mkOutcome exClientByName None
         (Some ("dns " +:+ host exClientByName +:+ " not a valid ip")%string) [] []) /\
  (forall rs ip e,
     r exClientByName = Some rs ->
     HostResolver.ResolveIPWithResolver exParseAddr N exLookupIP exTo4 exIpToAddr 0
       exGlobals Background (host exClientByName) (Some rs) = (ip, Some e) ->
     DnsClient.ExchangeContext exParseAddr N exLookupIP exTo4 exIpToAddr 0 exAddrString
       exJoinHostPort nat exDialContext exDialProxy exExchangeWithConn false
       "context canceled" exGlobals Background exClientByName DnsExamples.exQuery
     = mkOutcome exClientByName None
         (Some ("use default dns resolve failed: " +:+ e)%string) [] []) /\
  (forall rs ip,
     r exClientByName = Some rs ->
     HostResolver.ResolveIPWithResolver exParseAddr N exLookupIP exTo4 exIpToAddr 0
       exGlobals Background (host exClientByName) (Some rs) = (ip, None) \/
     hostsData exGlobals (host exClientByName) = Some ip ->
     o_client
       (DnsClient.ExchangeContext exParseAddr N exLookupIP exTo4 exIpToAddr 0 exAddrString
          exJoinHostPort nat exDialContext exDialProxy exExchangeWithConn false
          "context canceled" exGlobals Background exClientByName DnsExamples.exQuery)
     = set_host exClientByName (exAddrString ip) /\
     o_dials
       (DnsClient.ExchangeContext exParseAddr N exLookupIP exTo4 exIpToAddr 0 exAddrString
          exJoinHostPort nat exDialContext exDialProxy exExchangeWithConn false
          "context canceled" exGlobals Background exClientByName DnsExamples.exQuery)
     <> [] /\
     Forall (dialsTo exAddrString exJoinHostPort ip (port exClientByName))
       (o_dials
          (DnsClient.ExchangeContext exParseAddr N exLookupIP exTo4 exIpToAddr 0
             exAddrString exJoinHostPort nat exDialContext exDialProxy exExchangeWithConn
             false "context canceled" exGlobals Background exClientByName
             DnsExamples.exQuery))).
Proof.
  exact (client_bootstrap exParseAddr N exLookupIP exTo4 exIpToAddr 0 exAddrString
           exJoinHostPort nat exDialContext exDialProxy exExchangeWithConn false
           "context canceled" exGlobals Background exClientByName DnsExamples.exQuery
           eq_refl).
Defined.

End DnsClientFacts.
